(** * Monitor de Amonia: the Modbus RTU client (src/src/modbus/modbus_client.py)

    A shallow embedding of [ModbusRTUClient] and of the pure helpers around it.

    - Python floats are binary64 values, modelled by the rationals ([Q])
      they denote; the arithmetic of the source rounds every result to the
      nearest binary64 value, and so does the model.  NaN, the infinities
      (an operation that overflows) and the sign of zero are outside the
      model; a property about a computed value is stated for exact results
      within the range of the finite floats.  A timeout is only stored and
      handed to the line, never computed with: [1 # 5] stands for the
      literal 0.2.
    - The client object ([self]) is a record; the serial line is an oracle
      ([Transport]) that answers every call from the history of the line, and
      every call made on the line is appended to a log.
    - Methods run in a state-and-exception monad: Python exceptions are
      [Raise e], and [try]/[except]/[finally] are combinators.
    - Opening the port (the construction of the instrument and the line
      configuration that follows it) is the one step of [connect] that can
      fail; closing the port and assigning attributes of the instrument and
      of its serial object do not fail.
    - Logging calls are not modelled. *)

From Stdlib Require Import ZArith QArith Qround Qabs Qpower Lqa List Bool String Lia.
From Stdlib Require Import Sorting.Sorted.
From Stdlib Require Import DecimalString.
Import ListNotations.

Open Scope Z_scope.

(** ** Data model *)

(** [class RegisterType(Enum)] *)
Inductive RegisterType : Type :=
| COIL
| DISCRETE_INPUT
| HOLDING_REGISTER
| INPUT_REGISTER.

(** [@dataclass class ModbusDeviceConfig].  The field [unit] of the source is
    [unit_label] here ([unit] is a type of Rocq). *)
Record ModbusDeviceConfig : Type := mkDevice {
  name : string;
  address : Z;
  register : Z;
  register_type : RegisterType;
  unit_label : string;
  scale : Q;
  offset : Q;
  description : string;
  min_value : Q;
  max_value : Q;
  warning_threshold : Q;
  alarm_threshold : Q
}.

(** The four status strings of [read_all_devices] and [_get_status]. *)
Inductive Status : Type := normal | alerta | alarme | erro.

Definition status_str (s : Status) : string :=
  match s with
  | normal => "normal"
  | alerta => "alerta"
  | alarme => "alarme"
  | erro => "erro"
  end.

(** Severity order of the three statuses a classified value can have. *)
Definition severity (s : Status) : nat :=
  match s with
  | normal => 0
  | alerta => 1
  | alarme => 2
  | erro => 3
  end.

(** The exceptions that occur in the module.  [NoResponseError] and
    [InvalidResponseError] are minimalmodbus's; [ModbusException] is the
    module's own and carries which of its two messages it was raised with. *)
Inductive ModbusWhy : Type := NotConnected | ScanFailed.

Inductive Exn : Type :=
| NoResponseError
| InvalidResponseError
| SerialException
| ValueError
| TypeError
| AttributeError
| UnboundLocalError
| ModbusException (why : ModbusWhy).

(** ** Floats

    A float of the source is a binary64 value, modelled by the rational it
    denotes.  An operation on floats returns the binary64 value nearest to
    its exact result, a tie going to the even significand ([b64]). *)

(** The nearest integer, a tie going to the even one. *)
Definition round_half_even (q : Q) : Z :=
  let f := Qfloor q in
  match Qcompare (q - inject_Z f) (1 # 2) with
  | Lt => f
  | Gt => f + 1
  | Eq => if Z.even f then f else f + 1
  end.

(** The binade of a positive rational: the [l] with [2^l <= a < 2^(l+1)]. *)
Definition ilog2 (a : Q) : Z :=
  let l := Z.log2 (Qnum a) - Z.log2 (Zpos (Qden a)) in
  if Qle_bool (2 ^ l) a then l else l - 1.

(** The exponent of the last place of the binary64 values around [q]: the
    significand has 53 bits, and the last place is never below [2^-1074]
    (the subnormal numbers). *)
Definition ulp_exponent (q : Q) : Z := Z.max (ilog2 (Qabs q) - 52) (-1074).

(** Rounding to binary64: the multiple of the last place nearest to [q], a
    tie going to the even significand. *)
Definition b64 (q : Q) : Q :=
  let e := ulp_exponent q in
  Qred (inject_Z (round_half_even (q / 2 ^ e)) * 2 ^ e).

Arguments b64 : simpl never.

(** The largest binary64 value.  An exact result within [-max_float,
    max_float] rounds to a finite float; beyond it the source computes with
    infinities, which the model does not have. *)
Definition max_float : Q := inject_Z ((2 ^ 53 - 1) * 2 ^ 971).

Definition finite (q : Q) : bool := Qle_bool (Qabs q) max_float.

(** The rationals that are floats: those that rounding leaves as they are. *)
Definition is_float (q : Q) : bool := Qeq_bool (b64 q) q && finite q.

(** Python's [round(x, 2)] on a float: the decimal with two places nearest
    to the exact value of [x], a tie going to the even one, and then the
    float nearest to that decimal. *)
Definition round2 (x : Q) : Q := b64 (round_half_even (x * 100) # 100).

(** ** The serial line *)

(** The calls the client makes on [self.instrument]. *)
Inductive Request : Type :=
| ReadBit (reg fc : Z)
| ReadRegister (reg fc number_of_decimals : Z)
| WriteBit (reg : Z) (value : bool) (fc : Z)
| WriteRegister (reg value fc : Z).

Inductive Reply : Type :=
| Value (v : Q)
| Error (e : Exn).

(** What the line has seen: the port opened (or failing to), the port closed,
    and each transaction with the slave address and the serial timeout in
    force when it was made. *)
Inductive Event : Type :=
| EvOpen (ok : bool)
| EvClose
| EvCall (slave : Z) (tmo : Q) (rq : Request) (rp : Reply).

(** The environment of the client: whether the port opens, what a transaction
    answers and what [time.strftime] returns, each from the history so far. *)
Record Transport : Type := mkTransport {
  opens : list Event -> bool;
  reply : list Event -> Z -> Q -> Request -> Reply;
  strftime : list Event -> string
}.

(** [minimalmodbus.Instrument] with the attributes of its [serial] the client
    touches. *)
Record Instrument : Type := mkInstrument {
  slave_address : Z;
  serial_baudrate : Z;
  serial_timeout : Q;
  serial_is_open : bool
}.

(** The attributes of [ModbusRTUClient].  [devices] is a Python dict: an
    association list in insertion order. *)
Record Client : Type := mkClient {
  port : string;
  baudrate : Z;
  timeout : Q;
  instrument : option Instrument;
  connected : bool;
  devices : list (Z * ModbusDeviceConfig)
}.

Record State : Type := mkState {
  client : Client;
  log : list Event
}.

(** [ModbusRTUClient.__init__] *)
Definition init (port : string) (baudrate : Z) (timeout : Q) : Client :=
  {| port := port; baudrate := baudrate; timeout := timeout;
     instrument := None; connected := false; devices := [] |}.

(** ** The monad: state and exceptions *)

Inductive Result (A : Type) : Type :=
| Ret (a : A)
| Raise (e : Exn).
Arguments Ret {A} a.
Arguments Raise {A} e.

Definition M (A : Type) : Type := State -> Result A * State.

Definition ret {A} (a : A) : M A := fun s => (Ret a, s).

Definition raise {A} (e : Exn) : M A := fun s => (Raise e, s).

Definition bind {A B} (m : M A) (k : A -> M B) : M B :=
  fun s => match m s with
           | (Ret a, s') => k a s'
           | (Raise e, s') => (Raise e, s')
           end.

(** [try: m  except Exception as e: h e] *)
Definition try_except {A} (m : M A) (h : Exn -> M A) : M A :=
  fun s => match m s with
           | (Ret a, s') => (Ret a, s')
           | (Raise e, s') => h e s'
           end.

(** [try: m  finally: f]: [f] runs on every exit of [m]; the outcome is that
    of [m] unless [f] itself raises. *)
Definition try_finally {A} (m : M A) (f : M unit) : M A :=
  fun s => match m s with
           | (r, s') => match f s' with
                        | (Ret _, s'') => (r, s'')
                        | (Raise e, s'') => (Raise e, s'')
                        end
           end.

Declare Scope monad_scope.
Delimit Scope monad_scope with monad.
Notation "x <- m ;; k" := (bind m (fun x => k))
  (at level 61, m at next level, right associativity) : monad_scope.
Notation "m ;; k" := (bind m (fun _ => k))
  (at level 61, right associativity) : monad_scope.
Open Scope monad_scope.

Definition get_self : M Client := fun s => (Ret (client s), s).

Definition put_self (c : Client) : M unit :=
  fun s => (Ret tt, {| client := c; log := log s |}).

(** Attribute assignments on [self] and on [self.instrument]. *)
Definition with_connected (b : bool) (c : Client) : Client :=
  {| port := port c; baudrate := baudrate c; timeout := timeout c;
     instrument := instrument c; connected := b; devices := devices c |}.

Definition with_instrument (i : option Instrument) (c : Client) : Client :=
  {| port := port c; baudrate := baudrate c; timeout := timeout c;
     instrument := i; connected := connected c; devices := devices c |}.

Definition with_devices (d : list (Z * ModbusDeviceConfig)) (c : Client) : Client :=
  {| port := port c; baudrate := baudrate c; timeout := timeout c;
     instrument := instrument c; connected := connected c; devices := d |}.

Definition with_address (a : Z) (i : Instrument) : Instrument :=
  {| slave_address := a; serial_baudrate := serial_baudrate i;
     serial_timeout := serial_timeout i; serial_is_open := serial_is_open i |}.

Definition with_timeout (t : Q) (i : Instrument) : Instrument :=
  {| slave_address := slave_address i; serial_baudrate := serial_baudrate i;
     serial_timeout := t; serial_is_open := serial_is_open i |}.

Definition with_is_open (b : bool) (i : Instrument) : Instrument :=
  {| slave_address := slave_address i; serial_baudrate := serial_baudrate i;
     serial_timeout := serial_timeout i; serial_is_open := b |}.

Definition set_connected (b : bool) : M unit :=
  c <- get_self ;; put_self (with_connected b c).

Definition set_instrument (i : option Instrument) : M unit :=
  c <- get_self ;; put_self (with_instrument i c).

Definition set_devices (d : list (Z * ModbusDeviceConfig)) : M unit :=
  c <- get_self ;; put_self (with_devices d c).

(** [self.instrument.<attr>]: [AttributeError] when [self.instrument] is
    [None]. *)
Definition the_instrument : M Instrument :=
  c <- get_self ;;
  match instrument c with
  | Some i => ret i
  | None => raise AttributeError
  end.

(** [self.instrument.address = a] *)
Definition set_address (a : Z) : M unit :=
  i <- the_instrument ;; set_instrument (Some (with_address a i)).

(** [self.instrument.serial.timeout = t] *)
Definition set_serial_timeout (t : Q) : M unit :=
  i <- the_instrument ;; set_instrument (Some (with_timeout t i)).

Definition emit (e : Event) : M unit :=
  fun s => (Ret tt, {| client := client s; log := log s ++ [e] |}).

Section Methods.

Variable tr : Transport.

(** One transaction on the line: [self.instrument.read_register(...)],
    [read_bit], [write_register] or [write_bit].  The answer is the line's;
    an error answer is raised. *)
Definition call (rq : Request) : M Q :=
  i <- the_instrument ;;
  fun s =>
    let rp := reply tr (log s) (slave_address i) (serial_timeout i) rq in
    let s' := {| client := client s;
                 log := log s ++ [EvCall (slave_address i) (serial_timeout i) rq rp] |} in
    match rp with
    | Value v => (Ret v, s')
    | Error e => (Raise e, s')
    end.

(** [minimalmodbus.Instrument(port=..., slaveaddress=1, mode=MODE_RTU, ...)]
    followed by the line configuration of [connect] (baud rate, timeout 1.0,
    8N1).  Opening the port is the step that can fail; [self.instrument] is
    assigned only when it did not. *)
Definition new_instrument : M unit :=
  c <- get_self ;;
  fun s =>
    let ok := opens tr (log s) in
    let s' := {| client := client s; log := log s ++ [EvOpen ok] |} in
    if ok
    then set_instrument (Some {| slave_address := 1;
                                 serial_baudrate := baudrate c;
                                 serial_timeout := 1;
                                 serial_is_open := true |}) s'
    else (Raise SerialException, s').

(** [ModbusRTUClient.disconnect]: the second definition in the class body,
    which is the one in force. *)
Definition disconnect : M unit :=
  c <- get_self ;;
  match instrument c with
  | Some i =>
      emit EvClose ;;
      set_instrument (Some (with_is_open false i)) ;;
      set_connected false
  | None => ret tt
  end.

Definition test_addresses : list Z := [1; 2; 3; 4; 5].

(** The [for addr in test_addresses] loop of [connect]: [true] when an address
    answered (the source returns from [connect] there), [false] when the list
    is exhausted. *)
Fixpoint probe (addrs : list Z) : M bool :=
  match addrs with
  | [] => ret false
  | addr :: rest =>
      found <- try_except
                 (set_address addr ;;
                  call (ReadRegister 0 4 0) ;;
                  set_connected true ;;
                  ret true)
                 (fun _ => ret false) ;;
      if found then ret true else probe rest
  end.

(** [ModbusRTUClient.connect] *)
Definition connect : M bool :=
  c <- get_self ;;
  match connected c, instrument c with
  | true, Some _ => ret true
  | _, _ =>
      try_except
        (disconnect ;;
         new_instrument ;;
         found <- probe test_addresses ;;
         if found then ret true
         else (set_connected true ;; ret true))
        (fun _ => set_connected false ;; ret false)
  end.

(** [ModbusRTUClient.add_device]: [self.devices[device.address] = device].
    Assigning to a key a dict already has keeps the key's position. *)
Fixpoint dict_set {V : Type} (k : Z) (v : V) (d : list (Z * V)) : list (Z * V) :=
  match d with
  | [] => [(k, v)]
  | (k', v') :: rest =>
      if k =? k' then (k, v) :: rest else (k', v') :: dict_set k v rest
  end.

Definition add_device (device : ModbusDeviceConfig) : M unit :=
  c <- get_self ;;
  set_devices (dict_set (address device) device (devices c)).

(** The [finally] block of [read_register] and [write_register]: restores the
    timeout when [self.instrument] has a [serial]. *)
Definition restore_timeout (original_timeout : option Q) : M unit :=
  c <- get_self ;;
  match instrument c with
  | Some _ =>
      match original_timeout with
      | Some t => set_serial_timeout t
      | None => raise UnboundLocalError
      end
  | None => ret tt
  end.

(** The guard that opens [read_register] and [write_register]:
    [if not self.connected or self.instrument is None: ... self.connect()]. *)
Definition ensure_connected : M bool :=
  c <- get_self ;;
  match connected c, instrument c with
  | true, Some _ => ret true
  | _, _ => connect
  end.

(** What a caller can pass as [register_type]: a member of the enumeration,
    which is what the signature announces, or another value, which the
    methods accept and convert.  A value that is not an integer converts as
    the integer it equals when there is one ([1.0], [True]), and as the
    value of no member when there is none.  Members pass where an argument
    is expected. *)
Inductive RegisterTypeArg : Type :=
| Enum (member : RegisterType)
| Raw (value : Z).

Coercion Enum : RegisterType >-> RegisterTypeArg.

(** [RegisterType(value)]: the member with that value; [ValueError] when
    there is none. *)
Definition RegisterType_of_value (value : Z) : M RegisterType :=
  if value =? 1 then ret COIL
  else if value =? 2 then ret DISCRETE_INPUT
  else if value =? 3 then ret HOLDING_REGISTER
  else if value =? 4 then ret INPUT_REGISTER
  else raise ValueError.

(** [if not isinstance(register_type, RegisterType):
         register_type = RegisterType(register_type)] *)
Definition as_RegisterType (register_type : RegisterTypeArg) : M RegisterType :=
  match register_type with
  | Enum member => ret member
  | Raw value => RegisterType_of_value value
  end.

(** [ModbusRTUClient.read_register].  [number_of_decimals] is the keyword
    argument the callers pass (0 when absent).  The conversion of
    [register_type] comes after the guard and before the [try], so what it
    raises reaches the caller; after it [register_type] is a member, and the
    final [else] of the dispatch does not arise. *)
Definition read_register (address register : Z) (register_type : RegisterTypeArg)
    (number_of_decimals : Z) : M (option Q) :=
  ok <- ensure_connected ;;
  if negb ok then ret None
  else
    register_type <- as_RegisterType register_type ;;
    set_address address ;;
    c <- get_self ;;
    let original_timeout := option_map serial_timeout (instrument c) in
    try_finally
      (try_except
         (the_instrument ;;
          set_serial_timeout 1 ;;
          value <- match register_type with
                   | COIL => call (ReadBit register 1)
                   | DISCRETE_INPUT => call (ReadBit register 2)
                   | HOLDING_REGISTER =>
                       call (ReadRegister register 3 number_of_decimals)
                   | INPUT_REGISTER =>
                       call (ReadRegister register 4 number_of_decimals)
                   end ;;
          ret (Some value))
         (fun e =>
            match e with
            | NoResponseError => set_connected false ;; ret None
            | InvalidResponseError => ret None
            | _ => set_connected false ;; ret None
            end))
      (restore_timeout original_timeout).

(** [ModbusRTUClient.write_register]: the second definition in the class
    body, which is the one in force.  [bool(value)] is [value <> 0]. *)
Definition write_register (address register value : Z)
    (register_type : RegisterTypeArg) : M bool :=
  ok <- ensure_connected ;;
  if negb ok then ret false
  else
    register_type <- as_RegisterType register_type ;;
    set_address address ;;
    c <- get_self ;;
    let original_timeout := option_map serial_timeout (instrument c) in
    try_finally
      (try_except
         (the_instrument ;;
          set_serial_timeout 1 ;;
          match register_type with
          | COIL =>
              call (WriteBit register (negb (value =? 0)) 5) ;; ret true
          | HOLDING_REGISTER =>
              call (WriteRegister register value 6) ;; ret true
          | _ => ret false
          end)
         (fun e =>
            match e with
            | NoResponseError => set_connected false ;; ret false
            | InvalidResponseError => ret false
            | _ => set_connected false ;; ret false
            end))
      (restore_timeout original_timeout).

(** [ModbusRTUClient.read_device].  The range check of the source only logs a
    warning; it does not change the value returned.  [register_type] is a
    field of the dataclass and holds a member, so the early return on
    [device.register_type is None] does not arise; [float(...)] is applied
    to floats and leaves them as they are. *)
Definition read_device (device : ModbusDeviceConfig) : M (option Q) :=
  try_except
    (let number_of_decimals :=
       match register_type device with
       | INPUT_REGISTER | HOLDING_REGISTER => 2
       | _ => 0
       end in
     raw_value <- read_register (address device) (register device)
                    (register_type device) number_of_decimals ;;
     match raw_value with
     | Some raw =>
         let scaled_value := b64 (b64 (raw * scale device) + offset device) in
         let rounded_value := round2 scaled_value in
         ret (Some rounded_value)
     | None => ret None
     end)
    (fun _ => ret None).

(** [ModbusRTUClient._get_status] *)
Definition _get_status (device : ModbusDeviceConfig) (value : Q) : Status :=
  if Qle_bool (alarm_threshold device) value then alarme
  else if Qle_bool (warning_threshold device) value then alerta
  else normal.

(** One entry of the dict [read_all_devices] returns. *)
Record Reading : Type := mkReading {
  reading_name : string;
  reading_value : option Q;
  reading_unit : string;
  reading_status : Status;
  reading_timestamp : string
}.

Definition time_strftime : M string := fun s => (Ret (strftime tr (log s)), s).

(** The loop of [read_all_devices] over [self.devices.items()]. *)
Fixpoint read_each (items : list (Z * ModbusDeviceConfig))
    (results : list (Z * Reading)) : M (list (Z * Reading)) :=
  match items with
  | [] => ret results
  | (addr, device) :: rest =>
      value <- read_device device ;;
      timestamp <- time_strftime ;;
      read_each rest
        (dict_set addr
           {| reading_name := name device;
              reading_value := value;
              reading_unit := unit_label device;
              reading_status := match value with
                                | Some v => _get_status device v
                                | None => erro
                                end;
              reading_timestamp := timestamp |}
           results)
  end.

(** [ModbusRTUClient.read_all_devices] *)
Definition read_all_devices : M (list (Z * Reading)) :=
  c <- get_self ;;
  read_each (devices c) [].

(** [range(start, stop)] *)
Definition py_range (start stop : Z) : list Z :=
  map (fun k => start + Z.of_nat k) (seq 0 (Z.to_nat (stop - start))).

(** The [for addr in range(start_address, end_address + 1)] loop of
    [scan_devices]. *)
Fixpoint sweep (addrs : list Z) (found_devices : list Z) : M (list Z) :=
  match addrs with
  | [] => ret found_devices
  | addr :: rest =>
      found_devices' <-
        try_except
          (set_address addr ;;
           call (ReadRegister 0 4 0) ;;
           ret (found_devices ++ [addr]))
          (fun e =>
             match e with
             | NoResponseError => ret found_devices
             | InvalidResponseError => ret (found_devices ++ [addr])
             | _ => ret found_devices
             end) ;;
      sweep rest found_devices'
  end.

(** [ModbusRTUClient.scan_devices] *)
Definition scan_devices (start_address end_address : Z) : M (list Z) :=
  c <- get_self ;;
  if negb (connected c) then raise (ModbusException NotConnected)
  else if negb ((1 <=? start_address) && (start_address <=? 247))
  then raise ValueError
  else if negb ((1 <=? end_address) && (end_address <=? 247))
  then raise ValueError
  else if end_address <? start_address then raise ValueError
  else
    i <- the_instrument ;;
    let original_timeout := serial_timeout i in
    try_finally
      (try_except
         (set_serial_timeout (1 # 5) ;;
          sweep (py_range start_address (end_address + 1)) [])
         (fun _ => raise (ModbusException ScanFailed)))
      (set_serial_timeout original_timeout).

End Methods.

(** ** The result of [read_all_devices] as the caller holds it

    A dict from the device address to a dict with the keys [name], [value],
    [unit], [status] and [timestamp]. *)
Inductive PyKey : Type :=
| KInt (z : Z)
| KStr (s : string).

Inductive PyAtom : Type :=
| PyNone
| PyFloat (q : Q)
| PyStr (s : string).

Definition PyDict (V : Type) : Type := list (PyKey * V).

Definition key_eqb (a b : PyKey) : bool :=
  match a, b with
  | KInt x, KInt y => x =? y
  | KStr x, KStr y => String.eqb x y
  | _, _ => false
  end.

(** [d.get(k)]: [None] where the dict has no such key. *)
Definition py_get {V : Type} (k : PyKey) (d : PyDict V) : option V :=
  option_map snd (find (fun kv => key_eqb k (fst kv)) d).

Definition reading_dict (r : Reading) : PyDict PyAtom :=
  [(KStr "name", PyStr (reading_name r));
   (KStr "value", match reading_value r with
                  | Some v => PyFloat v
                  | None => PyNone
                  end);
   (KStr "unit", PyStr (reading_unit r));
   (KStr "status", PyStr (status_str (reading_status r)));
   (KStr "timestamp", PyStr (reading_timestamp r))].

Definition results_dict (results : list (Z * Reading)) : PyDict (PyDict PyAtom) :=
  map (fun ar => (KInt (fst ar), reading_dict (snd ar))) results.

(** ** What the specification calls the normalised value

    [clamp(raw*scale + offset, minValue, maxValue)], in the specification's
    words; compared below with what [read_device] returns. *)
Definition clamp (x lo hi : Q) : Q :=
  if Qle_bool x lo then lo else if Qle_bool hi x then hi else x.

Definition normalize_spec (device : ModbusDeviceConfig) (raw : Q) : Q :=
  clamp (raw * scale device + offset device) (min_value device) (max_value device).

(** What the arithmetic of [read_device] is given and stays in: the raw
    value, the scale and the offset are floats, and neither the product nor
    the sum overflows. *)
Definition in_floats (device : ModbusDeviceConfig) (raw : Q) : bool :=
  is_float raw && is_float (scale device) && is_float (offset device) &&
  finite (raw * scale device) &&
  finite (b64 (raw * scale device) + offset device).

(** A device with other limits: [dataclasses.replace(device, min_value=lo,
    max_value=hi)]. *)
Definition with_limits (lo hi : Q) (device : ModbusDeviceConfig) : ModbusDeviceConfig :=
  {| name := name device; address := address device;
     register := register device; register_type := register_type device;
     unit_label := unit_label device; scale := scale device;
     offset := offset device; description := description device;
     min_value := lo; max_value := hi;
     warning_threshold := warning_threshold device;
     alarm_threshold := alarm_threshold device |}.

(** ** Vocabulary of the properties *)

(** What [disconnect] does on the line: it closes the port of the instrument
    the client holds, if it holds one. *)
Definition closing (c : Client) : list Event :=
  match instrument c with
  | Some _ => [EvClose]
  | None => []
  end.

(** The probes of [connect] over a list of candidate addresses, as the line
    sees them at timeout [t]: the candidates are tried in order, each miss is
    followed by the next candidate, and the first valid answer ends the
    sequence. *)
Inductive probed (t : Q) : list Z -> list Event -> bool -> Prop :=
| probed_exhausted : probed t [] [] false
| probed_hit a rest v :
    probed t (a :: rest) [EvCall a t (ReadRegister 0 4 0) (Value v)] true
| probed_miss a rest e evs found :
    probed t rest evs found ->
    probed t (a :: rest) (EvCall a t (ReadRegister 0 4 0) (Error e) :: evs) found.

(** The serial timeout in force at a transaction the line has seen. *)
Definition at_timeout (t : Q) (e : Event) : Prop :=
  match e with
  | EvCall _ tmo _ _ => tmo = t
  | _ => True
  end.

(** The answers after which [scan_devices] lists the address: a value, and
    [InvalidResponseError]. *)
Definition responded (rp : Reply) : bool :=
  match rp with
  | Value _ => true
  | Error InvalidResponseError => true
  | Error _ => false
  end.

(** The sweep of [scan_devices] over a list of addresses, as the line sees it
    at timeout [t], with the addresses it collects: every address is probed,
    in order, whatever the earlier answers were. *)
Inductive swept (t : Q) : list Z -> list Event -> list Z -> Prop :=
| swept_done : swept t [] [] []
| swept_probe a rest rp evs found :
    swept t rest evs found ->
    swept t (a :: rest) (EvCall a t (ReadRegister 0 4 0) rp :: evs)
      (if responded rp then a :: found else found).

(** The member a [register_type] argument is or converts to, if any. *)
Definition member_of (register_type : RegisterTypeArg) : option RegisterType :=
  match register_type with
  | Enum member => Some member
  | Raw 1 => Some COIL
  | Raw 2 => Some DISCRETE_INPUT
  | Raw 3 => Some HOLDING_REGISTER
  | Raw 4 => Some INPUT_REGISTER
  | Raw _ => None
  end.

(** The transaction a read or a write of a register type makes. *)
Definition read_request (register_type : RegisterType) (register decimals : Z) : Request :=
  match register_type with
  | COIL => ReadBit register 1
  | DISCRETE_INPUT => ReadBit register 2
  | HOLDING_REGISTER => ReadRegister register 3 decimals
  | INPUT_REGISTER => ReadRegister register 4 decimals
  end.

Definition write_request (register_type : RegisterType) (register value : Z) : option Request :=
  match register_type with
  | COIL => Some (WriteBit register (negb (value =? 0)) 5)
  | HOLDING_REGISTER => Some (WriteRegister register value 6)
  | DISCRETE_INPUT | INPUT_REGISTER => None
  end.

(** The answers after which [read_register] and [write_register] leave
    [self.connected] as it was: a value, and [InvalidResponseError]. *)
Definition keeps_connection (rp : Reply) : bool :=
  match rp with
  | Value _ => true
  | Error InvalidResponseError => true
  | Error _ => false
  end.

Definition after_reply (rp : Reply) (c : Client) : Client :=
  if keeps_connection rp then c else with_connected false c.

(** The keyword argument [read_device] passes to [read_register]. *)
Definition decimals_of (rt : RegisterType) : Z :=
  match rt with
  | INPUT_REGISTER | HOLDING_REGISTER => 2
  | _ => 0
  end.

(** A poll of a list of registered devices: the devices are read one after
    the other, each once, and the reading of a device holds what
    [read_device] returned for it at its turn. *)
Inductive polled (tr : Transport) :
  State -> list (Z * ModbusDeviceConfig) -> list (Z * Reading) -> State -> Prop :=
| polled_done st : polled tr st [] [] st
| polled_device st addr device value st1 rest rs st' :
    read_device tr device st = (Ret value, st1) ->
    polled tr st1 rest rs st' ->
    polled tr st ((addr, device) :: rest)
      ((addr, {| reading_name := name device;
                 reading_value := value;
                 reading_unit := unit_label device;
                 reading_status := match value with
                                   | Some v => _get_status device v
                                   | None => erro
                                   end;
                 reading_timestamp := strftime tr (log st1) |}) :: rs)
      st'.

(** The states a client goes through when it is driven by its methods only,
    from its construction on. *)
Inductive reachable (tr : Transport) : State -> Prop :=
| reach_init p b t : reachable tr {| client := init p b t; log := [] |}
| reach_connect st :
    reachable tr st -> reachable tr (snd (connect tr st))
| reach_disconnect st :
    reachable tr st -> reachable tr (snd (disconnect st))
| reach_add_device st device :
    reachable tr st -> reachable tr (snd (add_device device st))
| reach_read_register st a r rt d :
    reachable tr st -> reachable tr (snd (read_register tr a r rt d st))
| reach_write_register st a r v rt :
    reachable tr st -> reachable tr (snd (write_register tr a r v rt st))
| reach_read_device st device :
    reachable tr st -> reachable tr (snd (read_device tr device st))
| reach_read_all_devices st :
    reachable tr st -> reachable tr (snd (read_all_devices tr st))
| reach_scan_devices st s e :
    reachable tr st -> reachable tr (snd (scan_devices tr s e st)).

(** Between two calls the serial timeout is the 1.0 that [connect] sets. *)
Definition at_rest (st : State) : Prop :=
  forall i, instrument (client st) = Some i -> serial_timeout i = 1%Q.

(** ** Example inputs *)

(** A line whose port opens and on which no device answers. *)
Definition silent_line : Transport :=
  {| opens := fun _ => true;
     reply := fun _ _ _ _ => Error NoResponseError;
     strftime := fun _ => "2024-01-01 00:00:00"%string |}.

(** A line on which every answer is malformed. *)
Definition garbled_line : Transport :=
  {| opens := fun _ => true;
     reply := fun _ _ _ _ => Error InvalidResponseError;
     strftime := fun _ => "2024-01-01 00:00:00"%string |}.

(** A line whose port cannot be opened. *)
Definition dead_port : Transport :=
  {| opens := fun _ => false;
     reply := fun _ _ _ _ => Error NoResponseError;
     strftime := fun _ => "2024-01-01 00:00:00"%string |}.

(** A line on which address 3 answers with a valid frame, address 7 with a
    malformed one and no other address answers. *)
Definition link_3_7 : Transport :=
  {| opens := fun _ => true;
     reply := fun _ slave _ _ =>
                if slave =? 3 then Value 42
                else if slave =? 7 then Error InvalidResponseError
                else Error NoResponseError;
     strftime := fun _ => "2024-01-01 00:00:00"%string |}.

(** A line on which every read answers 250. *)
Definition line_250 : Transport :=
  {| opens := fun _ => true;
     reply := fun _ _ _ _ => Value 250;
     strftime := fun _ => "2024-01-01 00:00:00"%string |}.

(** A line on which every read answers the float [v]. *)
Definition steady_line (v : Q) : Transport :=
  {| opens := fun _ => true;
     reply := fun _ _ _ _ => Value v;
     strftime := fun _ => "2024-01-01 00:00:00"%string |}.

(** A client just constructed, and a client connected on an open port (with
    the serial timeout [t] in force). *)
Definition fresh : State :=
  {| client := init "COM3" 9600 1; log := [] |}.

Definition online_at (t : Q) : State :=
  {| client := {| port := "COM3"; baudrate := 9600; timeout := 1;
                  instrument := Some {| slave_address := 1;
                                        serial_baudrate := 9600;
                                        serial_timeout := t;
                                        serial_is_open := true |};
                  connected := true; devices := [] |};
     log := [] |}.

Definition online : State := online_at 1.

(** The device of the module's example of use: thresholds 70 and 90. *)
Definition sensor1 : ModbusDeviceConfig :=
  {| name := "Sensor 1"; address := 1; register := 0;
     register_type := INPUT_REGISTER; unit_label := "ppm";
     scale := b64 (1 # 10); offset := 0; description := "";
     min_value := 0; max_value := 100;
     warning_threshold := 70; alarm_threshold := 90 |}.

(** A device with the defaults of the dataclass. *)
Definition plain_device (a : Z) : ModbusDeviceConfig :=
  {| name := "Sensor"; address := a; register := 0;
     register_type := INPUT_REGISTER; unit_label := "ppm";
     scale := 1; offset := 0; description := "";
     min_value := 0; max_value := 100;
     warning_threshold := 70; alarm_threshold := 90 |}.

(** A client, not yet connected, with three registered devices. *)
Definition three_devices : State :=
  {| client := with_devices
                 (dict_set 3 (plain_device 3)
                    (dict_set 2 (plain_device 2)
                       (dict_set 1 (plain_device 1) [])))
                 (init "COM3" 9600 1);
     log := [] |}.

(** ** The registry as a dict, and the callers of the client

    The rest of this part embeds what the pages of the application do with
    the client (src/src/gui/pages/dashboard.py), as far as it is free of the
    user interface. *)

(** [d.get(k)] on a dict with integer keys. *)
Definition dict_get {V : Type} (k : Z) (d : list (Z * V)) : option V :=
  option_map snd (find (fun kv => k =? fst kv) d).

(** The 9-tuple [_identify_device_type] returns: name, register, register
    type, unit, scale, minimum, maximum, warning threshold, alarm
    threshold. *)
Record DeviceParams : Type := mkParams {
  param_name : string;
  param_register : Z;
  param_register_type : RegisterType;
  param_unit : string;
  param_scale : Q;
  param_min : Q;
  param_max : Q;
  param_warn : Q;
  param_alarm : Q
}.

(** The dict [device_types] of [_identify_device_type]: each key is a
    [range(start, stop)], written as the pair of its bounds. *)
Definition device_types : list ((Z * Z) * DeviceParams) :=
  [ ((1, 11),  mkParams "Amônia" 0 INPUT_REGISTER "ppm" (b64 (1 # 10)) 0 100 70 90);
    ((11, 21), mkParams "Temperatura" 0 INPUT_REGISTER "°C" (b64 (1 # 10)) (-10) 50 35 40);
    ((21, 31), mkParams "Umidade" 0 INPUT_REGISTER "%" (b64 (1 # 10)) 0 100 70 90);
    ((31, 41), mkParams "Pressão" 0 INPUT_REGISTER "hPa" (b64 (1 # 10)) 800 1200 1100 1150);
    ((41, 51), mkParams "CO₂" 0 INPUT_REGISTER "ppm" 1 0 5000 1000 2000);
    ((51, 61), mkParams "Oxigênio" 0 INPUT_REGISTER "%" (b64 (1 # 10)) 0 25 23 24) ].

(** [x in range(start, stop)] *)
Definition in_range (x : Z) (r : Z * Z) : bool :=
  (fst r <=? x) && (x <? snd r).

(** [str(n)] for an integer. *)
Definition str_int (n : Z) : string := NilZero.string_of_int (Z.to_int n).

(** [Dashboard._identify_device_type].  Every entry of [device_types] holds a
    [RegisterType], so the conversion of the register type does not arise. *)
Definition _identify_device_type (address : Z) : DeviceParams :=
  let address := if (address <? 1) || (247 <? address) then 0 else address in
  match find (fun entry => in_range address (fst entry)) device_types with
  | Some (_, params) => params
  | None =>
      mkParams ("Sensor " ++ str_int address) 0 INPUT_REGISTER "un" 1 0 100 70 90
  end.

(** [max(a, b)] and [min(a, b)] of Python on two numbers: the second argument
    is returned only when it is strictly greater (smaller). *)
Definition py_max (a b : Q) : Q := if Qle_bool b a then a else b.

Definition py_min (a b : Q) : Q := if Qle_bool a b then a else b.

(** The value [Dashboard.update_sensor_data] shows and stores for a value
    [read_device] returned:
    [value = max(device.min_value, min(value, device.max_value))]. *)
Definition limited_value (device : ModbusDeviceConfig) (value : Q) : Q :=
  py_max (min_value device) (py_min value (max_value device)).

(** The attributes of the page that [initialize_modbus_devices] uses: the
    client ([None] when there is none) and the dict [modbus_devices] ([None]
    when the attribute is not set), with the line of the client. *)
Record Dashboard : Type := mkDashboard {
  modbus_client : option Client;
  modbus_devices : option (list (string * ModbusDeviceConfig));
  line : list Event
}.

(** [d[k] = v] on a dict with string keys. *)
Fixpoint str_dict_set {V : Type} (k : string) (v : V) (d : list (string * V))
    : list (string * V) :=
  match d with
  | [] => [(k, v)]
  | (k', v') :: rest =>
      if String.eqb k k' then (k, v) :: rest else (k', v') :: str_dict_set k v rest
  end.

(** A method of the client called on [self.modbus_client]. *)
Definition on_client {A : Type} (m : M A) (d : Dashboard) : option (Result A * Dashboard) :=
  match modbus_client d with
  | Some c =>
      let '(r, st) := m {| client := c; log := line d |} in
      Some (r, {| modbus_client := Some (client st);
                  modbus_devices := modbus_devices d;
                  line := log st |})
  | None => None
  end.

(** The one entry of [sensor_configs] in [initialize_modbus_devices], as the
    [ModbusDeviceConfig] built from it, with its [id]. *)
Definition sensor_configs : list (string * ModbusDeviceConfig) :=
  [ ("sensor_1"%string,
     {| name := "Sensor de Amônia"; address := 2; register := 0;
        register_type := INPUT_REGISTER; unit_label := "ppm";
        scale := b64 (1 # 10); offset := 0;
        description := "Sensor de concentração de amônia";
        min_value := 0; max_value := 100;
        warning_threshold := 70; alarm_threshold := 90 |}) ].

(** The loop of [initialize_modbus_devices] over [sensor_configs]: an
    exception in the body (a client or a dict that is not there) is logged
    and the loop goes on. *)
Fixpoint configure_each (configs : list (string * ModbusDeviceConfig))
    (d : Dashboard) : Dashboard :=
  match configs with
  | [] => d
  | (id, device) :: rest =>
      match on_client (add_device device) d with
      | Some (Ret _, d') =>
          match modbus_devices d' with
          | Some ds =>
              configure_each rest
                {| modbus_client := modbus_client d';
                   modbus_devices := Some (str_dict_set id device ds);
                   line := line d' |}
          | None => configure_each rest d'
          end
      | Some (Raise _, d') => configure_each rest d'
      | None => configure_each rest d
      end
  end.

(** [Dashboard.initialize_modbus_devices]: [Some true] and [Some false] are
    the two [return] statements; [None] is the end of the body, which returns
    nothing. *)
Definition initialize_modbus_devices (d : Dashboard) : option bool * Dashboard :=
  match modbus_client d with
  | None => (Some false, d)
  | Some c =>
      if negb (connected c) then (Some false, d)
      else
        match modbus_devices d with
        | Some (_ :: _) => (Some true, d)
        | _ =>
            (None,
             configure_each sensor_configs
               {| modbus_client := modbus_client d;
                  modbus_devices := Some [];
                  line := line d |})
        end
  end.

(** ** A simulated device

    A line on which the holding registers of the slaves 1 to 247 keep what
    was written to them.  A register holds 16 bits: the instrument refuses,
    with [ValueError] and before it sends anything, a register number or a
    value to write outside 0..65535, and a number of decimals outside 0..10.
    Otherwise a write of a holding register succeeds, and a read of a holding
    register answers the value of the latest successful write to that
    register of that slave, divided by ten to the number of decimals asked
    for, or does not answer when there was none.  No other slave and no
    other kind of request is answered. *)
Definition uint16 (x : Z) : bool := (0 <=? x) && (x <=? 65535).

Fixpoint last_written (slave reg : Z) (history : list Event) : option Z :=
  match history with
  | [] => None
  | ev :: rest =>
      match last_written slave reg rest with
      | Some v => Some v
      | None =>
          match ev with
          | EvCall s _ (WriteRegister r v 6) (Value _) =>
              if (s =? slave) && (r =? reg) then Some v else None
          | _ => None
          end
      end
  end.

Definition echo_device : Transport :=
  {| opens := fun _ => true;
     reply := fun history slave _ rq =>
                if negb ((1 <=? slave) && (slave <=? 247))
                then Error NoResponseError
                else
                  match rq with
                  | WriteRegister reg value 6 =>
                      if uint16 reg && uint16 value then Value 0
                      else Error ValueError
                  | ReadRegister reg 3 decimals =>
                      if uint16 reg && (0 <=? decimals) && (decimals <=? 10)
                      then match last_written slave reg history with
                           | Some v => Value (b64 (v # Z.to_pos (10 ^ decimals)))
                           | None => Error NoResponseError
                           end
                      else Error ValueError
                  | _ => Error NoResponseError
                  end;
     strftime := fun _ => "2024-01-01 00:00:00"%string |}.

(** ** Invariants of the states the methods produce *)

(** A client flagged connected holds an instrument whose port is open. *)
Definition linked (st : State) : Prop :=
  connected (client st) = true ->
  exists i, instrument (client st) = Some i /\ serial_is_open i = true.

(** The registry has one entry per address, and files each device under its
    own address. *)
Definition registry_ok (st : State) : Prop :=
  NoDup (map fst (devices (client st))) /\
  Forall (fun kv => fst kv = address (snd kv)) (devices (client st)).

(** The calls among the events of the line. *)
Definition is_call (e : Event) : bool :=
  match e with
  | EvCall _ _ _ _ => true
  | _ => false
  end.

(** * Properties *)

(** ** The alert classifier *)

Section Classifier.

Variable device : ModbusDeviceConfig.

Lemma get_status_alarme (v : Q) :
  (alarm_threshold device <= v)%Q -> _get_status device v = alarme.
Proof.
  intros H. unfold _get_status.
  apply Qle_bool_iff in H. now rewrite H.
Qed.

Lemma Qle_bool_false (a b : Q) : ~ (a <= b)%Q -> Qle_bool a b = false.
Proof.
  intros H. destruct (Qle_bool a b) eqn:E; [|reflexivity].
  apply Qle_bool_iff in E. contradiction.
Qed.

Lemma get_status_alerta (v : Q) :
  ~ (alarm_threshold device <= v)%Q -> (warning_threshold device <= v)%Q ->
  _get_status device v = alerta.
Proof.
  intros Ha Hw. unfold _get_status.
  rewrite (Qle_bool_false _ _ Ha).
  apply Qle_bool_iff in Hw. now rewrite Hw.
Qed.

Lemma get_status_normal (v : Q) :
  ~ (alarm_threshold device <= v)%Q -> ~ (warning_threshold device <= v)%Q ->
  _get_status device v = normal.
Proof.
  intros Ha Hw. unfold _get_status.
  now rewrite (Qle_bool_false _ _ Ha), (Qle_bool_false _ _ Hw).
Qed.

Lemma get_status_monotone (v1 v2 : Q) :
  (v1 <= v2)%Q ->
  (severity (_get_status device v1) <= severity (_get_status device v2))%nat.
Proof.
  intros Hv. unfold _get_status.
  destruct (Qle_bool (alarm_threshold device) v1) eqn:A1.
  - apply Qle_bool_iff in A1.
    assert (A2 : (alarm_threshold device <= v2)%Q) by (eapply Qle_trans; eauto).
    apply Qle_bool_iff in A2. rewrite A2. apply Nat.le_refl.
  - destruct (Qle_bool (warning_threshold device) v1) eqn:W1.
    + apply Qle_bool_iff in W1.
      assert (W2 : (warning_threshold device <= v2)%Q) by (eapply Qle_trans; eauto).
      apply Qle_bool_iff in W2. rewrite W2.
      destruct (Qle_bool (alarm_threshold device) v2); simpl; lia.
    + simpl. lia.
Qed.

End Classifier.

(** C1.  [_get_status] returns [alarme] when the value is at least the alarm
    threshold, otherwise [alerta] when it is at least the warning threshold,
    otherwise [normal]; the alarm threshold itself is classified [alarme]; and
    for a fixed device the severity of the result never decreases as the
    value grows. *)
Theorem C1_get_status_thresholds (device : ModbusDeviceConfig) :
  (forall v, (alarm_threshold device <= v)%Q -> _get_status device v = alarme) /\
  (forall v, ~ (alarm_threshold device <= v)%Q ->
             (warning_threshold device <= v)%Q ->
             _get_status device v = alerta) /\
  (forall v, ~ (alarm_threshold device <= v)%Q ->
             ~ (warning_threshold device <= v)%Q ->
             _get_status device v = normal) /\
  _get_status device (alarm_threshold device) = alarme /\
  (forall v1 v2, (v1 <= v2)%Q ->
     (severity (_get_status device v1) <= severity (_get_status device v2))%nat).
Proof.
  repeat split.
  - apply get_status_alarme.
  - apply get_status_alerta.
  - apply get_status_normal.
  - apply get_status_alarme, Qle_refl.
  - apply get_status_monotone.
Qed.

Lemma C1_witness :
  _get_status sensor1 95 = alarme /\
  _get_status sensor1 70 = alerta /\
  _get_status sensor1 (139 # 2) = normal /\
  (severity (_get_status sensor1 10) <= severity (_get_status sensor1 80))%nat.
Proof.
  destruct (C1_get_status_thresholds sensor1) as (Ha & Hw & Hn & _ & Hm).
  split; [apply Ha; vm_compute; discriminate|].
  split; [apply Hw; vm_compute; [intros H; now apply H | discriminate]|].
  split; [apply Hn; vm_compute; intros H; now apply H|].
  apply Hm. vm_compute. discriminate.
Defined.

(** ** Running the methods *)

Lemma probed_at_timeout (t : Q) (addrs : list Z) (evs : list Event) (found : bool) :
  probed t addrs evs found -> Forall (at_timeout t) evs.
Proof.
  induction 1; repeat constructor; auto.
Qed.

Lemma swept_at_timeout (t : Q) (addrs : list Z) (evs : list Event) (found : list Z) :
  swept t addrs evs found -> Forall (at_timeout t) evs.
Proof.
  induction 1; repeat constructor; auto.
Qed.

Lemma swept_found_in (t : Q) (addrs : list Z) (evs : list Event) (found : list Z) :
  swept t addrs evs found -> forall a, In a found -> In a addrs.
Proof.
  induction 1 as [|a rest rp evs found _ IH]; intros x Hx; [contradiction|].
  destruct (responded rp); cbn in *; intuition.
Qed.

Lemma swept_call_in (t : Q) (addrs : list Z) (evs : list Event) (found : list Z) :
  swept t addrs evs found ->
  forall a t' rq rp, In (EvCall a t' rq rp) evs -> In a addrs.
Proof.
  induction 1 as [|a rest rp evs found _ IH]; intros x t' rq' rp' Hx;
    [contradiction|].
  destruct Hx as [E|Hx]; [inversion E; subst; now left|].
  right. eapply IH; eauto.
Qed.

Lemma swept_probes (t : Q) (addrs : list Z) (evs : list Event) (found : list Z) :
  swept t addrs evs found ->
  Forall2 (fun a e => exists rp, e = EvCall a t (ReadRegister 0 4 0) rp) addrs evs.
Proof.
  induction 1; constructor; eauto.
Qed.

Lemma swept_classified (t : Q) (addrs : list Z) (evs : list Event) (found : list Z) :
  swept t addrs evs found -> NoDup addrs ->
  forall a rp, In (EvCall a t (ReadRegister 0 4 0) rp) evs ->
               (In a found <-> responded rp = true).
Proof.
  induction 1 as [|a rest rp evs found Hs IH]; intros Hnd x rp' Hx;
    [contradiction|].
  inversion Hnd as [|? ? Hnotin Hnd']; subst.
  destruct Hx as [E|Hx].
  - inversion E; subst. destruct (responded rp') eqn:R.
    + split; auto. intros _. now left.
    + split; [|discriminate]. intros Hin. exfalso. apply Hnotin.
      eapply swept_found_in; eauto.
  - assert (x <> a).
    { intros ->. apply Hnotin. eapply swept_call_in; eauto. }
    rewrite <- (IH Hnd' x rp' Hx).
    destruct (responded rp); cbn; intuition congruence.
Qed.

Lemma swept_sorted (t : Q) (addrs : list Z) (evs : list Event) (found : list Z) :
  swept t addrs evs found ->
  StronglySorted Z.lt addrs -> StronglySorted Z.lt found.
Proof.
  induction 1 as [|a rest rp evs found Hs IH]; intros Hsorted; [constructor|].
  inversion Hsorted as [|? ? Hrest Hall]; subst.
  destruct (responded rp); [|auto].
  constructor; [auto|].
  rewrite Forall_forall in *. intros x Hx. apply Hall.
  eapply swept_found_in; eauto.
Qed.

Lemma sorted_lt_NoDup (l : list Z) : StronglySorted Z.lt l -> NoDup l.
Proof.
  induction 1 as [|a l _ IH Hall]; constructor; auto.
  intros Hin. rewrite Forall_forall in Hall. specialize (Hall a Hin). lia.
Qed.

Lemma py_range_in (start stop a : Z) :
  In a (py_range start stop) <-> start <= a < stop.
Proof.
  unfold py_range. rewrite in_map_iff. split.
  - intros (k & <- & Hk). apply in_seq in Hk. lia.
  - intros H. exists (Z.to_nat (a - start)). split; [lia|].
    apply in_seq. lia.
Qed.

Lemma py_range_sorted (start stop : Z) : StronglySorted Z.lt (py_range start stop).
Proof.
  unfold py_range. generalize (Z.to_nat (stop - start)) as n. intros n.
  generalize 0%nat as k. induction n as [|n IH]; intros k; cbn; constructor.
  - apply IH.
  - apply Forall_forall. intros x Hx. apply in_map_iff in Hx.
    destruct Hx as (j & <- & Hj). apply in_seq in Hj. lia.
Qed.

Ltac run :=
  unfold set_address, set_serial_timeout, set_connected, set_instrument,
    set_devices, the_instrument, restore_timeout, get_self, put_self, emit,
    try_finally, try_except, bind, ret, raise in *;
  cbn -[probe sweep read_each] in *.

Section Runs.

Variable tr : Transport.

Lemma bind_run {A B} (m : M A) (k : A -> M B) (s s' : State) (a : A) :
  m s = (Ret a, s') -> bind m k s = k a s'.
Proof.
  intros H. unfold bind. now rewrite H.
Qed.

Lemma call_run (rq : Request) (c : Client) (l : list Event) (i : Instrument) :
  instrument c = Some i ->
  call tr rq {| client := c; log := l |} =
  (match reply tr l (slave_address i) (serial_timeout i) rq with
   | Value v => Ret v
   | Error e => Raise e
   end,
   {| client := c;
      log := l ++ [EvCall (slave_address i) (serial_timeout i) rq
                     (reply tr l (slave_address i) (serial_timeout i) rq)] |}).
Proof.
  intros Hi. unfold call. run. rewrite Hi. cbn.
  destruct (reply tr l (slave_address i) (serial_timeout i) rq); reflexivity.
Qed.

Lemma probe_run (addrs : list Z) :
  forall (st : State) (i : Instrument),
    instrument (client st) = Some i ->
    exists found st' i' evs,
      probe tr addrs st = (Ret found, st') /\
      instrument (client st') = Some i' /\
      serial_timeout i' = serial_timeout i /\
      devices (client st') = devices (client st) /\
      connected (client st') = (if found then true else connected (client st)) /\
      log st' = log st ++ evs /\
      probed (serial_timeout i) addrs evs found.
Proof.
  induction addrs as [|a rest IH]; intros [c l] i Hi; cbn in Hi.
  - exists false, {| client := c; log := l |}, i, [].
    cbn. rewrite app_nil_r. repeat split; auto. constructor.
  - cbn [probe]. unfold bind at 1. unfold try_except.
    unfold bind at 1. unfold set_address at 1. run. rewrite Hi.
    rewrite (call_run _ _ _ (with_address a i)) by reflexivity. cbn.
    destruct (reply tr l a (serial_timeout i) (ReadRegister 0 4 0)) as [v|e] eqn:R.
    + eexists true, _, _, _. split; [reflexivity|]. cbn.
      repeat split; try reflexivity. constructor.
    + destruct (IH {| client := with_instrument (Some (with_address a i)) c;
                      log := l ++ [EvCall a (serial_timeout i) (ReadRegister 0 4 0) (Error e)] |}
                   (with_address a i) eq_refl)
        as (found & st' & i' & evs & Hrun & Hi' & Ht & Hd & Hc & Hl & Hp).
      cbn in *. rewrite Hrun.
      exists found, st', i', (EvCall a (serial_timeout i) (ReadRegister 0 4 0) (Error e) :: evs).
      repeat split; auto.
      * rewrite Hl, <- app_assoc. reflexivity.
      * now constructor.
Qed.

Lemma connect_already (st : State) (i : Instrument) :
  connected (client st) = true -> instrument (client st) = Some i ->
  connect tr st = (Ret true, st).
Proof.
  intros Hc Hi. unfold connect. run. now rewrite Hc, Hi.
Qed.

Lemma connect_run (st : State) :
  connected (client st) = false \/ instrument (client st) = None ->
  let opened := opens tr (log st ++ closing (client st)) in
  exists st' probes,
    connect tr st = (Ret opened, st') /\
    log st' = log st ++ closing (client st) ++ EvOpen opened :: probes /\
    connected (client st') = opened /\
    devices (client st') = devices (client st) /\
    if opened
    then (exists i', instrument (client st') = Some i' /\ serial_timeout i' = 1%Q) /\
         exists found, probed 1 test_addresses probes found
    else probes = [] /\
         instrument (client st') =
         option_map (with_is_open false) (instrument (client st)).
Proof.
  intros H. destruct st as [[p b t oi cn d] l]. cbn in H.
  assert (E : connect tr {| client := mkClient p b t oi cn d; log := l |} =
              try_except
                (disconnect ;;
                 new_instrument tr ;;
                 found <- probe tr test_addresses ;;
                 if found then ret true else (set_connected true ;; ret true))
                (fun _ => set_connected false ;; ret false)
                {| client := mkClient p b t oi cn d; log := l |}).
  { unfold connect. unfold bind at 1. unfold get_self. cbn.
    destruct H as [-> | ->]; [reflexivity | now destruct cn]. }
  rewrite E. clear E H. unfold closing. cbn [client log instrument].
  destruct oi as [i0|].
  - unfold disconnect, new_instrument. run.
    destruct (opens tr (l ++ [EvClose])) eqn:O; cbn -[probe].
    + edestruct (probe_run test_addresses) as
        (found & st' & i' & evs & Hrun & Hi' & Ht & Hd & Hc & Hl & Hp);
        [ | rewrite Hrun ]; [cbn; reflexivity|].
      cbn in Ht, Hd, Hc, Hl, Hp.
      destruct found; destruct st' as [c' l']; cbn -[probe] in *.
      * eexists _, evs. split; [reflexivity|]. cbn.
        rewrite Hl. repeat rewrite <- app_assoc. cbn. repeat split; eauto.
      * eexists _, evs. split; [reflexivity|]. cbn.
        rewrite Hl. repeat rewrite <- app_assoc. cbn. repeat split; eauto.
    + eexists _, []. split; [reflexivity|]. cbn.
      rewrite <- app_assoc. repeat split; reflexivity.
  - unfold disconnect, new_instrument. run. rewrite app_nil_r.
    destruct (opens tr l) eqn:O; cbn -[probe].
    + edestruct (probe_run test_addresses) as
        (found & st' & i' & evs & Hrun & Hi' & Ht & Hd & Hc & Hl & Hp);
        [ | rewrite Hrun ]; [cbn; reflexivity|].
      cbn in Ht, Hd, Hc, Hl, Hp.
      destruct found; destruct st' as [c' l']; cbn -[probe] in *.
      * eexists _, evs. split; [reflexivity|]. cbn.
        rewrite Hl. repeat rewrite <- app_assoc. cbn. repeat split; eauto.
      * eexists _, evs. split; [reflexivity|]. cbn.
        rewrite Hl. repeat rewrite <- app_assoc. cbn. repeat split; eauto.
    + eexists _, []. split; [reflexivity|]. cbn.
      repeat split; reflexivity.
Qed.

Lemma read_register_connected (c : Client) (l : list Event) (i : Instrument)
    (a r : Z) (rt : RegisterType) (d : Z) :
  connected c = true -> instrument c = Some i ->
  let rq := read_request rt r d in
  let rp := reply tr l a 1 rq in
  read_register tr a r rt d {| client := c; log := l |} =
  (Ret (match rp with Value v => Some v | Error _ => None end),
   {| client := after_reply rp (with_instrument (Some (with_address a i)) c);
      log := l ++ [EvCall a 1 rq rp] |}).
Proof.
  intros Hc Hi. destruct c as [p b t oi cn ds]. cbn in Hc, Hi. subst.
  unfold read_register, ensure_connected, after_reply. run.
  destruct rt; unfold call; run;
    match goal with |- context [reply tr l a 1 ?rq] =>
      destruct (reply tr l a 1 rq) as [v|[]] end; reflexivity.
Qed.

Lemma write_register_connected (c : Client) (l : list Event) (i : Instrument)
    (a r v : Z) (rt : RegisterType) :
  connected c = true -> instrument c = Some i ->
  write_register tr a r v rt {| client := c; log := l |} =
  match write_request rt r v with
  | Some rq =>
      let rp := reply tr l a 1 rq in
      (Ret (match rp with Value _ => true | Error _ => false end),
       {| client := after_reply rp (with_instrument (Some (with_address a i)) c);
          log := l ++ [EvCall a 1 rq rp] |})
  | None =>
      (Ret false,
       {| client := with_instrument (Some (with_address a i)) c; log := l |})
  end.
Proof.
  intros Hc Hi. destruct c as [p b t oi cn ds]. cbn in Hc, Hi. subst.
  unfold write_register, ensure_connected, after_reply. run.
  destruct rt; unfold call; run; try reflexivity;
    match goal with |- context [reply tr l a 1 ?rq] =>
      destruct (reply tr l a 1 rq) as [?|[]] end; reflexivity.
Qed.

Lemma ensure_connected_already (st : State) (i : Instrument) :
  connected (client st) = true -> instrument (client st) = Some i ->
  ensure_connected tr st = (Ret true, st).
Proof.
  intros Hc Hi. unfold ensure_connected. run. now rewrite Hc, Hi.
Qed.

Lemma ensure_connected_connects (st : State) :
  connected (client st) = false \/ instrument (client st) = None ->
  ensure_connected tr st = connect tr st.
Proof.
  intros H. unfold ensure_connected, bind, get_self. cbv beta iota.
  destruct H as [-> | ->]; [reflexivity | now destruct (connected (client st))].
Qed.

(** The guard of [read_register] and [write_register] from any state: it
    returns, and when it returns [True] the client is connected and holds an
    instrument. *)
Lemma ensure_connected_run (st : State) :
  exists b st1 evs,
    ensure_connected tr st = (Ret b, st1) /\
    log st1 = log st ++ evs /\
    Forall (at_timeout 1) evs /\
    connected (client st1) = b /\
    devices (client st1) = devices (client st) /\
    if b
    then exists i1,
           instrument (client st1) = Some i1 /\
           forall i, instrument (client st) = Some i ->
                     connected (client st) = true \/ serial_timeout i = 1%Q ->
                     serial_timeout i1 = serial_timeout i
    else instrument (client st1) =
           option_map (with_is_open false) (instrument (client st)) /\
         evs = closing (client st) ++ [EvOpen false] /\
         opens tr (log st ++ closing (client st)) = false.
Proof.
  destruct (connected (client st)) eqn:Hc;
    [destruct (instrument (client st)) as [i|] eqn:Hi|].
  - exists true, st, []. rewrite (ensure_connected_already st i Hc Hi).
    rewrite app_nil_r. repeat split; auto.
    exists i. split; [assumption|]. intros i0 E _. now inversion E.
  - rewrite ensure_connected_connects by (right; assumption).
    destruct (connect_run st) as (st' & probes & Hrun & Hl & Hcn & Hd & Hrest);
      [right; assumption|].
    unfold closing in *. rewrite Hi in *. cbn in *. rewrite app_nil_r in *.
    exists (opens tr (log st)), st', (EvOpen (opens tr (log st)) :: probes).
    repeat split; auto.
    + constructor; [exact I|].
      destruct (opens tr (log st)).
      * destruct Hrest as (_ & found & Hp). eapply probed_at_timeout; eauto.
      * destruct Hrest as (-> & _). constructor.
    + destruct (opens tr (log st)) eqn:O.
      * destruct Hrest as ((i' & Hi' & Ht) & _). exists i'. split; [assumption|].
        intros; discriminate.
      * destruct Hrest as (-> & Hi'). auto.
  - rewrite ensure_connected_connects by (left; assumption).
    destruct (connect_run st) as (st' & probes & Hrun & Hl & Hcn & Hd & Hrest);
      [left; exact Hc|].
    cbn zeta in *.
    exists (opens tr (log st ++ closing (client st))), st',
      (closing (client st) ++ EvOpen (opens tr (log st ++ closing (client st))) :: probes).
    repeat split; auto.
    + apply Forall_app. split.
      * unfold closing. destruct (instrument (client st)); repeat constructor.
      * constructor; [exact I|].
        destruct (opens tr (log st ++ closing (client st))).
        -- destruct Hrest as (_ & found & Hp). eapply probed_at_timeout; eauto.
        -- destruct Hrest as (-> & _). constructor.
    + destruct (opens tr (log st ++ closing (client st))) eqn:O.
      * destruct Hrest as ((i' & Hi' & Ht) & _). exists i'. split; [assumption|].
        intros i Hi [Hx|Hx]; [congruence|]. now rewrite Ht, Hx.
      * destruct Hrest as (-> & Hi'). auto.
Qed.

Lemma read_register_guarded (st st1 : State) (b : bool) (a r : Z)
    (rt : RegisterType) (d : Z) :
  ensure_connected tr st = (Ret b, st1) ->
  connected (client st1) = b ->
  (b = true -> exists i1, instrument (client st1) = Some i1) ->
  read_register tr a r rt d st =
  if b then read_register tr a r rt d st1 else (Ret None, st1).
Proof.
  intros Hg Hc Hi. unfold read_register.
  rewrite (bind_run _ _ _ _ _ Hg).
  destruct b; [|reflexivity].
  destruct (Hi eq_refl) as (i1 & Hi1).
  now rewrite (bind_run _ _ _ _ _ (ensure_connected_already st1 i1 Hc Hi1)).
Qed.

Lemma write_register_guarded (st st1 : State) (b : bool) (a r v : Z)
    (rt : RegisterType) :
  ensure_connected tr st = (Ret b, st1) ->
  connected (client st1) = b ->
  (b = true -> exists i1, instrument (client st1) = Some i1) ->
  write_register tr a r v rt st =
  if b then write_register tr a r v rt st1 else (Ret false, st1).
Proof.
  intros Hg Hc Hi. unfold write_register.
  rewrite (bind_run _ _ _ _ _ Hg).
  destruct b; [|reflexivity].
  destruct (Hi eq_refl) as (i1 & Hi1).
  now rewrite (bind_run _ _ _ _ _ (ensure_connected_already st1 i1 Hc Hi1)).
Qed.

(** A [register_type] that is not a member: one that converts behaves as the
    member it converts to; with any other the call ends at the conversion,
    with [ValueError] when the guard has passed. *)
Lemma as_RegisterType_run (arg : RegisterTypeArg) (st : State) :
  as_RegisterType arg st =
  match member_of arg with
  | Some rt => (Ret rt, st)
  | None => (Raise ValueError, st)
  end.
Proof.
  destruct arg as [m|v]; [reflexivity|].
  unfold as_RegisterType, RegisterType_of_value, member_of.
  destruct (Z.eqb_spec v 1) as [->|H1]; [reflexivity|].
  destruct (Z.eqb_spec v 2) as [->|H2]; [reflexivity|].
  destruct (Z.eqb_spec v 3) as [->|H3]; [reflexivity|].
  destruct (Z.eqb_spec v 4) as [->|H4]; [reflexivity|].
  destruct v as [|p|p]; try reflexivity.
  do 3 (try destruct p as [p|p|]); try reflexivity; congruence.
Qed.

Lemma read_register_arg (arg : RegisterTypeArg) (a r d : Z) (st : State) :
  read_register tr a r arg d st =
  match member_of arg with
  | Some rt => read_register tr a r rt d st
  | None =>
      match ensure_connected tr st with
      | (Ret true, st1) => (Raise ValueError, st1)
      | (Ret false, st1) => (Ret None, st1)
      | (Raise e, st1) => (Raise e, st1)
      end
  end.
Proof.
  unfold read_register, bind.
  destruct (ensure_connected tr st) as [[[|]|e] st1]; cbn [negb].
  - rewrite as_RegisterType_run. destruct (member_of arg); reflexivity.
  - destruct (member_of arg); reflexivity.
  - destruct (member_of arg); reflexivity.
Qed.

Lemma write_register_arg (arg : RegisterTypeArg) (a r v : Z) (st : State) :
  write_register tr a r v arg st =
  match member_of arg with
  | Some rt => write_register tr a r v rt st
  | None =>
      match ensure_connected tr st with
      | (Ret true, st1) => (Raise ValueError, st1)
      | (Ret false, st1) => (Ret false, st1)
      | (Raise e, st1) => (Raise e, st1)
      end
  end.
Proof.
  unfold write_register, bind.
  destruct (ensure_connected tr st) as [[[|]|e] st1]; cbn [negb].
  - rewrite as_RegisterType_run. destruct (member_of arg); reflexivity.
  - destruct (member_of arg); reflexivity.
  - destruct (member_of arg); reflexivity.
Qed.

(** Whatever [register_type] is, the state [read_register] and
    [write_register] leave is the one a call with a member leaves, or the one
    the guard leaves. *)
Lemma read_register_arg_state (arg : RegisterTypeArg) (a r d : Z) (st : State) :
  (exists rt : RegisterType,
     snd (read_register tr a r arg d st) = snd (read_register tr a r rt d st)) \/
  snd (read_register tr a r arg d st) = snd (ensure_connected tr st).
Proof.
  rewrite read_register_arg. destruct (member_of arg) as [rt|]; [left; eauto|].
  right. now destruct (ensure_connected tr st) as [[[|]|e] st1].
Qed.

Lemma write_register_arg_state (arg : RegisterTypeArg) (a r v : Z) (st : State) :
  (exists rt : RegisterType,
     snd (write_register tr a r v arg st) = snd (write_register tr a r v rt st)) \/
  snd (write_register tr a r v arg st) = snd (ensure_connected tr st).
Proof.
  rewrite write_register_arg. destruct (member_of arg) as [rt|]; [left; eauto|].
  right. now destruct (ensure_connected tr st) as [[[|]|e] st1].
Qed.

(** [read_register] from any state: it returns; the line sees only calls at
    timeout 1.0; the result is the value of the last transaction, or [None]
    after a failed reconnection or a failed transaction. *)
Lemma read_register_run (st : State) (a r : Z) (rt : RegisterType) (d : Z) :
  exists res st' evs,
    read_register tr a r rt d st = (Ret res, st') /\
    log st' = log st ++ evs /\
    Forall (at_timeout 1) evs /\
    devices (client st') = devices (client st) /\
    (forall i, instrument (client st) = Some i ->
               connected (client st) = true \/ serial_timeout i = 1%Q ->
               exists i', instrument (client st') = Some i' /\
                          serial_timeout i' = serial_timeout i) /\
    match res with
    | Some v =>
        exists evs0,
          evs = evs0 ++ [EvCall a 1 (read_request rt r d) (Value v)] /\
          reply tr (log st ++ evs0) a 1 (read_request rt r d) = Value v /\
          connected (client st') = true
    | None =>
        (evs = closing (client st) ++ [EvOpen false] /\
         opens tr (log st ++ closing (client st)) = false /\
         connected (client st') = false) \/
        (exists evs0 e,
           evs = evs0 ++ [EvCall a 1 (read_request rt r d) (Error e)] /\
           reply tr (log st ++ evs0) a 1 (read_request rt r d) = Error e /\
           connected (client st') = keeps_connection (Error e))
    end.
Proof.
  destruct (ensure_connected_run st)
    as (b & [c1 l1] & evs & Hg & Hl & Hall & Hcn & Hd & Hb).
  cbn in Hl, Hcn, Hd, Hb. destruct b.
  - destruct Hb as (i1 & Hi1 & Ht).
    rewrite (read_register_guarded st _ true a r rt d Hg Hcn
               (fun _ => ex_intro _ i1 Hi1)).
    rewrite (read_register_connected c1 l1 i1 a r rt d Hcn Hi1). cbn zeta.
    set (rq := read_request rt r d). subst l1.
    destruct (reply tr (log st ++ evs) a 1 rq) as [v|e] eqn:R.
    + exists (Some v), {| client := with_instrument (Some (with_address a i1)) c1;
                          log := (log st ++ evs) ++ [EvCall a 1 rq (Value v)] |},
        (evs ++ [EvCall a 1 rq (Value v)]).
      cbn. rewrite app_assoc. repeat split; auto.
      * apply Forall_app. split; [assumption|]. repeat constructor.
      * intros i Hi Hs. eexists. split; [reflexivity|]. cbn. eauto.
      * exists evs. repeat split; auto.
    + eexists None, _, (evs ++ [EvCall a 1 rq (Error e)]).
      split; [reflexivity|]. cbn. rewrite app_assoc. repeat split; auto.
      * apply Forall_app. split; [assumption|]. repeat constructor.
      * unfold after_reply. destruct (keeps_connection (Error e)); cbn; auto.
      * intros i Hi Hs. unfold after_reply.
        destruct (keeps_connection (Error e)); cbn;
          (eexists; split; [reflexivity|]; cbn; eauto).
      * right. exists evs, e. repeat split; auto.
        unfold after_reply. destruct e; cbn; auto.
  - destruct Hb as (Hi1 & -> & Ho).
    rewrite (read_register_guarded st _ false a r rt d Hg Hcn)
      by (intros; discriminate).
    exists None, {| client := c1; log := l1 |}, (closing (client st) ++ [EvOpen false]).
    cbn. repeat split; auto.
    intros i Hi _. rewrite Hi1, Hi. cbn. eauto.
Qed.

Lemma write_register_run (st : State) (a r v : Z) (rt : RegisterType) :
  exists ok st' evs,
    write_register tr a r v rt st = (Ret ok, st') /\
    log st' = log st ++ evs /\
    Forall (at_timeout 1) evs /\
    devices (client st') = devices (client st) /\
    (forall i, instrument (client st) = Some i ->
               connected (client st) = true \/ serial_timeout i = 1%Q ->
               exists i', instrument (client st') = Some i' /\
                          serial_timeout i' = serial_timeout i) /\
    if ok
    then exists rq evs0 x,
           write_request rt r v = Some rq /\
           evs = evs0 ++ [EvCall a 1 rq (Value x)] /\
           reply tr (log st ++ evs0) a 1 rq = Value x /\
           connected (client st') = true
    else (evs = closing (client st) ++ [EvOpen false] /\
          opens tr (log st ++ closing (client st)) = false /\
          connected (client st') = false) \/
         (write_request rt r v = None /\ connected (client st') = true) \/
         (exists rq evs0 e,
            write_request rt r v = Some rq /\
            evs = evs0 ++ [EvCall a 1 rq (Error e)] /\
            reply tr (log st ++ evs0) a 1 rq = Error e /\
            connected (client st') = keeps_connection (Error e)).
Proof.
  destruct (ensure_connected_run st)
    as (b & [c1 l1] & evs & Hg & Hl & Hall & Hcn & Hd & Hb).
  cbn in Hl, Hcn, Hd, Hb. destruct b.
  - destruct Hb as (i1 & Hi1 & Ht).
    rewrite (write_register_guarded st _ true a r v rt Hg Hcn
               (fun _ => ex_intro _ i1 Hi1)).
    rewrite (write_register_connected c1 l1 i1 a r v rt Hcn Hi1).
    subst l1. destruct (write_request rt r v) as [rq|] eqn:W.
    + cbn zeta. destruct (reply tr (log st ++ evs) a 1 rq) as [x|e] eqn:R.
      * eexists true, _, (evs ++ [EvCall a 1 rq (Value x)]).
        split; [reflexivity|]. cbn. rewrite app_assoc. repeat split; auto.
        -- apply Forall_app. split; [assumption|]. repeat constructor.
        -- intros i Hi Hs. eexists. split; [reflexivity|]. cbn. eauto.
        -- exists rq, evs, x. repeat split; auto.
      * eexists false, _, (evs ++ [EvCall a 1 rq (Error e)]).
        split; [reflexivity|]. cbn. rewrite app_assoc. repeat split; auto.
        -- apply Forall_app. split; [assumption|]. repeat constructor.
        -- unfold after_reply. destruct (keeps_connection (Error e)); cbn; auto.
        -- intros i Hi Hs. unfold after_reply.
           destruct (keeps_connection (Error e)); cbn;
             (eexists; split; [reflexivity|]; cbn; eauto).
        -- right. right. exists rq, evs, e. repeat split; auto.
           unfold after_reply. destruct e; cbn; auto.
    + eexists false, _, evs. split; [reflexivity|]. cbn. repeat split; auto.
      intros i Hi Hs. eexists. split; [reflexivity|]. cbn. eauto.
  - destruct Hb as (Hi1 & -> & Ho).
    rewrite (write_register_guarded st _ false a r v rt Hg Hcn)
      by (intros; discriminate).
    exists false, {| client := c1; log := l1 |}, (closing (client st) ++ [EvOpen false]).
    cbn. repeat split; auto.
    intros i Hi _. rewrite Hi1, Hi. cbn. eauto.
Qed.

(** The guard alone, as the calls that end at the conversion leave it. *)
Lemma ensure_connected_frame (st : State) :
  exists b st1 evs,
    ensure_connected tr st = (Ret b, st1) /\
    log st1 = log st ++ evs /\
    Forall (at_timeout 1) evs /\
    devices (client st1) = devices (client st) /\
    (forall i, instrument (client st) = Some i ->
               connected (client st) = true \/ serial_timeout i = 1%Q ->
               exists i', instrument (client st1) = Some i' /\
                          serial_timeout i' = serial_timeout i).
Proof.
  destruct (ensure_connected_run st)
    as (b & st1 & evs & Hg & Hl & Hall & _ & Hd & Hb).
  exists b, st1, evs. repeat split; auto.
  intros i Hi Hs. destruct b.
  - destruct Hb as (i1 & Hi1 & Ht). exists i1. split; [assumption|]. now apply Ht.
  - destruct Hb as (Hi1 & _). rewrite Hi1, Hi. cbn. eauto.
Qed.

(** [read_register] and [write_register] with any [register_type]: what the
    line sees and what is left of the client, whether they return or raise. *)
Lemma read_register_frame (st : State) (a r : Z) (arg : RegisterTypeArg) (d : Z) :
  exists res st' evs,
    read_register tr a r arg d st = (res, st') /\
    log st' = log st ++ evs /\
    Forall (at_timeout 1) evs /\
    devices (client st') = devices (client st) /\
    (forall i, instrument (client st) = Some i ->
               connected (client st) = true \/ serial_timeout i = 1%Q ->
               exists i', instrument (client st') = Some i' /\
                          serial_timeout i' = serial_timeout i).
Proof.
  rewrite read_register_arg. destruct (member_of arg) as [rt|].
  - destruct (read_register_run st a r rt d)
      as (res & st' & evs & Hrun & Hl & Hall & Hd & Ht & _).
    exists (Ret res), st', evs. auto.
  - destruct (ensure_connected_frame st)
      as (b & st1 & evs & Hg & Hl & Hall & Hd & Ht).
    rewrite Hg. destruct b; eexists _, st1, evs; (split; [reflexivity|auto]).
Qed.

Lemma write_register_frame (st : State) (a r v : Z) (arg : RegisterTypeArg) :
  exists res st' evs,
    write_register tr a r v arg st = (res, st') /\
    log st' = log st ++ evs /\
    Forall (at_timeout 1) evs /\
    devices (client st') = devices (client st) /\
    (forall i, instrument (client st) = Some i ->
               connected (client st) = true \/ serial_timeout i = 1%Q ->
               exists i', instrument (client st') = Some i' /\
                          serial_timeout i' = serial_timeout i).
Proof.
  rewrite write_register_arg. destruct (member_of arg) as [rt|].
  - destruct (write_register_run st a r v rt)
      as (ok & st' & evs & Hrun & Hl & Hall & Hd & Ht & _).
    exists (Ret ok), st', evs. auto.
  - destruct (ensure_connected_frame st)
      as (b & st1 & evs & Hg & Hl & Hall & Hd & Ht).
    rewrite Hg. destruct b; eexists _, st1, evs; (split; [reflexivity|auto]).
Qed.

Lemma read_device_run (device : ModbusDeviceConfig) (st : State) :
  read_device tr device st =
  match read_register tr (address device) (register device)
          (register_type device) (decimals_of (register_type device)) st with
  | (Ret (Some raw), st') =>
      (Ret (Some (round2 (b64 (b64 (raw * scale device) + offset device)))), st')
  | (Ret None, st') => (Ret None, st')
  | (Raise _, st') => (Ret None, st')
  end.
Proof.
  unfold read_device, try_except, bind, decimals_of.
  destruct (register_type device);
    match goal with |- context [read_register ?t ?a ?r ?rt ?d ?s] =>
      destruct (read_register t a r rt d s) as [[[raw|]|e] st'] end;
    reflexivity.
Qed.

(** [read_device] from any state: it returns, and it returns a value only
    when the line answered the read with one. *)
Lemma read_device_returns (device : ModbusDeviceConfig) (st : State) :
  exists res st',
    read_device tr device st = (Ret res, st') /\
    devices (client st') = devices (client st) /\
    (forall v, res = Some v ->
       exists l a t rq raw, reply tr l a t rq = Value raw /\
         v = round2 (b64 (b64 (raw * scale device) + offset device))).
Proof.
  rewrite read_device_run.
  destruct (read_register_run st (address device) (register device)
              (register_type device) (decimals_of (register_type device)))
    as (res & st' & evs & Hrun & _ & _ & Hd & _ & Hres).
  rewrite Hrun. destruct res as [raw|].
  - eexists _, st'. split; [reflexivity|]. split; [assumption|].
    intros v E. inversion E; subst. destruct Hres as (evs0 & _ & R & _).
    eauto 10.
  - exists None, st'. repeat split; auto. discriminate.
Qed.

End Runs.

Lemma dict_set_fresh {V : Type} (k : Z) (v : V) (d : list (Z * V)) :
  ~ In k (map fst d) -> dict_set k v d = d ++ [(k, v)].
Proof.
  induction d as [|[k' v'] d IH]; cbn; intros H; [reflexivity|].
  destruct (Z.eqb_spec k k') as [->|_]; [exfalso; auto|].
  rewrite IH; auto.
Qed.

Lemma dict_set_keys {V : Type} (k : Z) (v : V) (d : list (Z * V)) :
  map fst (dict_set k v d) =
  if existsb (Z.eqb k) (map fst d) then map fst d else map fst d ++ [k].
Proof.
  induction d as [|[k' v'] d IH]; cbn; [reflexivity|].
  destruct (Z.eqb_spec k k') as [->|_]; cbn; [reflexivity|].
  rewrite IH. now destruct (existsb (Z.eqb k) (map fst d)).
Qed.

(** Adding a device keeps the keys of the registry distinct, as the keys of a
    dict are. *)
Lemma dict_set_NoDup {V : Type} (k : Z) (v : V) (d : list (Z * V)) :
  NoDup (map fst d) -> NoDup (map fst (dict_set k v d)).
Proof.
  intros H. rewrite dict_set_keys.
  destruct (existsb (Z.eqb k) (map fst d)) eqn:E; [assumption|].
  apply NoDup_app; [assumption | repeat constructor; intros [] | ].
  intros x Hx [Hk|[]]. subst x.
  assert (existsb (Z.eqb k) (map fst d) = true); [|congruence].
  apply existsb_exists. exists k. split; [assumption | apply Z.eqb_refl].
Qed.

Section Polling.

Variable tr : Transport.

Lemma read_each_run (items : list (Z * ModbusDeviceConfig)) :
  forall (st : State) (results : list (Z * Reading)),
    NoDup (map fst items) ->
    (forall k, In k (map fst items) -> ~ In k (map fst results)) ->
    exists rs st',
      read_each tr items results st = (Ret (results ++ rs), st') /\
      polled tr st items rs st'.
Proof.
  induction items as [|[addr device] rest IH]; intros st results Hnd Hfresh.
  - exists [], st. cbn. rewrite app_nil_r. split; [reflexivity|constructor].
  - cbn [read_each].
    destruct (read_device_returns tr device st) as (res & st1 & Hrun & _).
    rewrite (bind_run _ _ _ _ _ Hrun).
    unfold time_strftime at 1. unfold bind at 1.
    inversion Hnd as [|? ? Hnotin Hnd']; subst.
    rewrite dict_set_fresh by (apply Hfresh; now left).
    match goal with |- context [read_each tr rest (results ++ [?x]) st1] =>
      set (entry := x) end.
    destruct (IH st1 (results ++ [entry]) Hnd') as (rs & st' & Hrun' & Hall).
    { intros k Hk. rewrite map_app, in_app_iff. cbn.
      intros [Hin|[<-|[]]]; [|contradiction].
      revert Hin. apply Hfresh. now right. }
    exists (entry :: rs), st'. rewrite Hrun', <- app_assoc. cbn.
    split; [reflexivity|]. unfold entry. now constructor.
Qed.

End Polling.

Section Scanning.

Variable tr : Transport.

Lemma sweep_run (addrs : list Z) :
  forall (st : State) (i : Instrument) (found0 : list Z),
    instrument (client st) = Some i ->
    exists found st' i' evs,
      sweep tr addrs found0 st = (Ret (found0 ++ found), st') /\
      instrument (client st') = Some i' /\
      serial_timeout i' = serial_timeout i /\
      devices (client st') = devices (client st) /\
      connected (client st') = connected (client st) /\
      log st' = log st ++ evs /\
      swept (serial_timeout i) addrs evs found.
Proof.
  induction addrs as [|a rest IH]; intros [c l] i found0 Hi; cbn in Hi.
  - exists [], {| client := c; log := l |}, i, [].
    cbn. rewrite !app_nil_r. repeat split; auto. constructor.
  - cbn [sweep]. unfold bind at 1. unfold try_except.
    unfold bind at 1. unfold set_address at 1. run. rewrite Hi.
    rewrite (call_run tr _ _ _ (with_address a i)) by reflexivity. cbn -[sweep].
    set (rp := reply tr l a (serial_timeout i) (ReadRegister 0 4 0)).
    set (st1 := {| client := with_instrument (Some (with_address a i)) c;
                   log := l ++ [EvCall a (serial_timeout i) (ReadRegister 0 4 0) rp] |}).
    destruct (IH st1 (with_address a i)
                (if responded rp then found0 ++ [a] else found0) eq_refl)
      as (found & st' & i' & evs & Hrun & Hi' & Ht & Hd & Hc & Hl & Hp).
    exists (if responded rp then a :: found else found), st', i',
      (EvCall a (serial_timeout i) (ReadRegister 0 4 0) rp :: evs).
    cbn in Ht, Hd, Hc, Hl, Hp.
    repeat split; auto.
    + destruct rp as [v|[]]; cbn -[sweep] in *; fold st1; rewrite Hrun;
        rewrite <- ?app_assoc; reflexivity.
    + rewrite Hl, <- app_assoc. reflexivity.
    + now constructor.
Qed.

Lemma scan_devices_run (st : State) (i : Instrument) (start_address end_address : Z) :
  connected (client st) = true -> instrument (client st) = Some i ->
  1 <= start_address -> start_address <= end_address -> end_address <= 247 ->
  exists found st' i' evs,
    scan_devices tr start_address end_address st = (Ret found, st') /\
    instrument (client st') = Some i' /\
    serial_timeout i' = serial_timeout i /\
    devices (client st') = devices (client st) /\
    connected (client st') = true /\
    log st' = log st ++ evs /\
    swept (1 # 5) (py_range start_address (end_address + 1)) evs found.
Proof.
  intros Hc Hi H1 H2 H3. destruct st as [c l]. cbn in Hc, Hi.
  unfold scan_devices. run. rewrite Hc.
  replace (1 <=? start_address) with true by (symmetry; apply Z.leb_le; lia).
  replace (start_address <=? 247) with true by (symmetry; apply Z.leb_le; lia).
  replace (1 <=? end_address) with true by (symmetry; apply Z.leb_le; lia).
  replace (end_address <=? 247) with true by (symmetry; apply Z.leb_le; lia).
  replace (end_address <? start_address) with false by (symmetry; apply Z.ltb_ge; lia).
  cbn -[sweep py_range]. repeat (rewrite Hi; cbn -[sweep py_range]).
  destruct (sweep_run (py_range start_address (end_address + 1))
              {| client := with_instrument (Some (with_timeout (1 # 5) i)) c; log := l |}
              (with_timeout (1 # 5) i) [] eq_refl)
    as (found & [c' l'] & i' & evs & Hrun & Hi' & Ht & Hd & Hcn & Hl & Hp).
  cbn -[sweep py_range] in Hi', Ht, Hd, Hcn, Hl, Hp, Hrun.
  rewrite Hrun. cbn. rewrite Hi'. cbn.
  eexists found, _, _, evs. split; [reflexivity|]. cbn.
  repeat split; auto. congruence.
Qed.

Lemma scan_devices_not_connected (st : State) (start_address end_address : Z) :
  connected (client st) = false ->
  scan_devices tr start_address end_address st =
  (Raise (ModbusException NotConnected), st).
Proof.
  intros Hc. unfold scan_devices. run. now rewrite Hc.
Qed.

End Scanning.

(** ** Connecting *)

(** C6.  [connect], when the client is not already connected, closes the
    instrument it holds (if any) and opens the port; if the port opens it
    probes input register 0 with function code 4 at the addresses 1 to 5 in
    ascending order, stops at the first valid answer, and returns [True] with
    the client connected whether or not any address answered; it returns
    [False] exactly when the port does not open, and then probes nothing.
    When the client is already connected it returns [True] at once. *)
Theorem C6_connect_probe_sequence (tr : Transport) (st : State) :
  (forall i, connected (client st) = true -> instrument (client st) = Some i ->
             connect tr st = (Ret true, st)) /\
  (connected (client st) = false \/ instrument (client st) = None ->
   let opened := opens tr (log st ++ closing (client st)) in
   exists st' probes,
     connect tr st = (Ret opened, st') /\
     log st' = log st ++ closing (client st) ++ EvOpen opened :: probes /\
     connected (client st') = opened /\
     if opened
     then exists found, probed 1 [1; 2; 3; 4; 5] probes found
     else probes = []).
Proof.
  split.
  - intros i Hc Hi. now apply connect_already with i.
  - intros H opened.
    destruct (connect_run tr st H) as (st' & probes & Hrun & Hl & Hc & _ & Hrest).
    exists st', probes. repeat split; auto.
    fold opened in Hrest. destruct opened; tauto.
Qed.

Lemma C6_witness :
  (exists st' probes,
     connect link_3_7 fresh = (Ret true, st') /\
     log st' = EvOpen true :: probes /\
     connected (client st') = true /\
     exists found, probed 1 [1; 2; 3; 4; 5] probes found) /\
  (exists st',
     connect dead_port fresh = (Ret false, st') /\
     log st' = [EvOpen false] /\
     connected (client st') = false).
Proof.
  split.
  - destruct (C6_connect_probe_sequence link_3_7 fresh) as [_ H].
    destruct (H (or_introl eq_refl)) as (st' & probes & H1 & H2 & H3 & H4).
    exists st', probes. cbn in H1, H2, H3, H4. auto.
  - destruct (C6_connect_probe_sequence dead_port fresh) as [_ H].
    destruct (H (or_introl eq_refl)) as (st' & probes & H1 & H2 & H3 & H4).
    exists st'. cbn in H1, H2, H3, H4. subst probes. auto.
Defined.

(** ** Scanning *)

(** C8.  [scan_devices] on a client that is not connected raises
    [ModbusException] (not connected) before anything else: the line sees no
    call and the client, its connection flag and its serial timeout included,
    is left as it was. *)
Theorem C8_scan_requires_connection (tr : Transport) (st : State)
    (start_address end_address : Z) :
  connected (client st) = false ->
  scan_devices tr start_address end_address st =
  (Raise (ModbusException NotConnected), st).
Proof.
  apply scan_devices_not_connected.
Qed.

Lemma C8_witness :
  scan_devices link_3_7 1 10 fresh = (Raise (ModbusException NotConnected), fresh).
Proof.
  apply (C8_scan_requires_connection link_3_7 fresh 1 10). reflexivity.
Defined.

(** C3.  A scan of the addresses [start_address .. end_address] on a connected
    client probes every address of the range once, in ascending order, and
    goes on whatever an address answers; an address is in the list returned
    when its probe answered a value or [InvalidResponseError], and is not when
    it answered [NoResponseError] or any other exception; the list is strictly
    ascending, so sorted and without duplicates.  On a line where only
    address 3 answers validly and address 7 answers with a malformed frame,
    the scan of 1 to 10 returns [3; 7]. *)
Theorem C3_scan_classifies_answers :
  (forall (tr : Transport) (st : State) (i : Instrument)
          (start_address end_address : Z),
     connected (client st) = true -> instrument (client st) = Some i ->
     1 <= start_address -> start_address <= end_address -> end_address <= 247 ->
     exists found st' evs,
       scan_devices tr start_address end_address st = (Ret found, st') /\
       log st' = log st ++ evs /\
       Forall2 (fun a ev => exists rp, ev = EvCall a (1 # 5) (ReadRegister 0 4 0) rp)
         (py_range start_address (end_address + 1)) evs /\
       (forall a rp, In (EvCall a (1 # 5) (ReadRegister 0 4 0) rp) evs ->
          match rp with
          | Value _ => In a found
          | Error InvalidResponseError => In a found
          | Error NoResponseError => ~ In a found
          | Error _ => ~ In a found
          end) /\
       (forall a, In a found -> start_address <= a <= end_address) /\
       StronglySorted Z.lt found /\
       NoDup found) /\
  fst (scan_devices link_3_7 1 10 online) = Ret [3; 7].
Proof.
  split; [|reflexivity].
  intros tr st i s e Hc Hi H1 H2 H3.
  destruct (scan_devices_run tr st i s e Hc Hi H1 H2 H3)
    as (found & st' & i' & evs & Hrun & _ & _ & _ & _ & Hl & Hs).
  pose proof (py_range_sorted s (e + 1)) as Hsorted.
  exists found, st', evs. repeat split; auto.
  - eapply swept_probes; eauto.
  - intros a rp Hin.
    pose proof (swept_classified _ _ _ _ Hs (sorted_lt_NoDup _ Hsorted) a rp Hin) as Hcl.
    destruct rp as [v|[]]; cbn in Hcl;
      solve [apply Hcl; reflexivity | intros Hx; apply Hcl in Hx; discriminate].
  - apply (swept_found_in _ _ _ _ Hs), py_range_in in H. lia.
  - apply (swept_found_in _ _ _ _ Hs), py_range_in in H. lia.
  - eapply swept_sorted; eauto.
  - apply sorted_lt_NoDup. eapply swept_sorted; eauto.
Qed.

Lemma C3_witness :
  exists found st' evs,
    scan_devices link_3_7 1 10 online = (Ret found, st') /\
    log st' = evs /\
    StronglySorted Z.lt found /\
    NoDup found.
Proof.
  destruct C3_scan_classifies_answers as [H _].
  destruct (H link_3_7 online _ 1 10 eq_refl eq_refl) as
    (found & st' & evs & H1 & H2 & _ & _ & _ & H6 & H7); try lia.
  exists found, st', evs. auto.
Defined.

(** ** Reading and writing registers *)

(** C10 (as the code has it).  With a [register_type] that is a member of
    [RegisterType], or the value of one, [read_register] and [write_register]
    return from every state: neither raises.  A read returns a float exactly
    when its transaction was answered with a value, and the float is that
    value; it returns [None] when the reconnection failed or the transaction
    was answered with an exception (no response, invalid response or any
    other).  A write returns [True] exactly when its transaction was answered
    with a value, and [False] when the reconnection failed, the register type
    cannot be written or the transaction was answered with an exception.
    With any other [register_type] the conversion raises [ValueError] to the
    caller once the guard has passed; when the reconnection fails the error
    result is returned before the conversion is reached.  (Assignments to the
    attributes of the serial object are taken not to fail.) *)
Theorem C10_read_write_raise_only_at_conversion (tr : Transport) (st : State)
    (a r v : Z) (register_type : RegisterTypeArg) (d : Z) :
  (forall rt, member_of register_type = Some rt ->
     (exists res st' evs,
        read_register tr a r register_type d st = (Ret res, st') /\
        log st' = log st ++ evs /\
        match res with
        | Some x =>
            exists evs0,
              evs = evs0 ++ [EvCall a 1 (read_request rt r d) (Value x)] /\
              reply tr (log st ++ evs0) a 1 (read_request rt r d) = Value x
        | None =>
            (evs = closing (client st) ++ [EvOpen false] /\
             opens tr (log st ++ closing (client st)) = false) \/
            (exists evs0 e,
               evs = evs0 ++ [EvCall a 1 (read_request rt r d) (Error e)] /\
               reply tr (log st ++ evs0) a 1 (read_request rt r d) = Error e)
        end) /\
     (exists ok st' evs,
        write_register tr a r v register_type st = (Ret ok, st') /\
        log st' = log st ++ evs /\
        if ok
        then exists rq evs0 x,
               write_request rt r v = Some rq /\
               evs = evs0 ++ [EvCall a 1 rq (Value x)] /\
               reply tr (log st ++ evs0) a 1 rq = Value x
        else (evs = closing (client st) ++ [EvOpen false] /\
              opens tr (log st ++ closing (client st)) = false) \/
             write_request rt r v = None \/
             (exists rq evs0 e,
                write_request rt r v = Some rq /\
                evs = evs0 ++ [EvCall a 1 rq (Error e)] /\
                reply tr (log st ++ evs0) a 1 rq = Error e))) /\
  (member_of register_type = None ->
     exists b st1,
       ensure_connected tr st = (Ret b, st1) /\
       read_register tr a r register_type d st =
         ((if b then Raise ValueError else Ret None), st1) /\
       write_register tr a r v register_type st =
         ((if b then Raise ValueError else Ret false), st1)).
Proof.
  split.
  - intros rt Hm. split.
    + rewrite read_register_arg, Hm.
      destruct (read_register_run tr st a r rt d)
        as (res & st' & evs & Hrun & Hl & _ & _ & _ & Hres).
      exists res, st', evs. split; [assumption|]. split; [assumption|].
      destruct res as [x|].
      * destruct Hres as (evs0 & E & R & _). eauto.
      * destruct Hres as [(E & O & _)|(evs0 & e & E & R & _)]; eauto.
    + rewrite write_register_arg, Hm.
      destruct (write_register_run tr st a r v rt)
        as (ok & st' & evs & Hrun & Hl & _ & _ & _ & Hres).
      exists ok, st', evs. split; [assumption|]. split; [assumption|].
      destruct ok.
      * destruct Hres as (rq & evs0 & x & W & E & R & _). eauto 6.
      * destruct Hres as [(E & O & _)|[(W & _)|(rq & evs0 & e & W & E & R & _)]];
          eauto 8.
  - intros Hm. rewrite read_register_arg, write_register_arg, Hm.
    destruct (ensure_connected_run tr st) as (b & st1 & evs & Hg & _).
    exists b, st1. rewrite Hg. now destruct b.
Qed.

Lemma C10_witness :
  (exists st',
     read_register link_3_7 3 0 (Raw 4) 2 fresh = (Ret (Some 42%Q), st')) /\
  (exists ok st',
     write_register silent_line 1 0 7 HOLDING_REGISTER fresh = (Ret ok, st')) /\
  read_register dead_port 1 0 (Raw 99) 0 fresh =
    (Ret None, {| client := client fresh; log := [EvOpen false] |}).
Proof.
  destruct (C10_read_write_raise_only_at_conversion link_3_7 fresh 3 0 7 (Raw 4) 2)
    as [H1 _].
  destruct (H1 INPUT_REGISTER eq_refl) as [(res & st' & evs & Hrun & _) _].
  destruct (C10_read_write_raise_only_at_conversion
              silent_line fresh 1 0 7 HOLDING_REGISTER 2) as [H2 _].
  destruct (H2 HOLDING_REGISTER eq_refl) as [_ (ok & st2 & evs2 & Hrun2 & _)].
  destruct (C10_read_write_raise_only_at_conversion dead_port fresh 1 0 7 (Raw 99) 0)
    as [_ H3].
  destruct (H3 eq_refl) as (b & st3 & Hg & Hr & _).
  split; [|split].
  - exists st'. rewrite Hrun. f_equal. f_equal.
    assert (E : fst (read_register link_3_7 3 0 (Raw 4) 2 fresh) = Ret (Some 42%Q))
      by (vm_compute; reflexivity).
    rewrite Hrun in E. cbn in E. now inversion E.
  - eauto.
  - rewrite Hr. assert (E : ensure_connected dead_port fresh =
                            (Ret false, {| client := client fresh; log := [EvOpen false] |}))
      by (vm_compute; reflexivity).
    rewrite E in Hg. now inversion Hg.
Defined.

(** C10, as stated, fails: on a connected client a read and a write whose
    [register_type] is 99, which is the value of no member, raise
    [ValueError] to the caller, before any call on the line. *)
Lemma C10_counterexample :
  read_register silent_line 1 0 (Raw 99) 0 online = (Raise ValueError, online) /\
  write_register silent_line 1 0 7 (Raw 99) online = (Raise ValueError, online) /\
  ~ (exists res st',
       read_register silent_line 1 0 (Raw 99) 0 online = (Ret res, st')) /\
  ~ (exists ok st',
       write_register silent_line 1 0 7 (Raw 99) online = (Ret ok, st')).
Proof.
  assert (Hr : read_register silent_line 1 0 (Raw 99) 0 online =
               (Raise ValueError, online)) by (vm_compute; reflexivity).
  assert (Hw : write_register silent_line 1 0 7 (Raw 99) online =
               (Raise ValueError, online)) by (vm_compute; reflexivity).
  split; [exact Hr|]. split; [exact Hw|]. split.
  - intros (res & st' & H). rewrite Hr in H. discriminate.
  - intros (ok & st' & H). rewrite Hw in H. discriminate.
Qed.

(** C4 (as the code has it).  When the transaction of a read or of a write is
    answered with an exception, the operation returns its error result
    ([None], [False]) and clears [self.connected] - unless the exception is
    [InvalidResponseError], after which [self.connected] stays set. *)
Theorem C4_connection_after_failure (tr : Transport) (st : State)
    (a r v : Z) (rt : RegisterType) (d : Z) :
  (forall res st' evs0 e,
     read_register tr a r rt d st = (res, st') ->
     log st' = log st ++ evs0 ++ [EvCall a 1 (read_request rt r d) (Error e)] ->
     res = Ret None /\
     connected (client st') =
       match e with InvalidResponseError => true | _ => false end) /\
  (forall ok st' evs0 rq e,
     write_request rt r v = Some rq ->
     write_register tr a r v rt st = (ok, st') ->
     log st' = log st ++ evs0 ++ [EvCall a 1 rq (Error e)] ->
     ok = Ret false /\
     connected (client st') =
       match e with InvalidResponseError => true | _ => false end).
Proof.
  split.
  - intros res0 st0 evs0 e Hrun0 Hl0.
    destruct (read_register_run tr st a r rt d)
      as (res & st' & evs & Hrun & Hl & _ & _ & _ & Hres).
    rewrite Hrun in Hrun0. inversion Hrun0; subst res0 st0. clear Hrun0.
    rewrite Hl in Hl0. apply app_inv_head in Hl0. subst evs.
    destruct res as [x|].
    + destruct Hres as (evs1 & E & _).
      apply app_inj_tail in E. destruct E as [_ E]. discriminate.
    + destruct Hres as [(E & _)|(evs1 & e1 & E & _ & Hc)];
        apply app_inj_tail in E; destruct E as [_ E]; [discriminate|].
      assert (e1 = e) by congruence. subst e1. split; [reflexivity|].
      rewrite Hc. now destruct e.
  - intros ok0 st0 evs0 rq e W Hrun0 Hl0.
    destruct (write_register_run tr st a r v rt)
      as (ok & st' & evs & Hrun & Hl & _ & _ & _ & Hres).
    rewrite Hrun in Hrun0. inversion Hrun0; subst ok0 st0. clear Hrun0.
    rewrite Hl in Hl0. apply app_inv_head in Hl0. subst evs.
    destruct ok.
    + destruct Hres as (rq1 & evs1 & x & _ & E & _).
      apply app_inj_tail in E. destruct E as [_ E]. discriminate.
    + destruct Hres as [(E & _)|[(W' & _)|(rq1 & evs1 & e1 & _ & E & _ & Hc)]].
      * apply app_inj_tail in E. destruct E as [_ E]. discriminate.
      * congruence.
      * apply app_inj_tail in E. destruct E as [_ E].
        assert (e1 = e) by congruence. subst e1. split; [reflexivity|].
        rewrite Hc. now destruct e.
Qed.

Lemma C4_witness :
  (exists st', read_register silent_line 4 0 INPUT_REGISTER 0 online = (Ret None, st') /\
               connected (client st') = false) /\
  (exists st', write_register garbled_line 4 0 7 HOLDING_REGISTER online = (Ret false, st') /\
               connected (client st') = true).
Proof.
  destruct (C4_connection_after_failure silent_line online 4 0 7 INPUT_REGISTER 0)
    as [Hr _].
  destruct (C4_connection_after_failure garbled_line online 4 0 7 HOLDING_REGISTER 0)
    as [_ Hw].
  split.
  - destruct (read_register silent_line 4 0 INPUT_REGISTER 0 online) as [res st'] eqn:E.
    destruct (Hr res st' [] NoResponseError eq_refl) as [-> Hc].
    + vm_compute in E. inversion E. reflexivity.
    + exists st'. auto.
  - destruct (write_register garbled_line 4 0 7 HOLDING_REGISTER online) as [ok st'] eqn:E.
    destruct (Hw ok st' [] _ InvalidResponseError eq_refl eq_refl) as [-> Hc].
    + vm_compute in E. inversion E. reflexivity.
    + exists st'. auto.
Defined.

(** C4, as stated, fails: on a connected client a read answered with
    [InvalidResponseError] returns [None] and leaves the client as connected
    as it was. *)
Lemma C4_counterexample :
  exists st',
    read_register garbled_line 4 0 INPUT_REGISTER 0 online = (Ret None, st') /\
    log st' = [EvCall 4 1 (ReadRegister 0 4 0) (Error InvalidResponseError)] /\
    connected (client online) = true /\
    connected (client st') = true.
Proof.
  eexists. split; [vm_compute; reflexivity|]. cbn. auto.
Qed.

(** C5 (as the code has it).  A write to a [DISCRETE_INPUT] or an
    [INPUT_REGISTER] returns [False].  On a connected client it does so
    without any call on the line, and leaves [self.connected] and the serial
    timeout as they were (the instrument's target address is set).  On a
    client that is not connected, [connect] runs first - the port is opened
    and probed - and the write is refused after it. *)
Theorem C5_write_to_read_only_type (tr : Transport) (st : State)
    (a r v : Z) (rt : RegisterType) :
  rt = DISCRETE_INPUT \/ rt = INPUT_REGISTER ->
  (forall i, connected (client st) = true -> instrument (client st) = Some i ->
     write_register tr a r v rt st =
     (Ret false,
      {| client := with_instrument (Some (with_address a i)) (client st);
         log := log st |})) /\
  (connected (client st) = false \/ instrument (client st) = None ->
   exists b st1 st',
     connect tr st = (Ret b, st1) /\
     write_register tr a r v rt st = (Ret false, st') /\
     log st' = log st1 /\
     connected (client st') = b).
Proof.
  intros Hrt. split.
  - intros i Hc Hi. destruct st as [c l].
    rewrite (write_register_connected tr c l i a r v rt Hc Hi).
    destruct Hrt as [-> | ->]; reflexivity.
  - intros Hn.
    destruct (connect_run tr st Hn) as (st1 & probes & Hrun & Hl & Hc & _ & Hrest).
    cbn zeta in *. set (opened := opens tr (log st ++ closing (client st))) in *.
    pose proof (ensure_connected_connects tr st Hn) as Hg. rewrite Hrun in Hg.
    assert (Hi : opened = true -> exists i1, instrument (client st1) = Some i1).
    { intros E. rewrite E in Hrest. destruct Hrest as ((i1 & Hi1 & _) & _). eauto. }
    rewrite (write_register_guarded tr st st1 opened a r v rt Hg Hc Hi).
    exists opened, st1. destruct opened.
    + destruct (Hi eq_refl) as (i1 & Hi1). destruct st1 as [c1 l1].
      rewrite (write_register_connected tr c1 l1 i1 a r v rt Hc Hi1).
      destruct Hrt as [-> | ->]; cbn; eexists; repeat split; auto.
    + exists st1. auto.
Qed.

Lemma C5_witness :
  write_register link_3_7 9 0 1 INPUT_REGISTER online =
  (Ret false,
   {| client := with_instrument
                  (Some (with_address 9 {| slave_address := 1;
                                           serial_baudrate := 9600;
                                           serial_timeout := 1;
                                           serial_is_open := true |}))
                  (client online);
      log := [] |}).
Proof.
  destruct (C5_write_to_read_only_type link_3_7 online 9 0 1 INPUT_REGISTER
              (or_intror eq_refl)) as [H _].
  exact (H _ eq_refl eq_refl).
Defined.

(** C5, as stated, fails: on a client that is not connected, a write to an
    [INPUT_REGISTER] opens the port and probes the five candidate addresses
    before it is refused, and the client ends up connected. *)
Lemma C5_counterexample :
  exists st',
    write_register silent_line 9 0 1 INPUT_REGISTER fresh = (Ret false, st') /\
    log fresh = [] /\
    log st' =
      [EvOpen true;
       EvCall 1 1 (ReadRegister 0 4 0) (Error NoResponseError);
       EvCall 2 1 (ReadRegister 0 4 0) (Error NoResponseError);
       EvCall 3 1 (ReadRegister 0 4 0) (Error NoResponseError);
       EvCall 4 1 (ReadRegister 0 4 0) (Error NoResponseError);
       EvCall 5 1 (ReadRegister 0 4 0) (Error NoResponseError)] /\
    connected (client fresh) = false /\
    connected (client st') = true.
Proof.
  eexists. split; [vm_compute; reflexivity|]. cbn. auto.
Qed.

(** ** The serial timeout *)

Section Timeouts.

Variable tr : Transport.

Lemma connect_at_rest (st : State) :
  at_rest st -> at_rest (snd (connect tr st)).
Proof.
  intros H.
  destruct (connected (client st)) eqn:Hc;
    [destruct (instrument (client st)) as [i|] eqn:Hi|].
  - now rewrite (connect_already tr st i Hc Hi).
  - destruct (connect_run tr st (or_intror Hi))
      as (st' & probes & Hrun & _ & _ & _ & Hrest).
    rewrite Hrun. cbn [snd]. cbn zeta in Hrest.
    destruct (opens tr (log st ++ closing (client st))).
    + destruct Hrest as ((i' & Hi' & Ht) & _). intros j Hj. congruence.
    + destruct Hrest as (_ & Hi'). intros j Hj. rewrite Hi', Hi in Hj. discriminate.
  - destruct (connect_run tr st (or_introl Hc))
      as (st' & probes & Hrun & _ & _ & _ & Hrest).
    rewrite Hrun. cbn [snd]. cbn zeta in Hrest.
    destruct (opens tr (log st ++ closing (client st))).
    + destruct Hrest as ((i' & Hi' & Ht) & _). intros j Hj. congruence.
    + destruct Hrest as (_ & Hi'). intros j Hj. rewrite Hi' in Hj.
      destruct (instrument (client st)) as [i|] eqn:Hi; [|discriminate].
      inversion Hj. cbn. now apply H.
Qed.

Lemma ensure_connected_at_rest (st : State) :
  at_rest st -> at_rest (snd (ensure_connected tr st)).
Proof.
  intros H.
  destruct (connected (client st)) eqn:Hc;
    [destruct (instrument (client st)) as [i|] eqn:Hi|].
  - now rewrite (ensure_connected_already tr st i Hc Hi).
  - rewrite ensure_connected_connects by (right; exact Hi).
    now apply connect_at_rest.
  - rewrite ensure_connected_connects by (left; exact Hc).
    now apply connect_at_rest.
Qed.

Lemma after_reply_instrument (rp : Reply) (c : Client) :
  instrument (after_reply rp c) = instrument c.
Proof.
  unfold after_reply. now destruct (keeps_connection rp).
Qed.

Lemma read_register_at_rest (st : State) (a r : Z) (rt : RegisterType) (d : Z) :
  at_rest st -> at_rest (snd (read_register tr a r rt d st)).
Proof.
  intros H. apply ensure_connected_at_rest in H.
  destruct (ensure_connected_run tr st)
    as (b & [c1 l1] & evs & Hg & _ & _ & Hcn & _ & Hb).
  rewrite Hg in H. cbn in H, Hcn, Hb. destruct b.
  - destruct Hb as (i1 & Hi1 & _).
    rewrite (read_register_guarded tr st _ true a r rt d Hg Hcn
               (fun _ => ex_intro _ i1 Hi1)).
    rewrite (read_register_connected tr c1 l1 i1 a r rt d Hcn Hi1).
    intros j Hj. cbn in Hj. rewrite after_reply_instrument in Hj.
    inversion Hj. cbn. now apply H.
  - rewrite (read_register_guarded tr st _ false a r rt d Hg Hcn)
      by (intros; discriminate).
    exact H.
Qed.

Lemma write_register_at_rest (st : State) (a r v : Z) (rt : RegisterType) :
  at_rest st -> at_rest (snd (write_register tr a r v rt st)).
Proof.
  intros H. apply ensure_connected_at_rest in H.
  destruct (ensure_connected_run tr st)
    as (b & [c1 l1] & evs & Hg & _ & _ & Hcn & _ & Hb).
  rewrite Hg in H. cbn in H, Hcn, Hb. destruct b.
  - destruct Hb as (i1 & Hi1 & _).
    rewrite (write_register_guarded tr st _ true a r v rt Hg Hcn
               (fun _ => ex_intro _ i1 Hi1)).
    rewrite (write_register_connected tr c1 l1 i1 a r v rt Hcn Hi1).
    intros j Hj. destruct (write_request rt r v); cbn in Hj;
      rewrite ?after_reply_instrument in Hj; inversion Hj; cbn; now apply H.
  - rewrite (write_register_guarded tr st _ false a r v rt Hg Hcn)
      by (intros; discriminate).
    exact H.
Qed.

Lemma read_register_arg_at_rest (st : State) (a r : Z) (arg : RegisterTypeArg)
    (d : Z) :
  at_rest st -> at_rest (snd (read_register tr a r arg d st)).
Proof.
  intros H. destruct (read_register_arg_state tr arg a r d st) as [(rt & E)|E];
    rewrite E; [now apply read_register_at_rest | now apply ensure_connected_at_rest].
Qed.

Lemma write_register_arg_at_rest (st : State) (a r v : Z) (arg : RegisterTypeArg) :
  at_rest st -> at_rest (snd (write_register tr a r v arg st)).
Proof.
  intros H. destruct (write_register_arg_state tr arg a r v st) as [(rt & E)|E];
    rewrite E; [now apply write_register_at_rest | now apply ensure_connected_at_rest].
Qed.

Lemma read_device_at_rest (st : State) (device : ModbusDeviceConfig) :
  at_rest st -> at_rest (snd (read_device tr device st)).
Proof.
  intros H. rewrite read_device_run.
  pose proof (read_register_at_rest st (address device) (register device)
                (register_type device) (decimals_of (register_type device)) H) as H'.
  destruct (read_register tr (address device) (register device)
              (register_type device) (decimals_of (register_type device)) st)
    as [[[raw|]|e] st']; exact H'.
Qed.

Lemma read_each_at_rest (items : list (Z * ModbusDeviceConfig)) :
  forall st results, at_rest st -> at_rest (snd (read_each tr items results st)).
Proof.
  induction items as [|[addr device] rest IH]; intros st results H; [exact H|].
  cbn [read_each]. unfold bind at 1.
  pose proof (read_device_at_rest st device H) as H1.
  destruct (read_device tr device st) as [[value|e] st1]; [|exact H1].
  unfold time_strftime at 1. unfold bind at 1. now apply IH.
Qed.

Lemma scan_devices_invalid (st : State) (s e : Z) :
  connected (client st) = true ->
  ~ (1 <= s /\ s <= e /\ e <= 247) ->
  scan_devices tr s e st = (Raise ValueError, st).
Proof.
  intros Hc Hn. unfold scan_devices. run. rewrite Hc. cbn -[sweep py_range].
  destruct (Z.leb_spec 1 s); cbn -[sweep py_range]; [|reflexivity].
  destruct (Z.leb_spec s 247); cbn -[sweep py_range]; [|reflexivity].
  destruct (Z.leb_spec 1 e); cbn -[sweep py_range]; [|reflexivity].
  destruct (Z.leb_spec e 247); cbn -[sweep py_range]; [|reflexivity].
  destruct (Z.ltb_spec e s); [reflexivity|]. exfalso. apply Hn. lia.
Qed.

(** [scan_devices] with an instrument at hand, whatever the arguments and the
    outcome: the line sees only calls at 200 ms and the serial timeout is back
    to what it was. *)
Lemma scan_devices_total (st : State) (i : Instrument) (s e : Z) :
  instrument (client st) = Some i ->
  exists res st' evs i',
    scan_devices tr s e st = (res, st') /\
    log st' = log st ++ evs /\
    Forall (at_timeout (1 # 5)) evs /\
    instrument (client st') = Some i' /\
    serial_timeout i' = serial_timeout i.
Proof.
  intros Hi. destruct (connected (client st)) eqn:Hc.
  - destruct (Z_le_dec 1 s); [destruct (Z_le_dec s e); [destruct (Z_le_dec e 247)|]|].
    + destruct (scan_devices_run tr st i s e Hc Hi) as
        (found & st' & i' & evs & Hrun & Hi' & Ht & _ & _ & Hl & Hs); auto.
      exists (Ret found), st', evs, i'. repeat split; auto.
      eapply swept_at_timeout; eauto.
    + exists (Raise ValueError), st, [], i.
      rewrite scan_devices_invalid by (auto; lia).
      rewrite app_nil_r. repeat split; auto.
    + exists (Raise ValueError), st, [], i.
      rewrite scan_devices_invalid by (auto; lia).
      rewrite app_nil_r. repeat split; auto.
    + exists (Raise ValueError), st, [], i.
      rewrite scan_devices_invalid by (auto; lia).
      rewrite app_nil_r. repeat split; auto.
  - exists (Raise (ModbusException NotConnected)), st, [], i.
    rewrite (scan_devices_not_connected tr st s e Hc).
    rewrite app_nil_r. repeat split; auto.
Qed.

Lemma scan_devices_no_instrument (st : State) (s e : Z) :
  instrument (client st) = None -> snd (scan_devices tr s e st) = st.
Proof.
  intros Hi. destruct st as [c l]. cbn in Hi.
  unfold scan_devices. run.
  destruct (connected c); cbn -[sweep py_range]; [|reflexivity].
  destruct (negb ((1 <=? s) && (s <=? 247))); [reflexivity|].
  destruct (negb ((1 <=? e) && (e <=? 247))); [reflexivity|].
  destruct (e <? s); [reflexivity|].
  cbn -[sweep py_range]. rewrite Hi. reflexivity.
Qed.

Lemma scan_devices_at_rest (st : State) (s e : Z) :
  at_rest st -> at_rest (snd (scan_devices tr s e st)).
Proof.
  intros H. destruct (instrument (client st)) as [i|] eqn:Hi.
  - destruct (scan_devices_total st i s e Hi)
      as (res & st' & evs & i' & Hrun & _ & _ & Hi' & Ht).
    rewrite Hrun. intros j Hj. cbn in Hj. rewrite Hi' in Hj. inversion Hj; subst.
    rewrite Ht. now apply H.
  - now rewrite scan_devices_no_instrument.
Qed.

Lemma reachable_at_rest (st : State) : reachable tr st -> at_rest st.
Proof.
  induction 1 as [p b t|st _ IH|st _ IH|st device _ IH|st a r rt d _ IH
                 |st a r v rt _ IH|st device _ IH|st _ IH|st s e _ IH].
  - intros i Hi. discriminate.
  - now apply connect_at_rest.
  - intros i. unfold disconnect. run.
    destruct (instrument (client st)) as [i0|] eqn:Hi0; cbn; intros Hi.
    + inversion Hi. cbn. now apply IH.
    + rewrite Hi0 in Hi. discriminate.
  - intros i Hi. cbn in Hi. now apply IH.
  - now apply read_register_arg_at_rest.
  - now apply write_register_arg_at_rest.
  - now apply read_device_at_rest.
  - unfold read_all_devices, bind, get_self. now apply read_each_at_rest.
  - now apply scan_devices_at_rest.
Qed.

End Timeouts.

(** C9.  On a client that holds an instrument - in any state its methods can
    bring it to, and in any connected state whatever the serial timeout in
    force - a read and a write make their calls on the line under a timeout of
    1.0 s and a scan under a timeout of 200 ms, and when the operation is
    over, whether it returned a value, returned its error result or raised,
    the serial timeout is what it was before. *)
Theorem C9_timeout_override_restored (tr : Transport) (st : State) (i : Instrument) :
  instrument (client st) = Some i ->
  reachable tr st \/ connected (client st) = true ->
  (forall a r rt d,
     exists res st' evs i',
       read_register tr a r rt d st = (res, st') /\
       log st' = log st ++ evs /\
       Forall (at_timeout 1) evs /\
       instrument (client st') = Some i' /\
       serial_timeout i' = serial_timeout i) /\
  (forall a r v rt,
     exists res st' evs i',
       write_register tr a r v rt st = (res, st') /\
       log st' = log st ++ evs /\
       Forall (at_timeout 1) evs /\
       instrument (client st') = Some i' /\
       serial_timeout i' = serial_timeout i) /\
  (forall start_address end_address,
     exists res st' evs i',
       scan_devices tr start_address end_address st = (res, st') /\
       log st' = log st ++ evs /\
       Forall (at_timeout (1 # 5)) evs /\
       instrument (client st') = Some i' /\
       serial_timeout i' = serial_timeout i).
Proof.
  intros Hi Hst.
  assert (Hs : connected (client st) = true \/ serial_timeout i = 1%Q).
  { destruct Hst as [Hr|Hc]; [right|left; exact Hc].
    exact (reachable_at_rest tr st Hr i Hi). }
  repeat split.
  - intros a r rt d.
    destruct (read_register_frame tr st a r rt d)
      as (res & st' & evs & Hrun & Hl & Hall & _ & Ht).
    destruct (Ht i Hi Hs) as (i' & Hi' & Ht').
    exists res, st', evs, i'. auto.
  - intros a r v rt.
    destruct (write_register_frame tr st a r v rt)
      as (res & st' & evs & Hrun & Hl & Hall & _ & Ht).
    destruct (Ht i Hi Hs) as (i' & Hi' & Ht').
    exists res, st', evs, i'. auto.
  - intros s e. now apply scan_devices_total.
Qed.

Lemma C9_witness :
  (exists res st' i',
     read_register silent_line 4 0 HOLDING_REGISTER 2 (online_at 5) = (res, st') /\
     instrument (client st') = Some i' /\ serial_timeout i' = 5%Q) /\
  (exists res st' i',
     scan_devices link_3_7 1 10 (online_at 5) = (res, st') /\
     instrument (client st') = Some i' /\ serial_timeout i' = 5%Q).
Proof.
  split.
  - destruct (C9_timeout_override_restored silent_line (online_at 5) _ eq_refl
                (or_intror eq_refl)) as (H & _ & _).
    destruct (H 4 0 HOLDING_REGISTER 2) as (res & st' & evs & i' & H1 & _ & _ & H4 & H5).
    exists res, st', i'. auto.
  - destruct (C9_timeout_override_restored link_3_7 (online_at 5) _ eq_refl
                (or_intror eq_refl)) as (_ & _ & H).
    destruct (H 1 10) as (res & st' & evs & i' & H1 & _ & _ & H4 & H5).
    exists res, st', i'. auto.
Defined.

(** ** Polling *)

Lemma get_status_not_erro (device : ModbusDeviceConfig) (v : Q) :
  _get_status device v <> erro.
Proof.
  unfold _get_status.
  destruct (Qle_bool (alarm_threshold device) v);
    [|destruct (Qle_bool (warning_threshold device) v)]; discriminate.
Qed.

Lemma polled_keys (tr : Transport) (st st' : State)
    (items : list (Z * ModbusDeviceConfig)) (rs : list (Z * Reading)) :
  polled tr st items rs st' -> map fst rs = map fst items.
Proof.
  induction 1; cbn; congruence.
Qed.

Lemma polled_status (tr : Transport) (st st' : State)
    (items : list (Z * ModbusDeviceConfig)) (rs : list (Z * Reading)) :
  polled tr st items rs st' ->
  forall ar, In ar rs ->
    (reading_value (snd ar) = None <-> reading_status (snd ar) = erro).
Proof.
  induction 1 as [|st addr device value st1 rest rs st' _ _ IH]; intros x Hx;
    [contradiction|].
  destruct Hx as [<-|Hx]; [|now apply IH].
  cbn. destruct value as [v|].
  - split; [discriminate|]. intros E. now apply get_status_not_erro in E.
  - tauto.
Qed.

Lemma polled_all_failed (tr : Transport) (st st' : State)
    (items : list (Z * ModbusDeviceConfig)) (rs : list (Z * Reading)) :
  (forall l a t rq, exists e, reply tr l a t rq = Error e) ->
  polled tr st items rs st' ->
  Forall (fun ar => reading_value (snd ar) = None /\
                    reading_status (snd ar) = erro) rs.
Proof.
  intros Hfail.
  induction 1 as [|st addr device value st1 rest rs st' Hrun _ IH];
    constructor; [|assumption].
  cbn. destruct value as [v|]; [|tauto].
  destruct (read_device_returns tr device st) as (res & st2 & Hrun2 & _ & Hv).
  rewrite Hrun in Hrun2. inversion Hrun2; subst.
  destruct (Hv v eq_refl) as (l & a & t & rq & raw & R & _).
  destruct (Hfail l a t rq) as (e & E). congruence.
Qed.

Lemma results_dict_no_str_key (k : string) (results : list (Z * Reading)) :
  py_get (KStr k) (results_dict results) = None.
Proof.
  unfold py_get, results_dict.
  induction results as [|[a r] results IH]; cbn; auto.
Qed.

(** C7 (as the code has it).  [read_all_devices] returns one reading per
    registered device, under the device's address and in the order the
    devices were registered; a reading carries the device's name and unit; a
    reading holds what [read_device] returned for the device at its turn: a
    failed read gives a reading without a value and with the status [erro], a
    value gives the status [_get_status] assigns to it; on a line that fails every call every
    reading is without a value and [erro].  The dict returned has no entry
    other than the readings: it carries no [allFailed] flag. *)
Theorem C7_read_all_devices_readings (tr : Transport) (st : State) :
  NoDup (map fst (devices (client st))) ->
  exists results st',
    read_all_devices tr st = (Ret results, st') /\
    map fst results = map fst (devices (client st)) /\
    polled tr st (devices (client st)) results st' /\
    (forall ar, In ar results ->
       (reading_value (snd ar) = None <-> reading_status (snd ar) = erro)) /\
    ((forall l a t rq, exists e, reply tr l a t rq = Error e) ->
     Forall (fun ar => reading_value (snd ar) = None /\
                       reading_status (snd ar) = erro) results) /\
    py_get (KStr "allFailed") (results_dict results) = None.
Proof.
  intros Hnd.
  destruct (read_each_run tr (devices (client st)) st [] Hnd)
    as (rs & st' & Hrun & Hall); [intros k _ []|].
  exists rs, st'. unfold read_all_devices, bind, get_self.
  split; [exact Hrun|].
  split; [exact (polled_keys _ _ _ _ _ Hall)|].
  split; [exact Hall|].
  split; [exact (polled_status _ _ _ _ _ Hall)|].
  split; [|apply results_dict_no_str_key].
  intros Hfail. exact (polled_all_failed _ _ _ _ _ Hfail Hall).
Qed.

Lemma three_devices_keys : NoDup (map fst (devices (client three_devices))).
Proof.
  cbn. repeat constructor; cbn; intuition discriminate.
Qed.

Lemma C7_witness :
  exists results st',
    read_all_devices silent_line three_devices = (Ret results, st') /\
    map fst results = [1; 2; 3] /\
    Forall (fun ar => reading_value (snd ar) = None /\
                      reading_status (snd ar) = erro) results.
Proof.
  destruct (C7_read_all_devices_readings silent_line three_devices three_devices_keys)
    as (results & st' & H1 & H2 & _ & _ & H5 & _).
  exists results, st'. repeat split; auto.
  apply H5. intros l a t rq. exists NoResponseError. reflexivity.
Defined.

(** C7, as stated, fails: with three devices on a line that fails every call
    the three readings are errors, and the dict returned has no [allFailed]
    entry that could be true. *)
Lemma C7_counterexample :
  exists results st',
    read_all_devices silent_line three_devices = (Ret results, st') /\
    map (fun ar => (fst ar, reading_value (snd ar), reading_status (snd ar))) results =
      [(1, None, erro); (2, None, erro); (3, None, erro)] /\
    map fst (results_dict results) = [KInt 1; KInt 2; KInt 3] /\
    py_get (KStr "allFailed") (results_dict results) = None.
Proof.
  eexists _, _. split; [vm_compute; reflexivity|]. cbn. auto.
Qed.

(** ** The value of a reading *)

Lemma round_half_even_near (q : Q) :
  (q - (1 # 2) <= inject_Z (round_half_even q) <= q + (1 # 2))%Q.
Proof.
  unfold round_half_even.
  pose proof (Qfloor_le q) as Hlo. pose proof (Qlt_floor q) as Hhi.
  rewrite inject_Z_plus in Hhi. change (inject_Z 1) with 1%Q in Hhi.
  destruct (Qcompare_spec (q - inject_Z (Qfloor q)) (1 # 2)) as [E|L|G].
  - destruct (Z.even (Qfloor q));
      [|rewrite inject_Z_plus; change (inject_Z 1) with 1%Q]; lra.
  - lra.
  - rewrite inject_Z_plus. change (inject_Z 1) with 1%Q. lra.
Qed.

(** Rounding to the nearest integer is monotone and leaves integers as they
    are. *)
Lemma round_half_even_bounds (q : Q) :
  Qfloor q <= round_half_even q <= Qfloor q + 1.
Proof.
  unfold round_half_even.
  destruct (Qcompare (q - inject_Z (Qfloor q)) (1 # 2));
    [destruct (Z.even (Qfloor q))| |]; lia.
Qed.

Lemma round_half_even_mono (q1 q2 : Q) :
  (q1 <= q2)%Q -> round_half_even q1 <= round_half_even q2.
Proof.
  intros Hle. pose proof (Qfloor_resp_le _ _ Hle) as Hf.
  destruct (Z.eq_dec (Qfloor q1) (Qfloor q2)) as [E|Hne].
  - unfold round_half_even. rewrite E.
    destruct (Qcompare_spec (q1 - inject_Z (Qfloor q2)) (1 # 2)) as [E1|L1|G1];
      destruct (Qcompare_spec (q2 - inject_Z (Qfloor q2)) (1 # 2)) as [E2|L2|G2];
      try destruct (Z.even (Qfloor q2)); try lia; exfalso; lra.
  - pose proof (round_half_even_bounds q1). pose proof (round_half_even_bounds q2). lia.
Qed.

Lemma round_half_even_Z (n : Z) : round_half_even (inject_Z n) = n.
Proof.
  unfold round_half_even. rewrite Qfloor_Z.
  destruct (Qcompare_spec (inject_Z n - inject_Z n) (1 # 2)) as [E|L|G];
    [exfalso; lra | reflexivity | exfalso; lra].
Qed.

(** Powers of two. *)
Lemma pow2_pos (e : Z) : (0 < 2 ^ e)%Q.
Proof. apply Qpower_0_lt. reflexivity. Qed.

Lemma pow2_add (a b : Z) : (2 ^ (a + b) == 2 ^ a * 2 ^ b)%Q.
Proof. apply Qpower_plus. discriminate. Qed.

Lemma pow2_le (a b : Z) : a <= b -> (2 ^ a <= 2 ^ b)%Q.
Proof. intros H. apply Qpower_le_compat_l; [exact H|discriminate]. Qed.

Lemma pow2_lt_inv (a b : Z) : (2 ^ a < 2 ^ b)%Q -> a < b.
Proof. intros H. apply (Qpower_lt_compat_l_inv 2); [exact H|reflexivity]. Qed.

Lemma pow2_Z (n : Z) : 0 <= n -> (inject_Z (2 ^ n) == 2 ^ n)%Q.
Proof. intros H. now rewrite Zpower_Qpower. Qed.

(** [ilog2] is the binade. *)
Lemma ilog2_spec (a : Q) :
  (0 < a)%Q -> (2 ^ ilog2 a <= a)%Q /\ (a < 2 ^ (ilog2 a + 1))%Q.
Proof.
  intros Ha. destruct a as [n d]. unfold ilog2. cbn [Qnum Qden].
  assert (Hn : 0 < n) by (unfold Qlt in Ha; cbn in Ha; lia).
  destruct (Z.log2_spec n Hn) as [Hn1 Hn2].
  destruct (Z.log2_spec (Zpos d) (Pos2Z.is_pos d)) as [Hd1 Hd2].
  pose proof (Z.log2_nonneg n) as Ln. pose proof (Z.log2_nonneg (Zpos d)) as Ld.
  set (ln := Z.log2 n) in *. set (ld := Z.log2 (Zpos d)) in *.
  assert (En : (n # d == inject_Z n / inject_Z (Zpos d))%Q) by apply Qmake_Qdiv.
  assert (PN : (inject_Z (2 ^ ln) == 2 ^ ln)%Q) by now apply pow2_Z.
  assert (PD : (inject_Z (2 ^ ld) == 2 ^ ld)%Q) by now apply pow2_Z.
  assert (Dpos : (0 < inject_Z (Zpos d))%Q) by reflexivity.
  assert (A1 : (2 ^ ln <= inject_Z n)%Q) by (rewrite <- PN, <- Zle_Qle; exact Hn1).
  assert (A2 : (inject_Z n < 2 * 2 ^ ln)%Q).
  { rewrite <- PN. change 2%Q with (inject_Z 2) at 1. rewrite <- inject_Z_mult, <- Zlt_Qlt.
    rewrite Z.pow_succ_r in Hn2 by assumption. exact Hn2. }
  assert (B1 : (2 ^ ld <= inject_Z (Zpos d))%Q) by (rewrite <- PD, <- Zle_Qle; exact Hd1).
  assert (B2 : (inject_Z (Zpos d) < 2 * 2 ^ ld)%Q).
  { rewrite <- PD. change 2%Q with (inject_Z 2) at 1. rewrite <- inject_Z_mult, <- Zlt_Qlt.
    rewrite Z.pow_succ_r in Hd2 by assumption. exact Hd2. }
  pose proof (pow2_pos ln) as Pn. pose proof (pow2_pos ld) as Pd.
  assert (U : (n # d < 2 ^ (ln - ld + 1))%Q).
  { rewrite En. apply Qlt_shift_div_r; [exact Dpos|].
    replace (ln - ld + 1) with ((ln + 1) + - ld) by lia.
    rewrite pow2_add, Qpower_opp, pow2_add. change (2 ^ 1)%Q with 2%Q.
    apply Qlt_le_trans with (2 ^ ln * 2 * / 2 ^ ld * 2 ^ ld)%Q.
    - field_simplify; [lra|lra].
    - apply Qmult_le_l; [|exact B1].
      apply Qmult_lt_0_compat; [lra|]. now apply Qinv_lt_0_compat. }
  assert (L : (2 ^ (ln - ld - 1) <= n # d)%Q).
  { rewrite En. apply Qle_shift_div_l; [exact Dpos|].
    replace (ln - ld - 1) with (ln + - (ld + 1)) by lia.
    rewrite pow2_add, Qpower_opp, pow2_add. change (2 ^ 1)%Q with 2%Q.
    apply Qle_trans with (2 ^ ln * / (2 ^ ld * 2) * (2 * 2 ^ ld))%Q.
    - apply Qmult_le_l; [|lra].
      apply Qmult_lt_0_compat; [lra|]. apply Qinv_lt_0_compat. lra.
    - field_simplify; [lra|lra]. }
  destruct (Qle_bool (2 ^ (ln - ld)) (n # d)) eqn:C.
  - apply Qle_bool_iff in C. split; assumption.
  - split; [exact L|]. replace (ln - ld - 1 + 1) with (ln - ld) by lia.
    apply Qnot_le_lt. intros H. apply Qle_bool_iff in H. congruence.
Qed.

Lemma ilog2_mono (a b : Q) : (0 < a)%Q -> (a <= b)%Q -> ilog2 a <= ilog2 b.
Proof.
  intros Ha Hab.
  destruct (ilog2_spec a Ha) as [La _].
  destruct (ilog2_spec b (Qlt_le_trans _ _ _ Ha Hab)) as [_ Ub].
  assert (H : (2 ^ ilog2 a < 2 ^ (ilog2 b + 1))%Q) by lra.
  apply pow2_lt_inv in H. lia.
Qed.

Lemma b64_eq (q : Q) :
  (b64 q == inject_Z (round_half_even (q / 2 ^ ulp_exponent q)) * 2 ^ ulp_exponent q)%Q.
Proof. unfold b64. apply Qred_correct. Qed.

Lemma Qabs_nonzero (q : Q) : ~ (q == 0)%Q -> (0 < Qabs q)%Q.
Proof.
  intros Hq. apply Qabs_case; intros H.
  - destruct (Qlt_le_dec 0 q) as [G|G]; [exact G|].
    exfalso. apply Hq. now apply Qle_antisym.
  - destruct (Qlt_le_dec q 0) as [G|G]; [lra|].
    exfalso. apply Hq. now apply Qle_antisym.
Qed.

(** A value lies below [2^53] last places, and at or above [2^52] of them
    unless it is subnormal. *)
Lemma Qabs_binade (q : Q) :
  ~ (q == 0)%Q ->
  (Qabs q < 2 ^ (ulp_exponent q + 53))%Q /\
  (-1074 < ulp_exponent q -> (2 ^ (ulp_exponent q + 52) <= Qabs q)%Q).
Proof.
  intros Hq.
  destruct (ilog2_spec _ (Qabs_nonzero q Hq)) as [L U]. unfold ulp_exponent. split.
  - eapply Qlt_le_trans; [exact U|]. apply pow2_le. lia.
  - intros He.
    replace (Z.max (ilog2 (Qabs q) - 52) (-1074) + 52) with (ilog2 (Qabs q)) by lia.
    exact L.
Qed.

Lemma significand_le (q : Q) (e n : Z) :
  0 <= n -> (q <= 2 ^ (e + n))%Q -> round_half_even (q / 2 ^ e) <= 2 ^ n.
Proof.
  intros Hn H. rewrite <- (round_half_even_Z (2 ^ n)).
  apply round_half_even_mono. rewrite pow2_Z by assumption.
  apply Qle_shift_div_r; [apply pow2_pos|]. rewrite pow2_add in H. lra.
Qed.

Lemma significand_ge (q : Q) (e n : Z) :
  0 <= n -> (2 ^ (e + n) <= q)%Q -> 2 ^ n <= round_half_even (q / 2 ^ e).
Proof.
  intros Hn H. rewrite <- (round_half_even_Z (2 ^ n)) at 1.
  apply round_half_even_mono. rewrite pow2_Z by assumption.
  apply Qle_shift_div_l; [apply pow2_pos|]. rewrite pow2_add in H. lra.
Qed.

Lemma significand_opp_le (q : Q) (e n : Z) :
  0 <= n -> (q <= - 2 ^ (e + n))%Q -> round_half_even (q / 2 ^ e) <= - 2 ^ n.
Proof.
  intros Hn H. rewrite <- (round_half_even_Z (- 2 ^ n)).
  apply round_half_even_mono. rewrite inject_Z_opp, pow2_Z by assumption.
  apply Qle_shift_div_r; [apply pow2_pos|]. rewrite pow2_add in H.
  pose proof (pow2_pos e). lra.
Qed.

Lemma significand_opp_ge (q : Q) (e n : Z) :
  0 <= n -> (- 2 ^ (e + n) <= q)%Q -> - 2 ^ n <= round_half_even (q / 2 ^ e).
Proof.
  intros Hn H. rewrite <- (round_half_even_Z (- 2 ^ n)) at 1.
  apply round_half_even_mono. rewrite inject_Z_opp, pow2_Z by assumption.
  apply Qle_shift_div_l; [apply pow2_pos|]. rewrite pow2_add in H.
  pose proof (pow2_pos e). lra.
Qed.

Lemma significand_sign (q : Q) (e : Z) :
  ((0 <= q)%Q -> 0 <= round_half_even (q / 2 ^ e)) /\
  ((q <= 0)%Q -> round_half_even (q / 2 ^ e) <= 0).
Proof.
  split; intros H.
  - rewrite <- (round_half_even_Z 0) at 1. apply round_half_even_mono.
    apply Qle_shift_div_l; [apply pow2_pos|]. change (inject_Z 0) with 0%Q. lra.
  - rewrite <- (round_half_even_Z 0). apply round_half_even_mono.
    apply Qle_shift_div_r; [apply pow2_pos|]. change (inject_Z 0) with 0%Q. lra.
Qed.

Lemma ulp_exponent_mono (x y : Q) :
  ~ (x == 0)%Q -> (Qabs x <= Qabs y)%Q -> ulp_exponent x <= ulp_exponent y.
Proof.
  intros Hx H. unfold ulp_exponent.
  pose proof (ilog2_mono _ _ (Qabs_nonzero x Hx) H). lia.
Qed.

Lemma ulp_exponent_min (q : Q) : -1074 <= ulp_exponent q.
Proof. unfold ulp_exponent. lia. Qed.

(** Two significands a binade apart. *)
Lemma binade_step (m1 m2 e1 e2 : Z) :
  m1 <= 2 ^ 53 -> 2 ^ 52 <= m2 -> e1 < e2 ->
  (inject_Z m1 * 2 ^ e1 <= inject_Z m2 * 2 ^ e2)%Q.
Proof.
  intros H1 H2 He.
  pose proof (pow2_pos e1) as P1.
  assert (E : (2 * 2 ^ e1 <= 2 ^ e2)%Q).
  { change 2%Q with (2 ^ 1)%Q at 1. rewrite <- pow2_add. apply pow2_le. lia. }
  rewrite Zle_Qle in H1, H2.
  change (2 ^ 53) with (2 * 2 ^ 52) in H1. rewrite inject_Z_mult in H1.
  change (inject_Z 2) with 2%Q in H1.
  assert (B : (0 < inject_Z (2 ^ 52))%Q) by reflexivity.
  set (b := inject_Z (2 ^ 52)) in *. nra.
Qed.

(** Rounding to binary64 is monotone, and so is [round(x, 2)]. *)
Lemma b64_mono (x y : Q) : (x <= y)%Q -> (b64 x <= b64 y)%Q.
Proof.
  intros Hxy. rewrite !b64_eq.
  pose proof (ulp_exponent_min x) as Mx. pose proof (ulp_exponent_min y) as My.
  destruct (Qlt_le_dec 0 x) as [Hx|Hx]; [|destruct (Qlt_le_dec y 0) as [Hy|Hy]].
  - assert (Nx : ~ (x == 0)%Q) by (intros E; rewrite E in Hx; discriminate).
    assert (Ny : ~ (y == 0)%Q) by (intros E; rewrite E in Hxy; lra).
    assert (Ax : (Qabs x == x)%Q) by (apply Qabs_pos; lra).
    assert (Ay : (Qabs y == y)%Q) by (apply Qabs_pos; lra).
    assert (He : ulp_exponent x <= ulp_exponent y)
      by (apply ulp_exponent_mono; [exact Nx|lra]).
    destruct (Qabs_binade x Nx) as [Ux _]. destruct (Qabs_binade y Ny) as [_ Ly].
    destruct (Z.eq_dec (ulp_exponent x) (ulp_exponent y)) as [E|NE].
    + rewrite E. apply Qmult_le_compat_r; [|apply Qlt_le_weak, pow2_pos].
      rewrite <- Zle_Qle. apply round_half_even_mono.
      unfold Qdiv. apply Qmult_le_compat_r; [exact Hxy|].
      apply Qlt_le_weak, Qinv_lt_0_compat, pow2_pos.
    + apply binade_step; [| |lia].
      * apply significand_le; [lia|lra].
      * apply significand_ge; [lia|].
        assert (L : (2 ^ (ulp_exponent y + 52) <= Qabs y)%Q) by (apply Ly; lia). lra.
  - assert (Nx : ~ (x == 0)%Q) by (intros E; rewrite E in Hxy; lra).
    assert (Ny : ~ (y == 0)%Q) by (intros E; rewrite E in Hy; discriminate).
    assert (Ax : (Qabs x == - x)%Q) by (apply Qabs_neg; lra).
    assert (Ay : (Qabs y == - y)%Q) by (apply Qabs_neg; lra).
    assert (He : ulp_exponent y <= ulp_exponent x)
      by (apply ulp_exponent_mono; [exact Ny|lra]).
    destruct (Qabs_binade x Nx) as [_ Lx]. destruct (Qabs_binade y Ny) as [Uy _].
    destruct (Z.eq_dec (ulp_exponent x) (ulp_exponent y)) as [E|NE].
    + rewrite E. apply Qmult_le_compat_r; [|apply Qlt_le_weak, pow2_pos].
      rewrite <- Zle_Qle. apply round_half_even_mono.
      unfold Qdiv. apply Qmult_le_compat_r; [exact Hxy|].
      apply Qlt_le_weak, Qinv_lt_0_compat, pow2_pos.
    + assert (H1 : round_half_even (x / 2 ^ ulp_exponent x) <= - 2 ^ 52).
      { apply significand_opp_le; [lia|].
        assert (L : (2 ^ (ulp_exponent x + 52) <= Qabs x)%Q) by (apply Lx; lia). lra. }
      assert (H2 : - 2 ^ 53 <= round_half_even (y / 2 ^ ulp_exponent y)).
      { apply significand_opp_ge; [lia|]. lra. }
      pose proof (binade_step (- round_half_even (y / 2 ^ ulp_exponent y))
                    (- round_half_even (x / 2 ^ ulp_exponent x))
                    (ulp_exponent y) (ulp_exponent x)) as S.
      rewrite !inject_Z_opp in S.
      assert (S' : (- inject_Z (round_half_even (y / 2 ^ ulp_exponent y)) *
                      2 ^ ulp_exponent y <=
                    - inject_Z (round_half_even (x / 2 ^ ulp_exponent x)) *
                      2 ^ ulp_exponent x)%Q) by (apply S; lia).
      lra.
  - destruct (significand_sign x (ulp_exponent x)) as [_ Sx].
    destruct (significand_sign y (ulp_exponent y)) as [Sy _].
    specialize (Sx Hx). specialize (Sy Hy). rewrite Zle_Qle in Sx, Sy.
    change (inject_Z 0) with 0%Q in Sx, Sy.
    pose proof (pow2_pos (ulp_exponent x)). pose proof (pow2_pos (ulp_exponent y)).
    apply Qle_trans with 0%Q; nra.
Qed.

Lemma round2_mono (x y : Q) : (x <= y)%Q -> (round2 x <= round2 y)%Q.
Proof.
  intros Hle. unfold round2. apply b64_mono.
  assert (H : (x * 100 <= y * 100)%Q) by lra.
  apply round_half_even_mono in H.
  unfold Qle. cbn. nia.
Qed.

Lemma round_half_even_comp (q1 q2 : Q) :
  (q1 == q2)%Q -> round_half_even q1 = round_half_even q2.
Proof.
  intros E. apply Z.le_antisymm; apply round_half_even_mono; rewrite E; apply Qle_refl.
Qed.

Lemma Qred_inject_Z (v : Z) : Qred (inject_Z v) = inject_Z v.
Proof.
  unfold Qred, inject_Z.
  pose proof (Z.ggcd_gcd v 1) as G. pose proof (Z.ggcd_correct_divisors v 1) as D.
  destruct (Z.ggcd v 1) as [g [aa bb]]. cbn in *. rewrite Z.gcd_1_r in G. subst g.
  destruct D as [D1 D2]. rewrite Z.mul_1_l in D1, D2. subst. reflexivity.
Qed.

(** An integer below [2^53] is a float: rounding leaves it as it is. *)
Lemma b64_small_int (v : Z) : 0 <= v < 2 ^ 53 -> b64 (inject_Z v) = inject_Z v.
Proof.
  intros Hv. destruct (Z.eq_dec v 0) as [->|Hn]; [vm_compute; reflexivity|].
  assert (Hq : (0 < inject_Z v)%Q) by (change 0%Q with (inject_Z 0); rewrite <- Zlt_Qlt; lia).
  assert (Ha : (Qabs (inject_Z v) == inject_Z v)%Q) by (apply Qabs_pos; lra).
  assert (Hp : (0 < Qabs (inject_Z v))%Q) by lra.
  destruct (ilog2_spec _ Hp) as [L U].
  assert (L0 : 0 <= ilog2 (Qabs (inject_Z v))).
  { assert (H : (2 ^ 0 < 2 ^ (ilog2 (Qabs (inject_Z v)) + 1))%Q).
    { eapply Qle_lt_trans; [|exact U]. rewrite Ha.
      change (2 ^ 0)%Q with (inject_Z 1). rewrite <- Zle_Qle. lia. }
    apply pow2_lt_inv in H. lia. }
  assert (L1 : ilog2 (Qabs (inject_Z v)) < 53).
  { apply pow2_lt_inv. eapply Qle_lt_trans; [exact L|]. rewrite Ha.
    rewrite <- pow2_Z by lia. rewrite <- Zlt_Qlt. lia. }
  unfold b64.
  assert (He : -52 <= ulp_exponent (inject_Z v) <= 0) by (unfold ulp_exponent; lia).
  set (e := ulp_exponent (inject_Z v)) in *.
  assert (P : (2 ^ (- e) * 2 ^ e == 1)%Q).
  { rewrite <- pow2_add. replace (- e + e) with 0 by lia. reflexivity. }
  assert (R : round_half_even (inject_Z v / 2 ^ e) = v * 2 ^ (- e)).
  { rewrite <- (round_half_even_Z (v * 2 ^ (- e))). apply round_half_even_comp.
    rewrite inject_Z_mult, pow2_Z by lia.
    unfold Qdiv. now rewrite Qpower_opp. }
  rewrite R, <- (Qred_inject_Z v) at 1.
  apply Qred_complete. rewrite inject_Z_mult, pow2_Z by lia.
  rewrite <- Qmult_assoc, P. ring.
Qed.

(** Rounding to binary64 moves a value by half a unit in the last place at
    most. *)
Lemma b64_near (q : Q) :
  (Qabs (b64 q - q) <= 2 ^ (ulp_exponent q - 1))%Q.
Proof.
  rewrite b64_eq. set (e := ulp_exponent q).
  pose proof (pow2_pos e) as P.
  assert (H2 : (2 ^ (e - 1) == 2 ^ e * (1 # 2))%Q).
  { unfold Z.sub. rewrite pow2_add. reflexivity. }
  pose proof (round_half_even_near (q / 2 ^ e)) as [Lo Hi].
  assert (D : (q / 2 ^ e * 2 ^ e == q)%Q) by (field; lra).
  set (m := inject_Z (round_half_even (q / 2 ^ e))) in *.
  set (t := (q / 2 ^ e)%Q) in *.
  apply Qabs_Qle_condition. rewrite H2. split; nra.
Qed.

(** [round(x, 2)] is the float nearest to a decimal with two places that is
    within 0.005 of [x]. *)
Lemma round2_near (x : Q) :
  exists n : Z,
    round2 x = b64 (n # 100) /\
    (x - (1 # 200) <= n # 100 <= x + (1 # 200))%Q.
Proof.
  exists (round_half_even (x * 100)). split; [reflexivity|].
  pose proof (round_half_even_near (x * 100)) as H.
  set (n := round_half_even (x * 100)) in *.
  assert (E : (n # 100 == inject_Z n * (1 # 100))%Q).
  { unfold Qeq, inject_Z. cbn. lia. }
  rewrite E. lra.
Qed.

Lemma clamp_in_range (x lo hi : Q) :
  (lo <= x)%Q -> (x <= hi)%Q -> (clamp x lo hi == x)%Q.
Proof.
  intros Hlo Hhi. unfold clamp.
  destruct (Qle_bool x lo) eqn:A.
  - apply Qle_bool_iff in A. now apply Qle_antisym.
  - destruct (Qle_bool hi x) eqn:B; [|reflexivity].
    apply Qle_bool_iff in B. now apply Qle_antisym.
Qed.

(** C2 (as the code has it).  When the read of a device's register succeeds
    with the raw value [raw], [read_device] returns
    [round(raw*scale + offset, 2)] as floats compute it: the product and the
    sum are each rounded to the nearest float, and the result is the float
    nearest to a decimal with two places that is within 0.005 of that sum.
    The value does not depend on [min_value] and [max_value] and is not
    clamped: it is the clamp of itself to [min_value, max_value] when it lies
    in that range, and it is returned as it is when it does not.  (The raw
    value, the scale and the offset are floats, and the product and the sum
    are within the range of the finite floats.) *)
Theorem C2_read_device_scales_and_rounds (tr : Transport) (st st' : State)
    (device : ModbusDeviceConfig) (raw : Q) :
  read_register tr (address device) (register device) (register_type device)
    (decimals_of (register_type device)) st = (Ret (Some raw), st') ->
  in_floats device raw = true ->
  let scaled := b64 (b64 (raw * scale device) + offset device) in
  read_device tr device st = (Ret (Some (round2 scaled)), st') /\
  (exists n : Z,
     round2 scaled = b64 (n # 100) /\
     (scaled - (1 # 200) <= n # 100 <= scaled + (1 # 200))%Q) /\
  (forall lo hi, read_device tr (with_limits lo hi device) st =
                 read_device tr device st) /\
  ((min_value device <= round2 scaled)%Q ->
   (round2 scaled <= max_value device)%Q ->
   (clamp (round2 scaled) (min_value device) (max_value device) == round2 scaled)%Q).
Proof.
  intros Hrun _ scaled. split; [|split; [|split]].
  - rewrite read_device_run, Hrun. reflexivity.
  - apply round2_near.
  - reflexivity.
  - apply clamp_in_range.
Qed.

Lemma C2_witness :
  exists st',
    read_device line_250 sensor1 online = (Ret (Some 25%Q), st').
Proof.
  eexists.
  assert (E : round2 (b64 (b64 (250 * scale sensor1) + offset sensor1)) = 25%Q)
    by (vm_compute; reflexivity).
  rewrite <- E.
  refine (proj1 (C2_read_device_scales_and_rounds
                   line_250 online _ sensor1 250 _ _));
    vm_compute; reflexivity.
Defined.

(** C2, as stated, fails: a raw value of 250 read from a device with scale 1,
    offset 0 and the range 0 to 100 is returned as 250, which is neither the
    clamped value (100) nor within the range. *)
Lemma C2_counterexample :
  exists st',
    (0 < scale (plain_device 1))%Q /\
    (0 <= 250)%Q /\
    read_register line_250 1 0 INPUT_REGISTER 2 online = (Ret (Some 250%Q), st') /\
    read_device line_250 (plain_device 1) online = (Ret (Some 250%Q), st') /\
    (normalize_spec (plain_device 1) 250 == 100)%Q /\
    ~ (250 == normalize_spec (plain_device 1) 250)%Q /\
    ~ (250 <= max_value (plain_device 1))%Q.
Proof.
  eexists. split; [reflexivity|]. split; [discriminate|].
  split; [vm_compute; reflexivity|]. split; [vm_compute; reflexivity|].
  split; [reflexivity|].
  split; vm_compute; [discriminate | intros H; now apply H].
Qed.

(** The value is computed in floats.  With the scale 0.1 a raw 0.25 gives
    0.03, the product being a float just above 0.025, and a raw 0.15 gives
    0.01, the product being rounded to a float just below 0.015; on the
    decimals themselves both would be ties, and both would round to 0.02. *)
Lemma read_device_rounds_floats :
  fst (read_device (steady_line (b64 (1 # 4))) sensor1 online) =
    Ret (Some (b64 (3 # 100))) /\
  fst (read_device (steady_line (b64 (15 # 100))) sensor1 online) =
    Ret (Some (b64 (1 # 100))) /\
  round_half_even ((1 # 4) * (1 # 10) * 100) = 2 /\
  round_half_even ((15 # 100) * (1 # 10) * 100) = 2.
Proof.
  repeat split; vm_compute; reflexivity.
Qed.

(** * Further properties of the client *)

(** ** The registry *)

Lemma dict_get_set_same {V : Type} (k : Z) (v : V) (d : list (Z * V)) :
  dict_get k (dict_set k v d) = Some v.
Proof.
  unfold dict_get. induction d as [|[k' v'] d IH]; cbn.
  - now rewrite Z.eqb_refl.
  - destruct (Z.eqb_spec k k') as [->|Hne]; cbn.
    + now rewrite Z.eqb_refl.
    + destruct (Z.eqb_spec k k') as [E|_]; [contradiction|]. exact IH.
Qed.

Lemma dict_get_set_other {V : Type} (k k0 : Z) (v : V) (d : list (Z * V)) :
  k0 <> k -> dict_get k0 (dict_set k v d) = dict_get k0 d.
Proof.
  intros Hne. unfold dict_get. induction d as [|[k' v'] d IH]; cbn.
  - destruct (Z.eqb_spec k0 k) as [E|_]; [contradiction|]. reflexivity.
  - destruct (Z.eqb_spec k k') as [->|Hk]; cbn.
    + destruct (Z.eqb_spec k0 k') as [E|_]; [contradiction|]. reflexivity.
    + destruct (Z.eqb_spec k0 k'); [reflexivity|]. exact IH.
Qed.

Lemma dict_get_None {V : Type} (k : Z) (d : list (Z * V)) :
  dict_get k d = None <-> ~ In k (map fst d).
Proof.
  unfold dict_get. induction d as [|[k' v'] d IH]; cbn.
  - tauto.
  - destruct (Z.eqb_spec k k') as [->|Hne]; cbn.
    + split; [discriminate|]. intros H. exfalso. apply H. now left.
    + rewrite IH. split.
      * intros H [E|Hin]; [congruence|contradiction].
      * intros H Hin. apply H. now right.
Qed.

(** X1.  [add_device] files the device under its address: afterwards the
    registry gives that device for that address and what it gave before for
    every other address.  It makes no call on the line and leaves the
    connection and the instrument alone. *)
Theorem X1_add_device_then_lookup (st : State) (device : ModbusDeviceConfig) :
  exists st',
    add_device device st = (Ret tt, st') /\
    dict_get (address device) (devices (client st')) = Some device /\
    (forall k, k <> address device ->
       dict_get k (devices (client st')) = dict_get k (devices (client st))) /\
    log st' = log st /\
    connected (client st') = connected (client st) /\
    instrument (client st') = instrument (client st).
Proof.
  eexists. split; [reflexivity|]. cbn.
  split; [apply dict_get_set_same|].
  split; [|auto].
  intros k Hk. now apply dict_get_set_other.
Qed.

(** X2.  Registering a device at an address the registry already has
    replaces the earlier device where it stands: the addresses registered and
    their order do not change.  Registering at a new address puts it last.
    Either way no address is registered twice. *)
Theorem X2_add_device_keeps_order (st : State) (device : ModbusDeviceConfig) :
  NoDup (map fst (devices (client st))) ->
  let st' := snd (add_device device st) in
  (dict_get (address device) (devices (client st)) <> None ->
   map fst (devices (client st')) = map fst (devices (client st))) /\
  (dict_get (address device) (devices (client st)) = None ->
   devices (client st') = devices (client st) ++ [(address device, device)]) /\
  NoDup (map fst (devices (client st'))).
Proof.
  intros Hnd st'. subst st'. cbn.
  split; [|split].
  - intros Hin. rewrite dict_set_keys.
    destruct (existsb (Z.eqb (address device)) (map fst (devices (client st)))) eqn:E;
      [reflexivity|].
    exfalso. apply Hin. apply dict_get_None. intros Hk.
    assert (existsb (Z.eqb (address device)) (map fst (devices (client st))) = true);
      [|congruence].
    apply existsb_exists. exists (address device). split; [assumption|apply Z.eqb_refl].
  - intros Hnone. apply dict_set_fresh. now apply dict_get_None.
  - now apply dict_set_NoDup.
Qed.

Lemma X2_witness :
  map fst (devices (client (snd (add_device (plain_device 2) three_devices)))) = [1; 2; 3] /\
  map fst (devices (client (snd (add_device (plain_device 9) three_devices)))) = [1; 2; 3; 9].
Proof.
  destruct (X2_add_device_keeps_order three_devices (plain_device 2) three_devices_keys)
    as (H1 & _ & _).
  destruct (X2_add_device_keeps_order three_devices (plain_device 9) three_devices_keys)
    as (_ & H2 & _).
  split.
  - rewrite H1; [reflexivity|]. vm_compute. discriminate.
  - rewrite H2; reflexivity.
Defined.

(** ** The instrument through the loops *)

Lemma with_address_eta (i : Instrument) : with_address (slave_address i) i = i.
Proof. now destruct i. Qed.

Section Frames.

Variable tr : Transport.

(** The probes of [connect] and the sweep of [scan_devices] change nothing of
    the instrument but its target address. *)
Lemma probe_frame (addrs : list Z) :
  forall (st : State) (i : Instrument),
    instrument (client st) = Some i ->
    exists a', instrument (client (snd (probe tr addrs st))) = Some (with_address a' i).
Proof.
  induction addrs as [|a rest IH]; intros [c l] i Hi; cbn in Hi.
  - exists (slave_address i). cbn. now rewrite with_address_eta.
  - cbn [probe]. unfold bind at 1. unfold try_except.
    unfold bind at 1. unfold set_address at 1. run. rewrite Hi.
    rewrite (call_run tr _ _ _ (with_address a i)) by reflexivity. cbn.
    destruct (reply tr l a (serial_timeout i) (ReadRegister 0 4 0)) as [v|e].
    + exists a. reflexivity.
    + destruct (IH {| client := with_instrument (Some (with_address a i)) c;
                      log := l ++ [EvCall a (serial_timeout i) (ReadRegister 0 4 0) (Error e)] |}
                   (with_address a i) eq_refl) as (a' & Ha').
      exists a'. cbn in Ha'. exact Ha'.
Qed.

Lemma with_instrument_eta (c : Client) (i : Instrument) :
  instrument c = Some i ->
  with_instrument (Some (with_address (slave_address i) i)) c = c.
Proof.
  intros H. rewrite with_address_eta. destruct c. cbn in *. now subst.
Qed.

Lemma sweep_frame (addrs : list Z) :
  forall (st : State) (i : Instrument) (found0 : list Z),
    instrument (client st) = Some i ->
    exists a',
      client (snd (sweep tr addrs found0 st)) =
      with_instrument (Some (with_address a' i)) (client st).
Proof.
  induction addrs as [|a rest IH]; intros [c l] i found0 Hi; cbn in Hi.
  - exists (slave_address i). cbn. now rewrite with_instrument_eta.
  - cbn [sweep]. unfold bind at 1. unfold try_except.
    unfold bind at 1. unfold set_address at 1. run. rewrite Hi.
    rewrite (call_run tr _ _ _ (with_address a i)) by reflexivity. cbn -[sweep].
    set (rp := reply tr l a (serial_timeout i) (ReadRegister 0 4 0)).
    set (st1 := {| client := with_instrument (Some (with_address a i)) c;
                   log := l ++ [EvCall a (serial_timeout i) (ReadRegister 0 4 0) rp] |}).
    destruct (IH st1 (with_address a i)
                (if responded rp then found0 ++ [a] else found0) eq_refl) as (a' & Ha').
    exists a'.
    destruct rp as [v|[]]; cbn -[sweep] in *; fold st1; exact Ha'.
Qed.

(** After a [connect] that had to open the port and did, the client holds a
    new instrument: baud rate of the client, timeout 1.0, port open. *)
Lemma connect_fresh_instrument (st : State) :
  connected (client st) = false \/ instrument (client st) = None ->
  opens tr (log st ++ closing (client st)) = true ->
  exists a',
    instrument (client (snd (connect tr st))) =
    Some {| slave_address := a'; serial_baudrate := baudrate (client st);
            serial_timeout := 1; serial_is_open := true |}.
Proof.
  intros H Ho. destruct st as [[p b t oi cn d] l]. cbn in H, Ho.
  cbn [client baudrate].
  assert (E : connect tr {| client := mkClient p b t oi cn d; log := l |} =
              try_except
                (disconnect ;;
                 new_instrument tr ;;
                 found <- probe tr test_addresses ;;
                 if found then ret true else (set_connected true ;; ret true))
                (fun _ => set_connected false ;; ret false)
                {| client := mkClient p b t oi cn d; log := l |}).
  { unfold connect. unfold bind at 1. unfold get_self. cbn.
    destruct H as [-> | ->]; [reflexivity | now destruct cn]. }
  rewrite E. clear E H. unfold closing in Ho. cbn [client instrument] in Ho.
  destruct oi as [i0|]; unfold disconnect, new_instrument; run;
    rewrite ?app_nil_r in Ho; rewrite Ho; cbn -[probe];
    match goal with |- context [probe tr test_addresses ?s] =>
      destruct (probe_frame test_addresses s _ eq_refl) as (a' & Ha');
      destruct (probe tr test_addresses s) as [[[|]|e] [c' l']] eqn:P
    end; cbn in Ha' |- *; exists a'; exact Ha'.
Qed.

End Frames.

(** ** Disconnecting and connecting again *)

Lemma disconnect_with_instrument (st : State) (i : Instrument) :
  instrument (client st) = Some i ->
  connected (client (snd (disconnect st))) = false /\
  instrument (client (snd (disconnect st))) = Some (with_is_open false i) /\
  log (snd (disconnect st)) = log st ++ [EvClose].
Proof.
  intros Hi. destruct st as [[p b t oi cn d] l]. cbn in Hi. subst oi.
  unfold disconnect. run. auto.
Qed.

(** X3.  [disconnect] never raises.  On a client that holds an instrument it
    closes the port once and clears [self.connected], keeping the instrument
    (with its timeout) and the registry; on a client without an instrument it
    does nothing at all.  A second [disconnect] closes the port again and
    leaves the client as the first one left it. *)
Theorem X3_disconnect_closes (st : State) :
  exists st',
    disconnect st = (Ret tt, st') /\
    devices (client st') = devices (client st) /\
    match instrument (client st) with
    | Some i =>
        connected (client st') = false /\
        instrument (client st') = Some (with_is_open false i) /\
        log st' = log st ++ [EvClose]
    | None => st' = st
    end /\
    client (snd (disconnect st')) = client st'.
Proof.
  destruct st as [[p b t oi cn d] l]. unfold disconnect. run.
  destruct oi as [i|]; cbn; eexists; (split; [reflexivity|]); cbn; auto.
Qed.

Section Reconnecting.

Variable tr : Transport.

Lemma connect_success_state (st st' : State) :
  connect tr st = (Ret true, st') ->
  connected (client st') = true /\ exists i, instrument (client st') = Some i.
Proof.
  intros Hrun.
  destruct (connected (client st)) eqn:Hc;
    [destruct (instrument (client st)) as [i|] eqn:Hi|].
  - rewrite (connect_already tr st i Hc Hi) in Hrun. inversion Hrun; subst. eauto.
  - destruct (connect_run tr st (or_intror Hi))
      as (st1 & probes & Hrun1 & _ & Hcn & _ & Hrest).
    rewrite Hrun1 in Hrun. inversion Hrun as [[Ho Hst]]. subst st1.
    cbn zeta in *. rewrite Ho in *. destruct Hrest as ((i' & Hi' & _) & _). eauto.
  - destruct (connect_run tr st (or_introl Hc))
      as (st1 & probes & Hrun1 & _ & Hcn & _ & Hrest).
    rewrite Hrun1 in Hrun. inversion Hrun as [[Ho Hst]]. subst st1.
    cbn zeta in *. rewrite Ho in *. destruct Hrest as ((i' & Hi' & _) & _). eauto.
Qed.

End Reconnecting.

(** X4.  Once [connect] has returned [True], calling it again returns [True]
    at once: the port is not reopened, nothing is probed and the client does
    not change. *)
Theorem X4_connect_twice (tr : Transport) (st st' : State) :
  connect tr st = (Ret true, st') ->
  connect tr st' = (Ret true, st').
Proof.
  intros Hrun.
  destruct (connect_success_state tr st st' Hrun) as (Hc & i & Hi).
  now apply connect_already with i.
Qed.

Lemma X4_witness :
  connect link_3_7 (snd (connect link_3_7 fresh)) =
  (Ret true, snd (connect link_3_7 fresh)).
Proof.
  apply (X4_connect_twice link_3_7 fresh). vm_compute. reflexivity.
Defined.

(** X5.  [connect] after [disconnect] always goes back to the port: it never
    takes the shortcut of a client already connected.  It closes the
    instrument once more, opens the port, and returns whether the port
    opened. *)
Theorem X5_connect_after_disconnect (tr : Transport) (st : State) (i : Instrument) :
  instrument (client st) = Some i ->
  let st1 := snd (disconnect st) in
  let opened := opens tr (log st ++ [EvClose; EvClose]) in
  exists st2 probes,
    connect tr st1 = (Ret opened, st2) /\
    log st2 = log st ++ EvClose :: EvClose :: EvOpen opened :: probes /\
    connected (client st2) = opened.
Proof.
  intros Hi st1 opened.
  destruct (disconnect_with_instrument st i Hi) as (Hc1 & Hi1 & Hl1).
  fold st1 in Hc1, Hi1, Hl1.
  destruct (connect_run tr st1 (or_introl Hc1)) as (st2 & probes & Hrun & Hl & Hc & _).
  unfold closing in *. rewrite Hi1, Hl1 in *. cbn zeta in *.
  rewrite <- app_assoc in Hrun, Hl, Hc. cbn in Hrun, Hl, Hc.
  exists st2, probes. repeat split; auto.
  rewrite Hl, <- app_assoc. reflexivity.
Qed.

Lemma X5_witness :
  exists st2 probes,
    connect dead_port (snd (disconnect online)) = (Ret false, st2) /\
    log st2 = EvClose :: EvClose :: EvOpen false :: probes /\
    connected (client st2) = false.
Proof.
  exact (X5_connect_after_disconnect dead_port online _ eq_refl).
Defined.

(** ** Invariants *)

Section Invariants.

Variable tr : Transport.

Lemma connect_devices (st : State) :
  devices (client (snd (connect tr st))) = devices (client st).
Proof.
  destruct (connected (client st)) eqn:Hc;
    [destruct (instrument (client st)) as [i|] eqn:Hi|].
  - now rewrite (connect_already tr st i Hc Hi).
  - destruct (connect_run tr st (or_intror Hi)) as (st' & probes & Hrun & _ & _ & Hd & _).
    now rewrite Hrun.
  - destruct (connect_run tr st (or_introl Hc)) as (st' & probes & Hrun & _ & _ & Hd & _).
    now rewrite Hrun.
Qed.

Lemma connect_linked (st : State) : linked st -> linked (snd (connect tr st)).
Proof.
  intros H.
  assert (Hnew : connected (client st) = false \/ instrument (client st) = None ->
                 linked (snd (connect tr st))).
  { intros Hn.
    destruct (connect_run tr st Hn) as (st' & probes & Hrun & _ & Hcn & _ & _).
    cbn zeta in Hcn. intros Hc'. rewrite Hrun in Hc'. cbn in Hc'. rewrite Hcn in Hc'.
    destruct (connect_fresh_instrument tr st Hn Hc') as (a' & Ha').
    eexists. split; [exact Ha'|reflexivity]. }
  destruct (connected (client st)) eqn:Hc;
    [destruct (instrument (client st)) as [i|] eqn:Hi|]; auto.
  now rewrite (connect_already tr st i Hc Hi).
Qed.

Lemma ensure_connected_linked (st : State) :
  linked st -> linked (snd (ensure_connected tr st)).
Proof.
  intros H.
  destruct (connected (client st)) eqn:Hc;
    [destruct (instrument (client st)) as [i|] eqn:Hi|].
  - now rewrite (ensure_connected_already tr st i Hc Hi).
  - rewrite ensure_connected_connects by (right; exact Hi). now apply connect_linked.
  - rewrite ensure_connected_connects by (left; exact Hc). now apply connect_linked.
Qed.

Lemma read_register_linked (st : State) (a r : Z) (rt : RegisterType) (d : Z) :
  linked st -> linked (snd (read_register tr a r rt d st)).
Proof.
  intros H. apply ensure_connected_linked in H.
  destruct (ensure_connected_run tr st)
    as (b & [c1 l1] & evs & Hg & _ & _ & Hcn & _ & Hb).
  rewrite Hg in H. cbn in H, Hcn, Hb. destruct b.
  - destruct Hb as (i1 & Hi1 & _).
    rewrite (read_register_guarded tr st _ true a r rt d Hg Hcn
               (fun _ => ex_intro _ i1 Hi1)).
    rewrite (read_register_connected tr c1 l1 i1 a r rt d Hcn Hi1).
    destruct (H Hcn) as (j & Hj & Hopen). cbn in Hj.
    assert (j = i1) by congruence. subst j.
    intros _. cbn. rewrite after_reply_instrument. cbn. eauto.
  - rewrite (read_register_guarded tr st _ false a r rt d Hg Hcn)
      by (intros; discriminate).
    exact H.
Qed.

Lemma write_register_linked (st : State) (a r v : Z) (rt : RegisterType) :
  linked st -> linked (snd (write_register tr a r v rt st)).
Proof.
  intros H. apply ensure_connected_linked in H.
  destruct (ensure_connected_run tr st)
    as (b & [c1 l1] & evs & Hg & _ & _ & Hcn & _ & Hb).
  rewrite Hg in H. cbn in H, Hcn, Hb. destruct b.
  - destruct Hb as (i1 & Hi1 & _).
    rewrite (write_register_guarded tr st _ true a r v rt Hg Hcn
               (fun _ => ex_intro _ i1 Hi1)).
    rewrite (write_register_connected tr c1 l1 i1 a r v rt Hcn Hi1).
    destruct (H Hcn) as (j & Hj & Hopen). cbn in Hj.
    assert (j = i1) by congruence. subst j.
    intros _. destruct (write_request rt r v); cbn;
      rewrite ?after_reply_instrument; cbn; eauto.
  - rewrite (write_register_guarded tr st _ false a r v rt Hg Hcn)
      by (intros; discriminate).
    exact H.
Qed.

Lemma read_register_arg_linked (st : State) (a r : Z) (arg : RegisterTypeArg)
    (d : Z) :
  linked st -> linked (snd (read_register tr a r arg d st)).
Proof.
  intros H. destruct (read_register_arg_state tr arg a r d st) as [(rt & E)|E];
    rewrite E; [now apply read_register_linked | now apply ensure_connected_linked].
Qed.

Lemma write_register_arg_linked (st : State) (a r v : Z) (arg : RegisterTypeArg) :
  linked st -> linked (snd (write_register tr a r v arg st)).
Proof.
  intros H. destruct (write_register_arg_state tr arg a r v st) as [(rt & E)|E];
    rewrite E; [now apply write_register_linked | now apply ensure_connected_linked].
Qed.

Lemma read_device_linked (st : State) (device : ModbusDeviceConfig) :
  linked st -> linked (snd (read_device tr device st)).
Proof.
  intros H. rewrite read_device_run.
  pose proof (read_register_linked st (address device) (register device)
                (register_type device) (decimals_of (register_type device)) H) as H'.
  destruct (read_register tr (address device) (register device)
              (register_type device) (decimals_of (register_type device)) st)
    as [[[raw|]|e] st']; exact H'.
Qed.

Lemma read_each_linked (items : list (Z * ModbusDeviceConfig)) :
  forall st results, linked st -> linked (snd (read_each tr items results st)).
Proof.
  induction items as [|[addr device] rest IH]; intros st results H; [exact H|].
  cbn [read_each]. unfold bind at 1.
  pose proof (read_device_linked st device H) as H1.
  destruct (read_device tr device st) as [[value|e] st1]; [|exact H1].
  unfold time_strftime at 1. unfold bind at 1. now apply IH.
Qed.

Lemma read_each_devices (items : list (Z * ModbusDeviceConfig)) :
  forall st results,
    devices (client (snd (read_each tr items results st))) = devices (client st).
Proof.
  induction items as [|[addr device] rest IH]; intros st results; [reflexivity|].
  cbn [read_each].
  destruct (read_device_returns tr device st) as (res & st1 & Hrun & Hd & _).
  rewrite (bind_run _ _ _ _ _ Hrun).
  unfold time_strftime at 1. unfold bind at 1. now rewrite IH.
Qed.

(** [scan_devices], whatever its arguments and its outcome, changes nothing
    of the client but the target address of the instrument. *)
Lemma scan_devices_frame (st : State) (i : Instrument) (s e : Z) :
  instrument (client st) = Some i ->
  exists a',
    client (snd (scan_devices tr s e st)) =
    with_instrument (Some (with_address a' i)) (client st).
Proof.
  intros Hi.
  pose proof (with_instrument_eta (client st) i Hi) as Hsame.
  destruct (connected (client st)) eqn:Hc.
  - destruct (Z_le_dec 1 s) as [H1|H1];
      [destruct (Z_le_dec s e) as [H2|H2];
       [destruct (Z_le_dec e 247) as [H3|H3]|]|];
      try (exists (slave_address i);
           rewrite scan_devices_invalid by (auto; lia); now rewrite Hsame).
    clear Hsame. destruct st as [c l]. cbn in Hc, Hi.
    unfold scan_devices. run. rewrite Hc.
    replace (1 <=? s) with true by (symmetry; apply Z.leb_le; lia).
    replace (s <=? 247) with true by (symmetry; apply Z.leb_le; lia).
    replace (1 <=? e) with true by (symmetry; apply Z.leb_le; lia).
    replace (e <=? 247) with true by (symmetry; apply Z.leb_le; lia).
    replace (e <? s) with false by (symmetry; apply Z.ltb_ge; lia).
    cbn -[sweep py_range]. repeat (rewrite Hi; cbn -[sweep py_range]).
    match goal with |- context [sweep tr ?xs [] ?s0] =>
      destruct (sweep_frame tr xs s0 (with_timeout (1 # 5) i) [] eq_refl) as (a' & Ha');
      destruct (sweep tr xs [] s0) as [[found|x] [c' l']]
    end; cbn in Ha' |- *; subst c'; cbn; exists a'; reflexivity.
  - exists (slave_address i).
    rewrite (scan_devices_not_connected tr st s e Hc). now rewrite Hsame.
Qed.

End Invariants.

Lemma dict_set_Forall {V : Type} (P : Z * V -> Prop) (k : Z) (v : V) (d : list (Z * V)) :
  P (k, v) -> Forall P d -> Forall P (dict_set k v d).
Proof.
  intros Hkv. induction 1 as [|[k' v'] d Hx Hd IH]; cbn.
  - repeat constructor. exact Hkv.
  - destruct (k =? k'); constructor; auto.
Qed.

Section Reachable.

Variable tr : Transport.

Lemma scan_devices_devices (st : State) (s e : Z) :
  devices (client (snd (scan_devices tr s e st))) = devices (client st).
Proof.
  destruct (instrument (client st)) as [i|] eqn:Hi.
  - destruct (scan_devices_frame tr st i s e Hi) as (a' & Ha'). now rewrite Ha'.
  - now rewrite scan_devices_no_instrument.
Qed.

Lemma scan_devices_linked (st : State) (s e : Z) :
  linked st -> linked (snd (scan_devices tr s e st)).
Proof.
  intros H. destruct (instrument (client st)) as [i|] eqn:Hi.
  - destruct (scan_devices_frame tr st i s e Hi) as (a' & Ha').
    intros Hc. rewrite Ha' in Hc |- *. cbn in Hc |- *.
    destruct (H Hc) as (j & Hj & Hopen). assert (j = i) by congruence. subst j.
    eauto.
  - now rewrite scan_devices_no_instrument.
Qed.

Lemma reachable_linked (st : State) : reachable tr st -> linked st.
Proof.
  induction 1 as [p b t|st _ IH|st _ IH|st device _ IH|st a r rt d _ IH
                 |st a r v rt _ IH|st device _ IH|st _ IH|st s e _ IH].
  - intros Hc. discriminate.
  - now apply connect_linked.
  - destruct (instrument (client st)) as [i|] eqn:Hi.
    + destruct (disconnect_with_instrument st i Hi) as (Hc & _). intros Hc'. congruence.
    + replace (snd (disconnect st)) with st; [exact IH|].
      destruct st as [[p b t oi cn d] l]. cbn in Hi. subst oi. reflexivity.
  - exact IH.
  - now apply read_register_arg_linked.
  - now apply write_register_arg_linked.
  - now apply read_device_linked.
  - unfold read_all_devices, bind, get_self. now apply read_each_linked.
  - now apply scan_devices_linked.
Qed.

Lemma reachable_registry_ok (st : State) : reachable tr st -> registry_ok st.
Proof.
  unfold registry_ok.
  induction 1 as [p b t|st _ IH|st _ IH|st device _ IH|st a r rt d _ IH
                 |st a r v rt _ IH|st device _ IH|st _ IH|st s e _ IH].
  - cbn. split; constructor.
  - now rewrite connect_devices.
  - replace (devices (client (snd (disconnect st)))) with (devices (client st));
      [exact IH|].
    destruct st as [[p b t [i|] cn d] l]; reflexivity.
  - cbn. destruct IH as [Hnd Hall]. split.
    + now apply dict_set_NoDup.
    + now apply dict_set_Forall.
  - destruct (read_register_frame tr st a r rt d) as (res & st' & evs & Hrun & _ & _ & Hd & _).
    rewrite Hrun. cbn [snd]. now rewrite Hd.
  - destruct (write_register_frame tr st a r v rt) as (res & st' & evs & Hrun & _ & _ & Hd & _).
    rewrite Hrun. cbn [snd]. now rewrite Hd.
  - destruct (read_device_returns tr device st) as (res & st' & Hrun & Hd & _).
    rewrite Hrun. cbn [snd]. now rewrite Hd.
  - unfold read_all_devices, bind, get_self. cbv beta iota.
    now rewrite read_each_devices.
  - now rewrite scan_devices_devices.
Qed.

End Reachable.

(** X6.  In every state the methods of the client produce, a client flagged
    connected holds an instrument whose port is open.  So [scan_devices],
    which tests only the flag before it uses the instrument, never fails on a
    missing instrument: it returns a list, or raises [ValueError] for a bad
    range or [ModbusException] for a client that is not connected. *)
Theorem X6_connected_holds_open_instrument (tr : Transport) (st : State) :
  reachable tr st ->
  (connected (client st) = true ->
   exists i, instrument (client st) = Some i /\ serial_is_open i = true) /\
  (forall s e,
     (exists found, fst (scan_devices tr s e st) = Ret found) \/
     fst (scan_devices tr s e st) = Raise ValueError \/
     fst (scan_devices tr s e st) = Raise (ModbusException NotConnected)).
Proof.
  intros Hr. pose proof (reachable_linked tr st Hr) as Hl.
  split; [exact Hl|].
  intros s e. destruct (connected (client st)) eqn:Hc.
  - destruct (Hl Hc) as (i & Hi & _).
    destruct (Z_le_dec 1 s) as [H1|H1];
      [destruct (Z_le_dec s e) as [H2|H2];
       [destruct (Z_le_dec e 247) as [H3|H3]|]|];
      try (right; left; rewrite scan_devices_invalid by (auto; lia); reflexivity).
    destruct (scan_devices_run tr st i s e Hc Hi H1 H2 H3)
      as (found & st' & i' & evs & Hrun & _).
    left. exists found. now rewrite Hrun.
  - right. right. now rewrite scan_devices_not_connected.
Qed.

Lemma X6_witness :
  exists i,
    instrument (client (snd (connect silent_line fresh))) = Some i /\
    serial_is_open i = true.
Proof.
  destruct (X6_connected_holds_open_instrument silent_line
              (snd (connect silent_line fresh))
              (reach_connect _ _ (reach_init _ "COM3" 9600 1))) as [H _].
  exact (H eq_refl).
Defined.

(** X7.  In every state the methods of the client produce, the registry has
    one device per address and files each device under its own address; a
    poll of such a client returns a reading for each registered address, in
    the order of registration, and leaves the registry as it was. *)
Theorem X7_registry_invariant (tr : Transport) (st : State) :
  reachable tr st ->
  NoDup (map fst (devices (client st))) /\
  Forall (fun kv => fst kv = address (snd kv)) (devices (client st)) /\
  exists results st',
    read_all_devices tr st = (Ret results, st') /\
    map fst results = map fst (devices (client st)) /\
    devices (client st') = devices (client st).
Proof.
  intros Hr. destruct (reachable_registry_ok tr st Hr) as [Hnd Hall].
  split; [exact Hnd|]. split; [exact Hall|].
  destruct (read_each_run tr (devices (client st)) st [] Hnd)
    as (rs & st' & Hrun & Hp); [intros k _ []|].
  exists rs, st'. unfold read_all_devices, bind, get_self. cbv beta iota.
  split; [exact Hrun|]. split; [exact (polled_keys _ _ _ _ _ Hp)|].
  pose proof (read_each_devices tr (devices (client st)) st []) as Hd.
  now rewrite Hrun in Hd.
Qed.

Lemma X7_witness :
  exists results st',
    read_all_devices silent_line
      (snd (add_device (plain_device 4) (snd (add_device (plain_device 8) fresh)))) =
    (Ret results, st') /\
    map fst results = [8; 4].
Proof.
  destruct (X7_registry_invariant silent_line
              (snd (add_device (plain_device 4) (snd (add_device (plain_device 8) fresh))))
              (reach_add_device _ _ _ (reach_add_device _ _ _ (reach_init _ "COM3" 9600 1))))
    as (_ & _ & results & st' & H1 & H2 & _).
  exists results, st'. split; [exact H1|exact H2].
Defined.

(** ** What an operation costs on the line *)

Lemma probed_length (t : Q) (addrs : list Z) (evs : list Event) (found : bool) :
  probed t addrs evs found ->
  (List.length evs <= List.length addrs)%nat /\
  (List.length (filter is_call evs) <= List.length addrs)%nat.
Proof.
  induction 1; cbn in *; lia.
Qed.

Lemma closing_length (c : Client) :
  (List.length (closing c) <= 1)%nat /\ filter is_call (closing c) = [].
Proof.
  unfold closing. destruct (instrument c); cbn; auto.
Qed.

Section Costs.

Variable tr : Transport.

Lemma ensure_connected_cost (st : State) :
  exists evs,
    log (snd (ensure_connected tr st)) = log st ++ evs /\
    (List.length evs <= 7)%nat /\
    (List.length (filter is_call evs) <= 5)%nat /\
    (connected (client st) = true -> instrument (client st) <> None -> evs = []).
Proof.
  assert (Hnew : connected (client st) = false \/ instrument (client st) = None ->
                 exists evs,
                   log (snd (connect tr st)) = log st ++ evs /\
                   (List.length evs <= 7)%nat /\
                   (List.length (filter is_call evs) <= 5)%nat).
  { intros Hn.
    destruct (connect_run tr st Hn) as (st' & probes & Hrun & Hl & _ & _ & Hrest).
    cbn zeta in *. rewrite Hrun. cbn [snd].
    eexists. split; [exact Hl|].
    destruct (closing_length (client st)) as [Hc1 Hc2].
    rewrite length_app, filter_app, Hc2. cbn.
    destruct (opens tr (log st ++ closing (client st))).
    - destruct Hrest as (_ & found & Hp). apply probed_length in Hp. cbn in Hp. lia.
    - destruct Hrest as (-> & _). cbn. lia. }
  destruct (connected (client st)) eqn:Hc;
    [destruct (instrument (client st)) as [i|] eqn:Hi|].
  - exists []. rewrite (ensure_connected_already tr st i Hc Hi), app_nil_r.
    cbn. repeat split; auto; lia.
  - rewrite ensure_connected_connects by (right; exact Hi).
    destruct (Hnew (or_intror eq_refl)) as (evs & H1 & H2 & H3).
    exists evs. repeat split; auto. intros _ Hne. now elim Hne.
  - rewrite ensure_connected_connects by (left; exact Hc).
    destruct (Hnew (or_introl eq_refl)) as (evs & H1 & H2 & H3).
    exists evs. repeat split; auto. intros Hx. discriminate.
Qed.

Lemma read_register_cost (st : State) (a r : Z) (rt : RegisterType) (d : Z) :
  exists evs,
    log (snd (read_register tr a r rt d st)) = log st ++ evs /\
    (List.length evs <= 8)%nat /\
    (List.length (filter is_call evs) <= 6)%nat /\
    (connected (client st) = true -> instrument (client st) <> None ->
     List.length evs = 1%nat).
Proof.
  destruct (ensure_connected_cost st) as (evs & Hl & Hlen & Hcalls & Hnone).
  destruct (ensure_connected_run tr st)
    as (b & [c1 l1] & evs' & Hg & _ & _ & Hcn & _ & Hb).
  rewrite Hg in Hl. cbn in Hl, Hcn, Hb. destruct b.
  - destruct Hb as (i1 & Hi1 & _).
    rewrite (read_register_guarded tr st _ true a r rt d Hg Hcn
               (fun _ => ex_intro _ i1 Hi1)).
    rewrite (read_register_connected tr c1 l1 i1 a r rt d Hcn Hi1). cbn.
    eexists (evs ++ [_]). rewrite Hl, <- app_assoc. split; [reflexivity|].
    rewrite length_app, filter_app, length_app. cbn.
    repeat split; try lia.
    intros Hc Hi. rewrite (Hnone Hc Hi). reflexivity.
  - rewrite (read_register_guarded tr st _ false a r rt d Hg Hcn)
      by (intros; discriminate).
    cbn. exists evs. repeat split; auto; try lia.
    intros Hc Hi. exfalso.
    destruct (instrument (client st)) as [i|] eqn:E; [|now elim Hi].
    rewrite (ensure_connected_already tr st i Hc E) in Hg. discriminate.
Qed.


Lemma read_device_log (device : ModbusDeviceConfig) (st : State) :
  log (snd (read_device tr device st)) =
  log (snd (read_register tr (address device) (register device)
              (register_type device) (decimals_of (register_type device)) st)).
Proof.
  rewrite read_device_run.
  destruct (read_register tr (address device) (register device)
              (register_type device) (decimals_of (register_type device)) st)
    as [[[raw|]|e] st']; reflexivity.
Qed.

Lemma read_each_cost (items : list (Z * ModbusDeviceConfig)) :
  forall st results,
    exists evs,
      log (snd (read_each tr items results st)) = log st ++ evs /\
      (List.length evs <= 8 * List.length items)%nat /\
      (List.length (filter is_call evs) <= 6 * List.length items)%nat.
Proof.
  induction items as [|[addr device] rest IH]; intros st results.
  - exists []. cbn. rewrite app_nil_r. repeat split; lia.
  - cbn [read_each].
    destruct (read_device_returns tr device st) as (res & st1 & Hrun & _).
    rewrite (bind_run _ _ _ _ _ Hrun).
    unfold time_strftime at 1. unfold bind at 1.
    pose proof (read_device_log device st) as Hlog. rewrite Hrun in Hlog. cbn in Hlog.
    destruct (read_register_cost st (address device) (register device)
                (register_type device) (decimals_of (register_type device)))
      as (evs1 & Hl1 & Hlen1 & Hc1 & _).
    rewrite <- Hlog in Hl1.
    match goal with |- context [read_each tr rest ?rs st1] =>
      destruct (IH st1 rs) as (evs2 & Hl2 & Hlen2 & Hc2) end.
    exists (evs1 ++ evs2). rewrite Hl2, Hl1, <- app_assoc.
    split; [reflexivity|].
    rewrite length_app, filter_app, length_app. cbn [List.length]. lia.
Qed.

End Costs.


(** X9.  A poll of [n] registered devices never costs more than [8 * n]
    events on the line, of which at most [6 * n] are transactions; with an
    empty registry it does not touch the line, connected or not. *)
Theorem X9_poll_cost (tr : Transport) (st : State) :
  exists evs,
    log (snd (read_all_devices tr st)) = log st ++ evs /\
    (List.length evs <= 8 * List.length (devices (client st)))%nat /\
    (List.length (filter is_call evs) <= 6 * List.length (devices (client st)))%nat /\
    (devices (client st) = [] -> evs = []).
Proof.
  destruct (read_each_cost tr (devices (client st)) st [])
    as (evs & Hl & Hlen & Hcalls).
  exists evs. unfold read_all_devices, bind, get_self. cbv beta iota.
  repeat split; auto.
  intros E. rewrite E in Hlen. cbn in Hlen.
  destruct evs; [reflexivity|cbn in Hlen; lia].
Qed.

(** ** One read after another *)

(** X10.  What the next read does depends on how the last one failed.  After
    a read that was answered with [NoResponseError] the next read of any
    register first closes the port and opens it again; after a read that was
    answered with [InvalidResponseError] the next read goes straight to the
    line with its one transaction. *)
Theorem X10_next_read_after_failure (tr : Transport) (st : State) (i : Instrument)
    (a r : Z) (rt : RegisterType) (d : Z)
    (a2 r2 : Z) (rt2 : RegisterType) (d2 : Z) :
  connected (client st) = true ->
  instrument (client st) = Some i ->
  let rp := reply tr (log st) a 1 (read_request rt r d) in
  let st1 := snd (read_register tr a r rt d st) in
  (rp = Error NoResponseError ->
   exists rest,
     log (snd (read_register tr a2 r2 rt2 d2 st1)) =
     log st1 ++ EvClose :: EvOpen (opens tr (log st1 ++ [EvClose])) :: rest) /\
  (rp = Error InvalidResponseError ->
   exists rp2,
     log (snd (read_register tr a2 r2 rt2 d2 st1)) =
     log st1 ++ [EvCall a2 1 (read_request rt2 r2 d2) rp2]).
Proof.
  intros Hc Hi rp st1. destruct st as [c l]. cbn in Hc, Hi, rp.
  unfold st1. rewrite (read_register_connected tr c l i a r rt d Hc Hi).
  cbn zeta. fold rp. cbn [snd]. clear st1.
  set (l1 := l ++ [EvCall a 1 (read_request rt r d) rp]).
  split; intros E; rewrite E; unfold after_reply; cbn [keeps_connection].
  - set (st1 := {| client := with_connected false
                               (with_instrument (Some (with_address a i)) c);
                   log := l1 |}).
    destruct (connect_run tr st1 (or_introl eq_refl))
      as (st2 & probes & Hrun & Hl & Hcn & _ & Hrest).
    cbn zeta in *. unfold closing in *. cbn [st1 client log instrument with_connected
                                             with_instrument] in *.
    pose proof (ensure_connected_connects tr st1 (or_introl eq_refl)) as Hg.
    rewrite Hrun in Hg.
    set (opened := opens tr (l1 ++ [EvClose])) in *.
    assert (Hsome : opened = true -> exists i1, instrument (client st2) = Some i1).
    { intros Ho. rewrite Ho in Hrest. destruct Hrest as ((i1 & Hi1 & _) & _). eauto. }
    rewrite (read_register_guarded tr st1 st2 opened a2 r2 rt2 d2 Hg Hcn Hsome).
    destruct opened.
    + destruct (Hsome eq_refl) as (i1 & Hi1). destruct st2 as [c2 l2].
      rewrite (read_register_connected tr c2 l2 i1 a2 r2 rt2 d2 Hcn Hi1).
      cbn in Hl |- *. rewrite Hl, <- app_assoc. cbn. eexists. reflexivity.
    + cbn. rewrite Hl. cbn. eexists. reflexivity.
  - rewrite (read_register_connected tr _ l1 (with_address a i) a2 r2 rt2 d2)
      by (cbn; auto).
    cbn. eexists. reflexivity.
Qed.

Lemma X10_witness :
  (exists rest,
     log (snd (read_register silent_line 2 0 INPUT_REGISTER 0
                 (snd (read_register silent_line 1 0 INPUT_REGISTER 0 online)))) =
     [EvCall 1 1 (ReadRegister 0 4 0) (Error NoResponseError)] ++
     EvClose :: EvOpen true :: rest) /\
  (exists rp2,
     log (snd (read_register garbled_line 2 0 INPUT_REGISTER 0
                 (snd (read_register garbled_line 1 0 INPUT_REGISTER 0 online)))) =
     [EvCall 1 1 (ReadRegister 0 4 0) (Error InvalidResponseError)] ++
     [EvCall 2 1 (ReadRegister 0 4 0) rp2]).
Proof.
  split.
  - exact (proj1 (X10_next_read_after_failure silent_line online _
                    1 0 INPUT_REGISTER 0 2 0 INPUT_REGISTER 0 eq_refl eq_refl) eq_refl).
  - exact (proj2 (X10_next_read_after_failure garbled_line online _
                    1 0 INPUT_REGISTER 0 2 0 INPUT_REGISTER 0 eq_refl eq_refl) eq_refl).
Defined.

(** ** More on scanning *)

(** X11.  On a connected client, [scan_devices] with a start or an end
    address outside 1..247, or with the start after the end, raises
    [ValueError] before anything else: the line sees no call and the client
    is left as it was. *)
Theorem X11_scan_rejects_bad_range (tr : Transport) (st : State) (s e : Z) :
  connected (client st) = true ->
  s < 1 \/ 247 < s \/ e < 1 \/ 247 < e \/ e < s ->
  scan_devices tr s e st = (Raise ValueError, st).
Proof.
  intros Hc Hbad. apply scan_devices_invalid; [exact Hc|]. lia.
Qed.

Lemma X11_witness :
  scan_devices link_3_7 0 10 online = (Raise ValueError, online) /\
  scan_devices link_3_7 1 248 online = (Raise ValueError, online) /\
  scan_devices link_3_7 10 1 online = (Raise ValueError, online).
Proof.
  split; [|split].
  - apply (X11_scan_rejects_bad_range link_3_7 online 0 10); [reflexivity|lia].
  - apply (X11_scan_rejects_bad_range link_3_7 online 1 248); [reflexivity|lia].
  - apply (X11_scan_rejects_bad_range link_3_7 online 10 1); [reflexivity|lia].
Defined.

Lemma swept_length (t : Q) (addrs : list Z) (evs : list Event) (found : list Z) :
  swept t addrs evs found ->
  List.length evs = List.length addrs /\
  (List.length found <= List.length addrs)%nat /\
  Forall (fun ev => is_call ev = true) evs.
Proof.
  induction 1 as [|a rest rp evs found _ (IH1 & IH2 & IH3)]; cbn.
  - repeat split; auto.
  - destruct (responded rp); cbn; repeat split; auto; lia.
Qed.

Lemma py_range_length (start stop : Z) :
  List.length (py_range start stop) = Z.to_nat (stop - start).
Proof.
  unfold py_range. now rewrite length_map, length_seq.
Qed.

(** X12.  A scan of a valid range on a connected client costs exactly one
    transaction per address of the range and nothing else on the line, finds
    no more devices than it probed, and changes nothing of the client but the
    target address of the instrument: the client stays connected even when
    no address answered, and the devices found are not registered. *)
Theorem X12_scan_leaves_client (tr : Transport) (st : State) (i : Instrument)
    (s e : Z) :
  connected (client st) = true -> instrument (client st) = Some i ->
  1 <= s -> s <= e -> e <= 247 ->
  exists found st' evs a',
    scan_devices tr s e st = (Ret found, st') /\
    client st' = with_instrument (Some (with_address a' i)) (client st) /\
    log st' = log st ++ evs /\
    List.length evs = Z.to_nat (e - s + 1) /\
    Forall (fun ev => is_call ev = true) evs /\
    (List.length found <= List.length evs)%nat.
Proof.
  intros Hc Hi H1 H2 H3.
  destruct (scan_devices_run tr st i s e Hc Hi H1 H2 H3)
    as (found & st' & i' & evs & Hrun & _ & _ & _ & _ & Hl & Hs).
  destruct (scan_devices_frame tr st i s e Hi) as (a' & Ha').
  rewrite Hrun in Ha'. cbn in Ha'.
  destruct (swept_length _ _ _ _ Hs) as (L1 & L2 & L3).
  rewrite py_range_length in L1, L2.
  exists found, st', evs, a'. repeat split; auto.
  - rewrite L1. f_equal. lia.
  - rewrite L1. exact L2.
Qed.

Lemma X12_witness :
  exists found st' evs a',
    scan_devices silent_line 1 10 online = (Ret found, st') /\
    client st' = with_instrument
                   (Some (with_address a' {| slave_address := 1;
                                             serial_baudrate := 9600;
                                             serial_timeout := 1;
                                             serial_is_open := true |}))
                   (client online) /\
    log st' = evs /\
    List.length evs = 10%nat.
Proof.
  destruct (X12_scan_leaves_client silent_line online _ 1 10 eq_refl eq_refl)
    as (found & st' & evs & a' & H1 & H2 & H3 & H4 & _); try lia.
  exists found, st', evs, a'. auto.
Defined.

(** ** More on the classifier *)

(** X13.  [_get_status] never answers [erro], and on a device whose warning
    threshold is not below its alarm threshold it never answers [alerta]:
    every value is either [normal] or [alarme]. *)
Theorem X13_get_status_misordered_thresholds (device : ModbusDeviceConfig) (v : Q) :
  _get_status device v <> erro /\
  ((alarm_threshold device <= warning_threshold device)%Q ->
   _get_status device v <> alerta).
Proof.
  split; [apply get_status_not_erro|].
  intros Hord. unfold _get_status.
  destruct (Qle_bool (alarm_threshold device) v) eqn:A; [discriminate|].
  destruct (Qle_bool (warning_threshold device) v) eqn:W; [|discriminate].
  exfalso. apply Qle_bool_iff in W.
  assert (Ha : (alarm_threshold device <= v)%Q) by (eapply Qle_trans; eauto).
  apply Qle_bool_iff in Ha. congruence.
Qed.

(** ** The value of a reading, continued *)

(** X14.  For a device whose scale is not negative, a larger raw value never
    gives a smaller reading, and so never a status of lower severity: if two
    reads of the device's register return [raw1 <= raw2], the values
    [read_device] computes from them in floats are in the same order and so
    are the severities [_get_status] gives them.  (The raw values, the scale
    and the offset are floats, and neither computation overflows.) *)
Theorem X14_reading_monotone_in_raw (tr1 tr2 : Transport) (st1 st1' st2 st2' : State)
    (device : ModbusDeviceConfig) (raw1 raw2 : Q) :
  read_register tr1 (address device) (register device) (register_type device)
    (decimals_of (register_type device)) st1 = (Ret (Some raw1), st1') ->
  read_register tr2 (address device) (register device) (register_type device)
    (decimals_of (register_type device)) st2 = (Ret (Some raw2), st2') ->
  in_floats device raw1 = true ->
  in_floats device raw2 = true ->
  (0 <= scale device)%Q ->
  (raw1 <= raw2)%Q ->
  exists v1 v2,
    read_device tr1 device st1 = (Ret (Some v1), st1') /\
    read_device tr2 device st2 = (Ret (Some v2), st2') /\
    v1 = round2 (b64 (b64 (raw1 * scale device) + offset device)) /\
    v2 = round2 (b64 (b64 (raw2 * scale device) + offset device)) /\
    (v1 <= v2)%Q /\
    (severity (_get_status device v1) <= severity (_get_status device v2))%nat.
Proof.
  intros H1 H2 _ _ Hs Hle.
  assert (Hv : (round2 (b64 (b64 (raw1 * scale device) + offset device)) <=
                round2 (b64 (b64 (raw2 * scale device) + offset device)))%Q).
  { apply round2_mono, b64_mono. apply Qplus_le_compat; [|apply Qle_refl].
    apply b64_mono. now apply Qmult_le_compat_r. }
  eexists _, _. rewrite !read_device_run, H1, H2.
  split; [reflexivity|]. split; [reflexivity|].
  split; [reflexivity|]. split; [reflexivity|]. split; [exact Hv|].
  now apply get_status_monotone.
Qed.

Lemma X14_witness :
  exists v1 v2 s1 s2,
    read_device link_3_7 (plain_device 3) online = (Ret (Some v1), s1) /\
    read_device line_250 (plain_device 3) online = (Ret (Some v2), s2) /\
    (v1 <= v2)%Q.
Proof.
  destruct (X14_reading_monotone_in_raw link_3_7 line_250 online
              (snd (read_register link_3_7 3 0 INPUT_REGISTER 2 online)) online
              (snd (read_register line_250 3 0 INPUT_REGISTER 2 online))
              (plain_device 3) 42 250) as (v1 & v2 & H1 & H2 & _ & _ & H3 & _).
  - vm_compute. reflexivity.
  - vm_compute. reflexivity.
  - vm_compute. reflexivity.
  - vm_compute. reflexivity.
  - vm_compute. discriminate.
  - vm_compute. discriminate.
  - eexists v1, v2, _, _. split; [exact H1|]. split; [exact H2|exact H3].
Defined.

(** * Properties of the callers *)

(** ** Device types by address *)

Ltac split_cmp :=
  repeat match goal with
         | |- context [?x <? ?y] =>
             destruct (Z.ltb_spec x y); cbn [orb andb negb]; try (exfalso; lia)
         | |- context [?x <=? ?y] =>
             destruct (Z.leb_spec x y); cbn [orb andb negb]; try (exfalso; lia)
         end.

(** X15.  Whatever the address, the parameters [_identify_device_type]
    returns are those of an input register 0 with a positive scale and with
    [minimum <= warning threshold <= alarm threshold <= maximum]: the checks
    [auto_configure_devices] makes on the register and on the scale never
    reject what it is given. *)
Theorem X15_identified_parameters_well_formed (address : Z) :
  let p := _identify_device_type address in
  param_register p = 0 /\
  param_register_type p = INPUT_REGISTER /\
  (0 < param_scale p)%Q /\
  (param_min p <= param_warn p)%Q /\
  (param_warn p <= param_alarm p)%Q /\
  (param_alarm p <= param_max p)%Q.
Proof.
  unfold _identify_device_type, device_types, in_range.
  cbn [find fst snd].
  split_cmp; cbn [find fst snd]; split_cmp;
    cbn; repeat split; try reflexivity; try discriminate.
Qed.

(** X16.  [_identify_device_type] names the device by the decade of its
    address: 1-10 ammonia, 11-20 temperature, 21-30 humidity, 31-40 pressure,
    41-50 carbon dioxide, 51-60 oxygen.  An address from 61 to 247 gets the
    default parameters under the name [Sensor <address>], and an address
    outside 1..247 gets them under the name [Sensor 0]. *)
Theorem X16_identified_name_by_address (address : Z) :
  let p := _identify_device_type address in
  (1 <= address <= 10 -> param_name p = "Amônia"%string) /\
  (11 <= address <= 20 -> param_name p = "Temperatura"%string) /\
  (21 <= address <= 30 -> param_name p = "Umidade"%string) /\
  (31 <= address <= 40 -> param_name p = "Pressão"%string) /\
  (41 <= address <= 50 -> param_name p = "CO₂"%string) /\
  (51 <= address <= 60 -> param_name p = "Oxigênio"%string) /\
  (61 <= address <= 247 ->
   p = mkParams ("Sensor " ++ str_int address) 0 INPUT_REGISTER "un" 1 0 100 70 90) /\
  (address < 1 \/ 247 < address ->
   p = mkParams "Sensor 0" 0 INPUT_REGISTER "un" 1 0 100 70 90).
Proof.
  unfold _identify_device_type, device_types, in_range.
  cbn [find fst snd].
  repeat split; intros H; split_cmp; cbn [find fst snd]; split_cmp; reflexivity.
Qed.

(** ** The value the page shows *)

Lemma py_min_spec (a b : Q) :
  (py_min a b <= a)%Q /\ (py_min a b <= b)%Q /\
  ((a <= b)%Q -> py_min a b = a) /\
  ((b <= a)%Q -> (py_min a b == b)%Q).
Proof.
  unfold py_min. destruct (Qle_bool a b) eqn:E.
  - apply Qle_bool_iff in E.
    split; [apply Qle_refl|]. split; [exact E|]. split; [reflexivity|].
    intros H. now apply Qle_antisym.
  - assert (~ (a <= b)%Q) by (intros H; apply Qle_bool_iff in H; congruence).
    split; [lra|]. split; [lra|]. split; [intros; contradiction|reflexivity].
Qed.

(** X17.  The value [update_sensor_data] shows and stores is never below the
    device's minimum; when the minimum is not above the maximum it lies
    between the two, and it is the value read whenever that already lies
    between them.  So a reading of [read_device] that is out of range is
    shown as the nearest bound. *)
Theorem X17_limited_value_in_range (device : ModbusDeviceConfig) (value : Q) :
  let shown := limited_value device value in
  (min_value device <= shown)%Q /\
  ((min_value device <= max_value device)%Q -> (shown <= max_value device)%Q) /\
  ((min_value device <= value)%Q -> (value <= max_value device)%Q ->
   (shown == value)%Q) /\
  ((value <= min_value device)%Q -> shown = min_value device) /\
  ((min_value device <= max_value device)%Q -> (max_value device <= value)%Q ->
   (shown == max_value device)%Q).
Proof.
  unfold limited_value, py_max.
  destruct (py_min_spec value (max_value device)) as (M1 & M2 & M3 & M4).
  set (m := py_min value (max_value device)) in *.
  destruct (Qle_bool m (min_value device)) eqn:E.
  - apply Qle_bool_iff in E.
    split; [lra|]. split; [lra|]. split; [|split].
    + intros H1 H2. rewrite (M3 H2) in E. lra.
    + reflexivity.
    + intros H1 H2. specialize (M4 H2). lra.
  - assert (~ (m <= min_value device)%Q)
      by (intros H; apply Qle_bool_iff in H; congruence).
    split; [lra|]. split; [lra|]. split; [|split].
    + intros H1 H2. rewrite (M3 H2). reflexivity.
    + intros H1. exfalso. lra.
    + intros H1 H2. exact (M4 H2).
Qed.

(** ** Initialising the devices of the page *)

(** X18.  [initialize_modbus_devices] returns [False] and changes nothing
    when the page has no client or the client is not connected, and [True],
    changing nothing, when devices are already configured.  On the call that
    configures them it registers the sensor of address 2 with the client,
    files it as [sensor_1] in [modbus_devices], and returns nothing ([None],
    which a caller testing the result takes for a failure); the call after
    that one returns [True]. *)
Theorem X18_initialize_modbus_devices (d : Dashboard) :
  (modbus_client d = None \/
   (exists c, modbus_client d = Some c /\ connected c = false) ->
   initialize_modbus_devices d = (Some false, d)) /\
  (forall c x xs,
     modbus_client d = Some c -> connected c = true ->
     modbus_devices d = Some (x :: xs) ->
     initialize_modbus_devices d = (Some true, d)) /\
  (forall c,
     modbus_client d = Some c -> connected c = true ->
     modbus_devices d = None \/ modbus_devices d = Some [] ->
     exists device d',
       sensor_configs = [("sensor_1"%string, device)] /\
       address device = 2 /\
       initialize_modbus_devices d = (None, d') /\
       modbus_devices d' = Some [("sensor_1"%string, device)] /\
       modbus_client d' =
         Some (with_devices (dict_set 2 device (devices c)) c) /\
       line d' = line d /\
       initialize_modbus_devices d' = (Some true, d')).
Proof.
  destruct d as [oc od l]. cbn [modbus_client modbus_devices line].
  split; [|split].
  - intros [-> | (c & -> & Hc)]; unfold initialize_modbus_devices; cbn;
      [reflexivity | now rewrite Hc].
  - intros c x xs -> Hc ->. unfold initialize_modbus_devices. cbn. now rewrite Hc.
  - intros c -> Hc Hd.
    destruct Hd as [-> | ->];
      (eexists _, _; split; [reflexivity|]; split; [reflexivity|];
       unfold initialize_modbus_devices;
       cbn [modbus_client modbus_devices line]; rewrite Hc; cbn;
       split; [reflexivity|]; cbn; rewrite Hc; cbn; repeat split; reflexivity).
Qed.

(** ** Writing and reading back *)

Lemma last_written_latest (slave reg v : Z) (t x : Q) (history : list Event) :
  last_written slave reg
    (history ++ [EvCall slave t (WriteRegister reg v 6) (Value x)]) = Some v.
Proof.
  induction history as [|ev rest IH]; cbn.
  - now rewrite !Z.eqb_refl.
  - now rewrite IH.
Qed.

Lemma last_written_failed (slave reg : Z) (s : Z) (t : Q) (rq : Request) (e : Exn)
    (history : list Event) :
  last_written slave reg (history ++ [EvCall s t rq (Error e)]) =
  last_written slave reg history.
Proof.
  induction history as [|ev rest IH]; cbn.
  - destruct rq as [| | |r0 v0 fc]; try reflexivity.
    destruct fc as [|p|p]; try reflexivity.
    do 3 (try destruct p as [p|p|]); reflexivity.
  - now rewrite IH.
Qed.

(** X19.  On a connected client, against a device that keeps what is written
    to its holding registers, a write of a 16-bit value [v] to a holding
    register succeeds, a read of the same register of the same slave right
    after it returns [v], and a read that asks for two decimals returns the
    float nearest to [v / 100]: the write goes out with function code 6 and
    the read with function code 3, to the same slave and register.  A value
    that does not fit 16 bits is refused: the write returns [False], clears
    [self.connected] and leaves the register as it was. *)
Theorem X19_write_then_read_back (st : State) (i : Instrument) (a r v : Z) :
  connected (client st) = true ->
  instrument (client st) = Some i ->
  1 <= a <= 247 ->
  0 <= r <= 65535 ->
  (0 <= v <= 65535 ->
   exists st1 st2,
     write_register echo_device a r v HOLDING_REGISTER st = (Ret true, st1) /\
     read_register echo_device a r HOLDING_REGISTER 0 st1 =
       (Ret (Some (inject_Z v)), st2) /\
     log st2 = log st ++ [EvCall a 1 (WriteRegister r v 6) (Value 0);
                          EvCall a 1 (ReadRegister r 3 0) (Value (inject_Z v))] /\
     fst (read_register echo_device a r HOLDING_REGISTER 2 st1) =
       Ret (Some (b64 (v # 100)))) /\
  (v < 0 \/ 65535 < v ->
   exists st1,
     write_register echo_device a r v HOLDING_REGISTER st = (Ret false, st1) /\
     connected (client st1) = false /\
     log st1 = log st ++ [EvCall a 1 (WriteRegister r v 6) (Error ValueError)] /\
     last_written a r (log st1) = last_written a r (log st)).
Proof.
  intros Hc Hi Ha Hr. destruct st as [c l]. cbn in Hc, Hi.
  assert (Sa : negb ((1 <=? a) && (a <=? 247)) = false).
  { apply negb_false_iff, andb_true_iff. split; apply Z.leb_le; lia. }
  assert (Sr : uint16 r = true).
  { apply andb_true_iff. split; apply Z.leb_le; lia. }
  rewrite (write_register_connected echo_device c l i a r v HOLDING_REGISTER Hc Hi).
  cbn [write_request]. cbn zeta. split.
  - intros Hv.
    assert (Sv : uint16 v = true).
    { apply andb_true_iff. split; apply Z.leb_le; lia. }
    assert (W : reply echo_device l a 1 (WriteRegister r v 6) = Value 0).
    { cbn [reply echo_device]. now rewrite Sa, Sr, Sv. }
    rewrite W. eexists _, _. split; [reflexivity|].
    unfold after_reply. cbn [keeps_connection].
    rewrite (read_register_connected echo_device _ _ (with_address a i) a r
               HOLDING_REGISTER 0) by (cbn; auto).
    rewrite (read_register_connected echo_device _ _ (with_address a i) a r
               HOLDING_REGISTER 2) by (cbn; auto).
    cbn [read_request]. cbn zeta.
    assert (R : forall d, 0 <= d <= 10 ->
                reply echo_device (l ++ [EvCall a 1 (WriteRegister r v 6) (Value 0)])
                  a 1 (ReadRegister r 3 d) = Value (b64 (v # Z.to_pos (10 ^ d)))).
    { intros d Hd. cbn [reply echo_device]. rewrite Sa, Sr, last_written_latest.
      replace (0 <=? d) with true by (symmetry; apply Z.leb_le; lia).
      replace (d <=? 10) with true by (symmetry; apply Z.leb_le; lia).
      reflexivity. }
    rewrite !R by lia.
    assert (E : b64 (v # Z.to_pos (10 ^ 0)) = inject_Z v).
    { change (v # Z.to_pos (10 ^ 0)) with (inject_Z v). apply b64_small_int. lia. }
    rewrite E. split; [reflexivity|]. split; [|reflexivity].
    cbn. now rewrite <- app_assoc.
  - intros Hv.
    assert (Sv : uint16 v = false).
    { apply andb_false_iff. destruct Hv; [left|right]; apply Z.leb_gt; lia. }
    assert (W : reply echo_device l a 1 (WriteRegister r v 6) = Error ValueError).
    { cbn [reply echo_device]. now rewrite Sa, Sr, Sv. }
    rewrite W. eexists. split; [reflexivity|]. cbn.
    split; [reflexivity|]. split; [reflexivity|].
    apply last_written_failed.
Qed.

Lemma X19_witness :
  (exists st1 st2,
     write_register echo_device 5 12 42 HOLDING_REGISTER online = (Ret true, st1) /\
     read_register echo_device 5 12 HOLDING_REGISTER 0 st1 = (Ret (Some 42%Q), st2)) /\
  (exists st1,
     write_register echo_device 5 12 70000 HOLDING_REGISTER online = (Ret false, st1)).
Proof.
  destruct (X19_write_then_read_back online _ 5 12 42 eq_refl eq_refl
              ltac:(lia) ltac:(lia)) as [H _].
  destruct (H ltac:(lia)) as (st1 & st2 & H1 & H2 & _).
  destruct (X19_write_then_read_back online _ 5 12 70000 eq_refl eq_refl
              ltac:(lia) ltac:(lia)) as [_ H'].
  destruct (H' ltac:(lia)) as (st3 & H3 & _).
  split; [exists st1, st2; split; [exact H1|exact H2] | exists st3; exact H3].
Defined.

(** * Two more properties of the client *)

(** X20.  On a connected client [read_device] makes exactly one transaction,
    whatever slave address the instrument was left at: it goes to the
    device's own address, reads the device's register with the function code
    of its register type (1 coil, 2 discrete input, 3 holding register, 4
    input register) and asks for two decimals for the two register types
    only.  It returns [None] when the transaction is answered with an
    exception and a value when it is answered with one: the value that
    [round(raw*scale + offset, 2)] computes in floats from the answer, the
    scale and the offset, as long as the product and the sum do not
    overflow. *)
Theorem X20_read_device_transaction (tr : Transport) (st : State) (i : Instrument)
    (device : ModbusDeviceConfig) :
  connected (client st) = true ->
  instrument (client st) = Some i ->
  let rq := match register_type device with
            | COIL => ReadBit (register device) 1
            | DISCRETE_INPUT => ReadBit (register device) 2
            | HOLDING_REGISTER => ReadRegister (register device) 3 2
            | INPUT_REGISTER => ReadRegister (register device) 4 2
            end in
  exists rp res st',
    read_device tr device st = (Ret res, st') /\
    log st' = log st ++ [EvCall (address device) 1 rq rp] /\
    rp = reply tr (log st) (address device) 1 rq /\
    match rp with
    | Value raw =>
        exists v,
          res = Some v /\
          (in_floats device raw = true ->
           v = round2 (b64 (b64 (raw * scale device) + offset device)))
    | Error _ => res = None
    end.
Proof.
  intros Hc Hi rq. destruct st as [c l]. cbn in Hc, Hi.
  rewrite read_device_run.
  rewrite (read_register_connected tr c l i _ _ _ _ Hc Hi). cbn zeta.
  assert (E : read_request (register_type device) (register device)
                (decimals_of (register_type device)) = rq).
  { unfold rq. now destruct (register_type device). }
  rewrite E.
  exists (reply tr l (address device) 1 rq). cbn [log].
  destruct (reply tr l (address device) 1 rq) as [raw|e]; cbn;
    eexists _, _; (split; [reflexivity|]); (split; [reflexivity|]);
    (split; [reflexivity|]); eauto.
Qed.

Lemma X20_witness :
  exists res st',
    read_device link_3_7 (plain_device 3) online = (Ret res, st') /\
    log st' = [EvCall 3 1 (ReadRegister 0 4 2) (Value 42)] /\
    res = Some 42%Q.
Proof.
  destruct (X20_read_device_transaction link_3_7 online _ (plain_device 3)
              eq_refl eq_refl) as (rp & res & st' & H1 & H2 & H3 & H4).
  cbn in H3. subst rp. destruct H4 as (v & -> & Hv).
  exists (Some v), st'. split; [exact H1|]. split; [exact H2|].
  rewrite Hv by (vm_compute; reflexivity). vm_compute. reflexivity.
Defined.

(** X21.  The timeout the client is constructed with is never applied to the
    line.  Whenever [connect] opens the port, the instrument it leaves has
    the baud rate of the client, an open port and a serial timeout of 1.0 s,
    whatever the attribute [timeout] of the client; and in every state the
    methods of the client produce, the serial timeout between two calls is
    that 1.0 s. *)
Theorem X21_constructor_timeout_unused (tr : Transport) (st : State) :
  (connected (client st) = false \/ instrument (client st) = None ->
   opens tr (log st ++ closing (client st)) = true ->
   exists a',
     instrument (client (snd (connect tr st))) =
     Some {| slave_address := a'; serial_baudrate := baudrate (client st);
             serial_timeout := 1; serial_is_open := true |}) /\
  (reachable tr st ->
   forall i, instrument (client st) = Some i -> serial_timeout i = 1%Q).
Proof.
  split.
  - apply connect_fresh_instrument.
  - apply reachable_at_rest.
Qed.
